(** * OCPP proxy: a shallow embedding of the router, the upstream link and
    the proxy engine (ocpp-router.js, upstream.js, proxy.js, index.js).

    JavaScript strings are sequences of UTF-16 code units.  Frames, names and
    URLs are kept as [string]; the text handed to [JSON.parse] is read as its
    list of code units, and a parsed JSON string is a list of code units. *)

From Stdlib Require Import ZArith NArith String Ascii Bool Lia.
From stdpp Require Import base option list gmap sets strings.

Local Open Scope string_scope.
Local Open Scope list_scope.
Set Warnings "-register-all".

(** ** JSON values and the runtime's [JSON.parse] *)

Module Json.

(** A number is kept as the exact decimal [m * 10^e] of its literal,
    normalised so that [m] has no trailing zero digit ([0] is [(0, 0)]); the
    runtime rounds the literal to a binary64, which [binary64] below
    computes where the code compares numbers or uses them as keys. *)
Inductive JsonValue : Type :=
| JNull
| JBool (b : bool)
| JNumber (m e : Z)
| JString (s : list N)
| JArray (items : list JsonValue)
| JObject (members : list (list N * JsonValue)).

Definition units (s : string) : list N :=
  map N_of_ascii (list_ascii_of_string s).

Definition is_ws (c : N) : bool :=
  ((c =? 32) || (c =? 9) || (c =? 10) || (c =? 13))%N.

Definition is_digit (c : N) : bool := ((48 <=? c) && (c <=? 57))%N.

Fixpoint skip_ws (cs : list N) : list N :=
  match cs with
  | c :: r => if is_ws c then skip_ws r else cs
  | [] => []
  end.

(** The longest prefix of decimal digits, as digit values. *)
Fixpoint digits (cs : list N) : list N * list N :=
  match cs with
  | c :: r =>
      if is_digit c then let '(ds, r') := digits r in ((c - 48)%N :: ds, r')
      else ([], cs)
  | [] => ([], [])
  end.

Definition Z_of_digits (ds : list N) : Z :=
  fold_left (fun acc d => (10 * acc + Z.of_N d)%Z) ds 0%Z.

(** Drops the trailing zero digits and counts them. *)
Fixpoint strip_zeros (rev_ds : list N) (k : Z) : list N * Z :=
  match rev_ds with
  | 0%N :: r => strip_zeros r (k + 1)%Z
  | _ => (rev rev_ds, k)
  end.

Definition mk_number (neg : bool) (int frac : list N) (exp : Z) : JsonValue :=
  let '(ds, k) := strip_zeros (rev (int ++ frac)) 0%Z in
  let m := Z_of_digits ds in
  if (m =? 0)%Z then JNumber 0 0
  else JNumber (if neg then - m else m) (exp - Z.of_nat (length frac) + k).

Definition parse_int (cs : list N) : option (list N * list N) :=
  match cs with
  | 48%N :: r => Some ([0%N], r)
  | c :: _ => if is_digit c then Some (digits cs) else None
  | [] => None
  end.

Definition parse_frac (cs : list N) : option (list N * list N) :=
  match cs with
  | 46%N :: r =>
      match digits r with
      | ([], _) => None
      | (fs, r') => Some (fs, r')
      end
  | _ => Some ([], cs)
  end.

Definition parse_exp (cs : list N) : option (Z * list N) :=
  let exponent (neg : bool) (r : list N) :=
    match digits r with
    | ([], _) => None
    | (es, r') => Some (if neg then (- Z_of_digits es)%Z else Z_of_digits es, r')
    end in
  match cs with
  | 101%N :: 45%N :: r | 69%N :: 45%N :: r => exponent true r
  | 101%N :: 43%N :: r | 69%N :: 43%N :: r => exponent false r
  | 101%N :: r | 69%N :: r => exponent false r
  | _ => Some (0%Z, cs)
  end.

Definition parse_number (cs : list N) : option (JsonValue * list N) :=
  let '(neg, cs1) := match cs with 45%N :: r => (true, r) | _ => (false, cs) end in
  '(int, cs2) ← parse_int cs1;
  '(frac, cs3) ← parse_frac cs2;
  '(exp, cs4) ← parse_exp cs3;
  Some (mk_number neg int frac exp, cs4).

Definition hex (c : N) : option N :=
  if is_digit c then Some (c - 48)%N
  else if ((97 <=? c) && (c <=? 102))%N then Some (c - 87)%N
  else if ((65 <=? c) && (c <=? 70))%N then Some (c - 55)%N
  else None.

Definition unescape (c : N) : option N :=
  match c with
  | 34%N => Some 34%N     (* quote *)
  | 92%N => Some 92%N     (* backslash *)
  | 47%N => Some 47%N     (* slash *)
  | 98%N => Some 8%N      (* b *)
  | 102%N => Some 12%N    (* f *)
  | 110%N => Some 10%N    (* n *)
  | 114%N => Some 13%N    (* r *)
  | 116%N => Some 9%N     (* t *)
  | _ => None
  end.

(** The characters of a string literal after its opening quote, up to and
    including the closing quote. *)
Fixpoint parse_chars (cs acc : list N) : option (list N * list N) :=
  match cs with
  | [] => None
  | 34%N :: r => Some (rev acc, r)
  | 92%N :: 117%N :: a :: b :: c :: d :: r =>
      match hex a, hex b, hex c, hex d with
      | Some a, Some b, Some c, Some d =>
          parse_chars r ((((a * 16 + b) * 16 + c) * 16 + d)%N :: acc)
      | _, _, _, _ => None
      end
  | 92%N :: e :: r =>
      match unescape e with
      | Some u => parse_chars r (u :: acc)
      | None => None
      end
  | c :: r =>
      if ((c <? 32) || (c =? 92))%N then None else parse_chars r (c :: acc)
  end.

(** Recursive descent; every call consumes fuel, and [JSON_parse] gives
    enough of it for the whole text. *)
Fixpoint parse_value (fuel : nat) (cs : list N) {struct fuel}
  : option (JsonValue * list N) :=
  match fuel with
  | O => None
  | S f =>
      match skip_ws cs with
      | 110%N :: 117%N :: 108%N :: 108%N :: r => Some (JNull, r)
      | 116%N :: 114%N :: 117%N :: 101%N :: r => Some (JBool true, r)
      | 102%N :: 97%N :: 108%N :: 115%N :: 101%N :: r => Some (JBool false, r)
      | 34%N :: r =>
          '(s, r') ← parse_chars r []; Some (JString s, r')
      | 91%N :: r =>
          match skip_ws r with
          | 93%N :: r' => Some (JArray [], r')
          | _ => '(vs, r') ← parse_elements f r; Some (JArray vs, r')
          end
      | 123%N :: r =>
          match skip_ws r with
          | 125%N :: r' => Some (JObject [], r')
          | _ => '(ms, r') ← parse_members f r; Some (JObject ms, r')
          end
      | cs' => parse_number cs'
      end
  end
with parse_elements (fuel : nat) (cs : list N) {struct fuel}
  : option (list JsonValue * list N) :=
  match fuel with
  | O => None
  | S f =>
      '(v, r) ← parse_value f cs;
      match skip_ws r with
      | 44%N :: r' => '(vs, r'') ← parse_elements f r'; Some (v :: vs, r'')
      | 93%N :: r' => Some ([v], r')
      | _ => None
      end
  end
with parse_members (fuel : nat) (cs : list N) {struct fuel}
  : option (list (list N * JsonValue) * list N) :=
  match fuel with
  | O => None
  | S f =>
      match skip_ws cs with
      | 34%N :: r =>
          '(k, r1) ← parse_chars r [];
          match skip_ws r1 with
          | 58%N :: r2 =>
              '(v, r3) ← parse_value f r2;
              match skip_ws r3 with
              | 44%N :: r4 =>
                  '(ms, r5) ← parse_members f r4; Some ((k, v) :: ms, r5)
              | 125%N :: r4 => Some ([(k, v)], r4)
              | _ => None
              end
          | _ => None
          end
      | _ => None
      end
  end.

(** [JSON.parse(data)]: [None] where the runtime throws a SyntaxError. *)
Definition JSON_parse (data : string) : option JsonValue :=
  let cs := units data in
  '(v, r) ← parse_value (2 * length cs + 2) cs;
  match skip_ws r with
  | [] => Some v
  | _ => None
  end.

End Json.
Export Json.

(** A string literal of a frame: [s] between two quote characters. *)
Definition dq (s : string) : string :=
  String (ascii_of_nat 34) (s +:+ String (ascii_of_nat 34) EmptyString).

(** JavaScript truthiness of a string: every string but the empty one. *)
Definition truthy (s : string) : bool := negb (String.eqb s EmptyString).

(** ** Numbers as the runtime has them

    [JSON.parse] rounds a number literal to the nearest binary64, ties to
    even.  [Finite m e] is [m * 2^e] with [m] odd, or zero ([m = 0] and
    [e = 0]: the two zeros of the runtime are one value for [===] and [>],
    as keys of a Map or a Set and in a template literal). *)
Inductive Binary64 : Type :=
| Finite (m e : Z)
| Infinite (negative : bool).

Global Instance Binary64_eq_dec : EqDecision Binary64.
Proof. solve_decision. Defined.

(** [2^p <= a / b], for positive [a] and [b]. *)
Definition pow2_le (p a b : Z) : bool :=
  if (0 <=? p)%Z then (b * 2 ^ p <=? a)%Z else (b <=? a * 2 ^ (- p))%Z.

(** [p * 2^e] with the factors 2 of [p] moved to the exponent. *)
Fixpoint odd_part (p : positive) (e : Z) : positive * Z :=
  match p with
  | xO q => odd_part q (e + 1)%Z
  | _ => (p, e)
  end.

(** The binary64 nearest to [a / b], for positive [a] and [b]: [p] is the
    binary exponent of the quotient and [2^q] the unit in the last place
    there (that of the subnormals below [2^-1022]). *)
Definition round_positive (a b : Z) : Binary64 :=
  let p0 := (Z.log2 a - Z.log2 b)%Z in
  let p := if pow2_le p0 a b then p0 else (p0 - 1)%Z in
  let q := Z.max (p - 52) (-1074) in
  let n := if (0 <=? q)%Z then a else (a * 2 ^ (- q))%Z in
  let d := if (0 <=? q)%Z then (b * 2 ^ q)%Z else b in
  let r := (n / d)%Z in
  let rest := (n mod d)%Z in
  let r := if (d <? 2 * rest)%Z || ((d =? 2 * rest)%Z && Z.odd r)
           then (r + 1)%Z else r in
  if (2 ^ 1024 <=? r * 2 ^ q)%Z then Infinite false
  else match r with
       | Zpos x => let '(m, e) := odd_part x q in Finite (Zpos m) e
       | _ => Finite 0 0
       end.

(** The binary64 of the literal [m * 10^e]. *)
Definition binary64 (m e : Z) : Binary64 :=
  if (m =? 0)%Z then Finite 0 0
  else
    let a := if (0 <=? e)%Z then (Z.abs m * 10 ^ e)%Z else Z.abs m in
    let b := if (0 <=? e)%Z then 1%Z else (10 ^ (- e))%Z in
    match round_positive a b with
    | Finite x y => Finite (if (m <? 0)%Z then (- x)%Z else x) y
    | Infinite _ => Infinite (m <? 0)%Z
    end.

Global Arguments binary64 : simpl never.

(** [v === n] for a number literal [n] of the source. *)
Definition strict_eq_num (v : JsonValue) (n : Z) : bool :=
  match v with
  | JNumber m e => bool_decide (binary64 m e = binary64 n 0)
  | _ => false
  end.

(** ** Values in a template literal

    Whether the conversion of a value to a string returns.  An object made
    by [JSON.parse] that has an own member [toString] has no callable
    [toString], and neither its own [valueOf] nor the inherited one gives a
    primitive: the conversion throws a TypeError.  Any other object is
    converted by [Object.prototype.toString]; an array is joined, its
    elements being converted in turn; a primitive always converts. *)
Fixpoint renders (v : JsonValue) : bool :=
  match v with
  | JArray items => forallb renders items
  | JObject members =>
      negb (existsb (fun kv => bool_decide (fst kv = units "toString")) members)
  | _ => true
  end.

(** A message id as the runtime value it is: a primitive is compared by
    value, a number being its binary64 ([KNum m e] is [m * 2^e]); an array
    or an object is a reference, equal only to itself, and is identified by
    the stamp of the [JSON.parse] call that allocated it, [renders] telling
    whether the value it refers to converts to a string. *)
Inductive Key : Type :=
| KNull
| KBool (b : bool)
| KNum (m e : Z)
| KInf (negative : bool)
| KStr (s : list N)
| KRef (stamp : nat) (renders : bool).

Global Instance Key_eq_dec : EqDecision Key.
Proof. solve_decision. Defined.

Global Instance Key_countable : Countable Key.
Proof.
  refine (inj_countable'
    (fun k => match k with
              | KNull => inl (inl (inl (inl (inl tt))))
              | KBool b => inl (inl (inl (inl (inr b))))
              | KNum m e => inl (inl (inl (inr (m, e))))
              | KInf b => inl (inl (inr b))
              | KStr s => inl (inr s)
              | KRef n r => inr (n, r)
              end)
    (fun x => match x with
              | inl (inl (inl (inl (inl _)))) => KNull
              | inl (inl (inl (inl (inr b)))) => KBool b
              | inl (inl (inl (inr (m, e)))) => KNum m e
              | inl (inl (inr b)) => KInf b
              | inl (inr s) => KStr s
              | inr (n, r) => KRef n r
              end) _).
  by intros [].
Defined.

Definition key_of (stamp : nat) (v : JsonValue) : Key :=
  match v with
  | JNull => KNull
  | JBool b => KBool b
  | JNumber m e =>
      match binary64 m e with
      | Finite x y => KNum x y
      | Infinite negative => KInf negative
      end
  | JString s => KStr s
  | JArray _ | JObject _ => KRef stamp (renders v)
  end.

(** Whether an id converts to a string. *)
Definition key_renders (k : Key) : bool :=
  match k with
  | KRef _ r => r
  | _ => true
  end.

(** ** Logger calls

    One constructor per call site of the three modelled files, carrying the
    values the message interpolates. *)

Inductive Level : Type := error | warn | info | debug.

Inductive LogLine : Type :=
(* ocpp-router.js *)
| FailedToParse
| RegisteredClientCall (messageId : Key)
| RelayingResponse (serverName : string) (messageId : Key)
| DroppingResponse (serverName : string) (messageId : Key)
| RegisteredServerCall (serverName : string) (messageId : Key)
| ResponseShouldGoTo (messageId : Key) (serverName : string)
| CallToAllServers (messageId : Key)
| ReplyRoutedTo (type : JsonValue) (messageId : Key) (serverName : string)
| NoServerMapping (messageId : Key)
| UnknownMessageType (type : JsonValue)
| MessageFrom (serverName : string) (type : JsonValue) (messageId : Key)
| ClearedMappings
(* upstream.js *)
| AlreadyConnected
| Connecting (url : string)
| ConnectionError
| Connected (url : string)
| WebSocketError
| Disconnected
| MaxReconnectReached
| ReconnectingIn (delay : Z) (attempt maxAttempts : nat)
| CannotSendNotConnected
| ConnectionClosed
(* proxy.js *)
| RejectedInvalidPath (rawPath : string)
| ClientIdInUse
| NewClientConnection (clientId protocol : string)
| ClientIp (ip : option string)
| BufferingMessage (count : nat)
| ClientDisconnected
| ClientError
| InvalidClientMessage
| CannotSendTo (serverName : string)
| TargetNotFound (serverName : string)
| ErrorSendingToClient
| PrimaryConnectedRouting (serverName : string) (count : nat)
| SendingBuffered (count : nat) (serverName : string)
| ClearingBuffer (count : nat)
| StillConnecting
| AllDisconnected
| CleanupComplete.

Definition level (l : LogLine) : Level :=
  match l with
  | FailedToParse | ConnectionError | WebSocketError | MaxReconnectReached
  | ClientError | ErrorSendingToClient => error
  | NoServerMapping _ | UnknownMessageType _ | Disconnected
  | CannotSendNotConnected | RejectedInvalidPath _ | ClientIdInUse
  | InvalidClientMessage | CannotSendTo _ | TargetNotFound _ => warn
  | RelayingResponse _ _ | CallToAllServers _ | ReplyRoutedTo _ _ _
  | Connected _ | ReconnectingIn _ _ _ | ConnectionClosed
  | BufferingMessage _ | ClientDisconnected | PrimaryConnectedRouting _ _
  | SendingBuffered _ _ | ClearingBuffer _ | StillConnecting | AllDisconnected
  | CleanupComplete => info
  | RegisteredClientCall _ | DroppingResponse _ _ | RegisteredServerCall _ _
  | ResponseShouldGoTo _ _ | MessageFrom _ _ _ | ClearedMappings
  | AlreadyConnected | Connecting _ | NewClientConnection _ _ | ClientIp _ => debug
  end.

(** ** ocpp-router.js *)

Module Router.

Record Message : Type := {
  raw : string;
  type : JsonValue;
  messageId : Key;
  parsed : list JsonValue
}.

Record OcppRouter : Type := {
  messageIdToServer : gmap Key string;
  clientCallIds : gset Key
}.

Definition new : OcppRouter :=
  {| messageIdToServer := ∅; clientCallIds := ∅ |}.

(** [stamp] identifies this call of [JSON.parse] (see [Key]). *)
Definition parseMessage (stamp : nat) (data : string)
  : option Message * list LogLine :=
  match JSON_parse data with
  | None => (None, [FailedToParse])
  | Some (JArray (messageType :: messageId :: rest)) =>
      (Some {| raw := data; type := messageType;
               messageId := key_of stamp messageId;
               parsed := messageType :: messageId :: rest |}, [])
  | Some _ => (None, [])
  end.

(** A logger call whose message interpolates a value of the frame: the
    template literal is evaluated first, and it throws a TypeError when a
    value has no conversion to a string ([ok] is whether all have one).  The
    functions below return [None] where they throw, with the router and the
    lines logged as they are at that point. *)
Definition template (ok : bool) (l : LogLine) : option unit * list LogLine :=
  if ok then (Some tt, [l]) else (None, []).

Definition registerClientCall (this : OcppRouter) (messageId : Key)
  : option unit * OcppRouter * list LogLine :=
  let this := {| messageIdToServer := messageIdToServer this;
                 clientCallIds := {[messageId]} ∪ clientCallIds this |} in
  let '(done, l) := template (key_renders messageId) (RegisteredClientCall messageId) in
  (done, this, l).

(** [primaryServerName] is [None] where the source passes [null]. *)
Definition shouldRelayResponseToClient (this : OcppRouter) (messageId : Key)
    (serverName : string) (primaryServerName : option string)
  : option bool * list LogLine :=
  if negb (bool_decide (messageId ∈ clientCallIds this)) then (Some true, [])
  else if bool_decide (Some serverName = primaryServerName)
  then
    let '(done, l) :=
      template (key_renders messageId) (RelayingResponse serverName messageId) in
    (match done with Some _ => Some true | None => None end, l)
  else
    let '(done, l) :=
      template (key_renders messageId) (DroppingResponse serverName messageId) in
    (match done with Some _ => Some false | None => None end, l).

Definition registerServerCall (this : OcppRouter) (messageId : Key)
    (serverName : string) : option unit * OcppRouter * list LogLine :=
  let this :=
    {| messageIdToServer := <[messageId := serverName]> (messageIdToServer this);
       clientCallIds := clientCallIds this |} in
  let '(done, l) :=
    template (key_renders messageId) (RegisteredServerCall serverName messageId) in
  (done, this, l).

(** Returns what [Map.get] returned: [Some None] for [undefined]. *)
Definition getServerForResponse (this : OcppRouter) (messageId : Key)
  : option (option string) * OcppRouter * list LogLine :=
  match messageIdToServer this !! messageId with
  | Some serverName =>
      if truthy serverName
      then
        let this :=
          {| messageIdToServer := delete messageId (messageIdToServer this);
             clientCallIds := clientCallIds this |} in
        let '(done, l) :=
          template (key_renders messageId) (ResponseShouldGoTo messageId serverName) in
        (match done with Some _ => Some (Some serverName) | None => None end, this, l)
      else (Some (Some serverName), this, [])
  | None => (Some None, this, [])
  end.

Record Routing : Type := { sendToAll : bool; sendToServer : option string }.

Definition routeClientMessage (this : OcppRouter) (message : option Message)
  : option Routing * OcppRouter * list LogLine :=
  match message with
  | None => (Some {| sendToAll := false; sendToServer := None |}, this, [])
  | Some message =>
      if strict_eq_num (type message) 2 then
        let '(done, l) :=
          template (key_renders (messageId message))
            (CallToAllServers (messageId message)) in
        (match done with
         | Some _ => Some {| sendToAll := true; sendToServer := None |}
         | None => None
         end, this, l)
      else if strict_eq_num (type message) 3 || strict_eq_num (type message) 4 then
        let '(found, this1, l1) := getServerForResponse this (messageId message) in
        match found with
        | None => (None, this1, l1)
        | Some serverName =>
            let named :=
              match serverName with
              | Some serverName => if truthy serverName then Some serverName else None
              | None => None
              end in
            match named with
            | Some serverName =>
                let '(done, l2) :=
                  template (key_renders (messageId message))
                    (ReplyRoutedTo (type message) (messageId message) serverName) in
                (match done with
                 | Some _ => Some {| sendToAll := false; sendToServer := Some serverName |}
                 | None => None
                 end, this1, l1 ++ l2)
            | None =>
                let '(done, l2) :=
                  template (key_renders (messageId message))
                    (NoServerMapping (messageId message)) in
                (match done with
                 | Some _ => Some {| sendToAll := false; sendToServer := None |}
                 | None => None
                 end, this1, l1 ++ l2)
            end
        end
      else
        let '(done, l) :=
          template (renders (type message)) (UnknownMessageType (type message)) in
        (match done with
         | Some _ => Some {| sendToAll := false; sendToServer := None |}
         | None => None
         end, this, l)
  end.

Definition handleServerMessage (this : OcppRouter) (message : option Message)
    (serverName : string) : option unit * OcppRouter * list LogLine :=
  match message with
  | None => (Some tt, this, [])
  | Some message =>
      let '(registered, this1, l1) :=
        if strict_eq_num (type message) 2
        then registerServerCall this (messageId message) serverName
        else (Some tt, this, []) in
      match registered with
      | None => (None, this1, l1)
      | Some _ =>
          let '(done, l2) :=
            template (renders (type message) && key_renders (messageId message))
              (MessageFrom serverName (type message) (messageId message)) in
          (done, this1, l1 ++ l2)
      end
  end.

Definition clear (this : OcppRouter) : OcppRouter * list LogLine :=
  ({| messageIdToServer := ∅; clientCallIds := ∅ |}, [ClearedMappings]).

End Router.

(** ** upstream.js *)

Module Upstream.

(** [ws] tells whether [this.ws] holds a socket; the four callback fields
    are the subscriber of [Invoke] below. *)
Record UpstreamConnection : Type := {
  name : string;
  baseUrl : string;
  clientId : string;
  protocol : string;
  clientIp : option string;
  ws : bool;
  isConnected : bool;
  wasEverConnected : bool;
  closed : bool;
  reconnectAttempts : nat;
  maxReconnectAttempts : nat;
  reconnectTimer : option Z
}.

Definition set_ws (v : bool) (u : UpstreamConnection) : UpstreamConnection :=
  {| name := name u; baseUrl := baseUrl u; clientId := clientId u;
     protocol := protocol u; clientIp := clientIp u; ws := v;
     isConnected := isConnected u; wasEverConnected := wasEverConnected u;
     closed := closed u; reconnectAttempts := reconnectAttempts u;
     maxReconnectAttempts := maxReconnectAttempts u;
     reconnectTimer := reconnectTimer u |}.

Definition set_isConnected (v : bool) (u : UpstreamConnection) : UpstreamConnection :=
  {| name := name u; baseUrl := baseUrl u; clientId := clientId u;
     protocol := protocol u; clientIp := clientIp u; ws := ws u;
     isConnected := v; wasEverConnected := wasEverConnected u;
     closed := closed u; reconnectAttempts := reconnectAttempts u;
     maxReconnectAttempts := maxReconnectAttempts u;
     reconnectTimer := reconnectTimer u |}.

Definition set_wasEverConnected (v : bool) (u : UpstreamConnection) : UpstreamConnection :=
  {| name := name u; baseUrl := baseUrl u; clientId := clientId u;
     protocol := protocol u; clientIp := clientIp u; ws := ws u;
     isConnected := isConnected u; wasEverConnected := v;
     closed := closed u; reconnectAttempts := reconnectAttempts u;
     maxReconnectAttempts := maxReconnectAttempts u;
     reconnectTimer := reconnectTimer u |}.

Definition set_closed (v : bool) (u : UpstreamConnection) : UpstreamConnection :=
  {| name := name u; baseUrl := baseUrl u; clientId := clientId u;
     protocol := protocol u; clientIp := clientIp u; ws := ws u;
     isConnected := isConnected u; wasEverConnected := wasEverConnected u;
     closed := v; reconnectAttempts := reconnectAttempts u;
     maxReconnectAttempts := maxReconnectAttempts u;
     reconnectTimer := reconnectTimer u |}.

Definition set_reconnectAttempts (v : nat) (u : UpstreamConnection) : UpstreamConnection :=
  {| name := name u; baseUrl := baseUrl u; clientId := clientId u;
     protocol := protocol u; clientIp := clientIp u; ws := ws u;
     isConnected := isConnected u; wasEverConnected := wasEverConnected u;
     closed := closed u; reconnectAttempts := v;
     maxReconnectAttempts := maxReconnectAttempts u;
     reconnectTimer := reconnectTimer u |}.

Definition set_reconnectTimer (v : option Z) (u : UpstreamConnection) : UpstreamConnection :=
  {| name := name u; baseUrl := baseUrl u; clientId := clientId u;
     protocol := protocol u; clientIp := clientIp u; ws := ws u;
     isConnected := isConnected u; wasEverConnected := wasEverConnected u;
     closed := closed u; reconnectAttempts := reconnectAttempts u;
     maxReconnectAttempts := maxReconnectAttempts u;
     reconnectTimer := v |}.

(** What a method does to the outside: logger calls, the socket it creates
    (with the options it passes), writes and closes on [this.ws], timers. *)
Inductive LinkEffect : Type :=
| LLog (l : LogLine)
| WsNew (url : string) (protocol : option string) (headers : list (string * string))
| WsSend (data : string)
| WsClose
| SetTimeout (delay : Z)
| ClearTimeout.

Inductive Callback : Type :=
| OnMessage (data : string)
| OnConnected
| OnDisconnected
| OnGaveUp.

(** A method body that calls back into its owner: [Invoke cb u k] is the call
    of the subscribed callback [cb] (with [this.name]) while the link is in
    state [u]; the body resumes as [k u'] with the link as the owner left it. *)
Inductive Proc : Type :=
| Ret (u : UpstreamConnection)
| Eff (e : LinkEffect) (p : Proc)
| Invoke (cb : Callback) (u : UpstreamConnection) (k : UpstreamConnection -> Proc).

(** The constructor has five parameters. *)
Definition new (name baseUrl clientId protocol : string) (clientIp : option string)
  : UpstreamConnection :=
  {| name := name; baseUrl := baseUrl; clientId := clientId; protocol := protocol;
     clientIp := match clientIp with
                 | Some ip => if truthy ip then Some ip else None
                 | None => None
                 end;
     ws := false; isConnected := false; wasEverConnected := false;
     closed := false; reconnectAttempts := 0; maxReconnectAttempts := 10;
     reconnectTimer := None |}.

Definition getUrl (this : UpstreamConnection) : string :=
  baseUrl this +:+ clientId this.

Definition scheduleReconnect (this : UpstreamConnection) : Proc :=
  if closed this then Ret this
  else if bool_decide (is_Some (reconnectTimer this)) then Ret this
  else if (maxReconnectAttempts this <=? reconnectAttempts this)%nat then
    Eff (LLog MaxReconnectReached) (Invoke OnGaveUp this Ret)
  else
    let attempts := S (reconnectAttempts this) in
    let delay := Z.min (5000 * 2 ^ (Z.of_nat attempts - 1)) 60000 in
    Eff (LLog (ReconnectingIn delay attempts (maxReconnectAttempts this)))
      (Eff (SetTimeout delay)
         (Ret (set_reconnectTimer (Some delay) (set_reconnectAttempts attempts this)))).

Section Connect.

(** Whether [new WebSocket(url, protocol, options)] throws (the library
    rejects the URL or the subprotocol). *)
Variable WebSocket_throws : string -> option string -> bool.

Definition connect (this : UpstreamConnection) : Proc :=
  if ws this && isConnected this then Eff (LLog AlreadyConnected) (Ret this)
  else
    let url := getUrl this in
    let headers :=
      match clientIp this with
      | Some ip => [("X-Forwarded-For", ip); ("X-Real-IP", ip)]
      | None => []
      end in
    let protocol := if truthy (protocol this) then Some (protocol this) else None in
    Eff (LLog (Connecting url))
      (if WebSocket_throws url protocol
       then Eff (LLog ConnectionError) (scheduleReconnect this)
       else Eff (WsNew url protocol headers) (Ret (set_ws true this))).

(** The timer set by [scheduleReconnect] fires. *)
Definition on_timer (this : UpstreamConnection) : Proc :=
  connect (set_reconnectTimer None this).

End Connect.

(** The socket's [open], [message], [error] and [close] handlers. *)
Definition on_open (this : UpstreamConnection) : Proc :=
  let this := set_reconnectAttempts 0
                (set_wasEverConnected true (set_isConnected true this)) in
  Eff (LLog (Connected (getUrl this))) (Invoke OnConnected this Ret).

Definition on_message (data : string) (this : UpstreamConnection) : Proc :=
  Invoke (OnMessage data) this Ret.

Definition on_error (this : UpstreamConnection) : Proc :=
  Eff (LLog WebSocketError) (Ret this).

Definition on_close (this : UpstreamConnection) : Proc :=
  Eff (LLog Disconnected)
    (Invoke OnDisconnected (set_isConnected false this)
       (fun this => if closed this then Ret this else scheduleReconnect this)).

Definition send (this : UpstreamConnection) (data : string) : bool * list LinkEffect :=
  if negb (isConnected this) || negb (ws this)
  then (false, [LLog CannotSendNotConnected])
  else (true, [WsSend data]).

Definition close (this : UpstreamConnection) : UpstreamConnection * list LinkEffect :=
  let this := set_closed true this in
  let '(this, e1) :=
    if bool_decide (is_Some (reconnectTimer this))
    then (set_reconnectTimer None this, [ClearTimeout]) else (this, []) in
  let '(this, e2) :=
    if ws this then (set_ws false this, [WsClose]) else (this, []) in
  (set_isConnected false this, e1 ++ e2 ++ [LLog ConnectionClosed]).

(** What an observer of the link sees: its effects and the callbacks it
    calls. *)
Inductive LinkObs : Type :=
| Did (e : LinkEffect)
| Called (cb : Callback) (name : string).

(** A method run for a subscriber that leaves the link as it is. *)
Fixpoint run_alone (p : Proc) : UpstreamConnection * list LinkObs :=
  match p with
  | Ret u => (u, [])
  | Eff e p => let '(u, t) := run_alone p in (u, Did e :: t)
  | Invoke cb u k => let '(u', t) := run_alone (k u) in (u', Called cb (name u) :: t)
  end.

Definition timeouts (t : list LinkObs) : list Z :=
  omap (fun o => match o with Did (SetTimeout delay) => Some delay | _ => None end) t.

Definition gave_up_calls (t : list LinkObs) : list string :=
  omap (fun o => match o with Called OnGaveUp name => Some name | _ => None end) t.

Definition created (t : list LinkObs) : bool :=
  existsb (fun o => match o with Did (WsNew _ _ _) => true | _ => false end) t.

Section Failing.

Variable WebSocket_throws : string -> option string -> bool.

(** A link none of whose connection attempts succeeds, driven by what is
    pending: a created socket ([pending]) closes without having opened; a set
    timer fires; with neither, no handler of the link runs any more. *)
Fixpoint failing (fuel : nat) (pending : bool) (u : UpstreamConnection)
  : UpstreamConnection * list LinkObs :=
  match fuel with
  | O => (u, [])
  | S fuel' =>
      if pending then
        let '(u1, t1) := run_alone (on_close u) in
        let '(u2, t2) := failing fuel' false u1 in
        (u2, t1 ++ t2)
      else if bool_decide (is_Some (reconnectTimer u)) then
        let '(u1, t1) := run_alone (on_timer WebSocket_throws u) in
        let '(u2, t2) := failing fuel' (created t1) u1 in
        (u2, t1 ++ t2)
      else (u, [])
  end.

(** [connect()] on a link, then [failing]. *)
Definition connect_failing (fuel : nat) (u : UpstreamConnection)
  : UpstreamConnection * list LinkObs :=
  let '(u0, t0) := run_alone (connect WebSocket_throws u) in
  let '(u1, t1) := failing fuel (created t0) u0 in
  (u1, t0 ++ t1).

End Failing.

End Upstream.

(** ** proxy.js: one client session *)

Module Proxy.

Inductive ReadyState : Type := CONNECTING | OPEN | CLOSING | CLOSED.

Global Instance ReadyState_eq_dec : EqDecision ReadyState.
Proof. solve_decision. Defined.

(** The [connectionInfo] object together with what the closures of
    [handleClientConnection] hold on to after it left the registry:
    [clientWs] is the handle of the client socket and [readyState] its state,
    [registered] tells whether [this.clientConnections] has the socket, and
    [stamps] counts the [JSON.parse] calls made for this session. *)
Record Session : Type := {
  clientWs : nat;
  readyState : ReadyState;
  registered : bool;
  upstreams : list Upstream.UpstreamConnection;
  router : Router.OcppRouter;
  clientId : string;
  protocol : string;
  messageBuffer : list string;
  stamps : nat
}.

Definition set_readyState (v : ReadyState) (s : Session) : Session :=
  {| clientWs := clientWs s; readyState := v; registered := registered s;
     upstreams := upstreams s; router := router s; clientId := clientId s;
     protocol := protocol s; messageBuffer := messageBuffer s; stamps := stamps s |}.

Definition set_registered (v : bool) (s : Session) : Session :=
  {| clientWs := clientWs s; readyState := readyState s; registered := v;
     upstreams := upstreams s; router := router s; clientId := clientId s;
     protocol := protocol s; messageBuffer := messageBuffer s; stamps := stamps s |}.

Definition set_upstreams (v : list Upstream.UpstreamConnection) (s : Session) : Session :=
  {| clientWs := clientWs s; readyState := readyState s; registered := registered s;
     upstreams := v; router := router s; clientId := clientId s;
     protocol := protocol s; messageBuffer := messageBuffer s; stamps := stamps s |}.

Definition set_router (v : Router.OcppRouter) (s : Session) : Session :=
  {| clientWs := clientWs s; readyState := readyState s; registered := registered s;
     upstreams := upstreams s; router := v; clientId := clientId s;
     protocol := protocol s; messageBuffer := messageBuffer s; stamps := stamps s |}.

Definition set_messageBuffer (v : list string) (s : Session) : Session :=
  {| clientWs := clientWs s; readyState := readyState s; registered := registered s;
     upstreams := upstreams s; router := router s; clientId := clientId s;
     protocol := protocol s; messageBuffer := v; stamps := stamps s |}.

Definition set_stamps (v : nat) (s : Session) : Session :=
  {| clientWs := clientWs s; readyState := readyState s; registered := registered s;
     upstreams := upstreams s; router := router s; clientId := clientId s;
     protocol := protocol s; messageBuffer := messageBuffer s; stamps := v |}.

Inductive Hook : Type :=
| connectedToProxy (clientId : string)
| disconnectedFromProxy (clientId : string)
| connectedToUpstream (clientId serverName : string)
| disconnectedFromUpstream (clientId serverName : string)
| callFromClient (clientId data : string).

(** What a handler of the session does, in order: logger calls, what upstream
    link [k] does, writes to and closes of the client socket, notifier hooks,
    and the TypeError that ends it (a property read on [undefined], a value
    of a frame that has no conversion to a string or to a number). *)
Inductive Effect : Type :=
| Log (l : LogLine)
| Up (k : nat) (e : Upstream.LinkEffect)
| ClientSend (data : string)
| ClientClose (code : Z) (reason : string)
| Notify (h : Hook)
| ThrowTypeError.

Definition logs (l : list LogLine) : list Effect := Log <$> l.
Definition ups (k : nat) (l : list Upstream.LinkEffect) : list Effect := Up k <$> l.

(** [clientWs.close(code, reason)]: an open socket starts closing. *)
Definition close_client (code : Z) (reason : string) (s : Session)
  : Session * list Effect :=
  (set_readyState (match readyState s with OPEN => CLOSING | st => st end) s,
   [ClientClose code reason]).

(** [upstreams.forEach]: a connected link is sent the frame, the others are
    logged; [k] is the position of the head of [l]. *)
Fixpoint broadcast (data : string) (k : nat) (l : list Upstream.UpstreamConnection)
  : list Effect :=
  match l with
  | [] => []
  | upstream :: l' =>
      (if Upstream.isConnected upstream
       then ups k (snd (Upstream.send upstream data))
       else [Log (CannotSendTo (Upstream.name upstream))])
      ++ broadcast data (S k) l'
  end.

(** [upstreams.forEach(upstream => upstream.close())]. *)
Fixpoint close_all (k : nat) (l : list Upstream.UpstreamConnection)
  : list Upstream.UpstreamConnection * list Effect :=
  match l with
  | [] => ([], [])
  | upstream :: l' =>
      let '(upstream', e) := Upstream.close upstream in
      let '(l'', e') := close_all (S k) l' in
      (upstream' :: l'', ups k e ++ e')
  end.

Definition cleanupClientConnection (s : Session) : Session * list Effect :=
  if negb (registered s) then (s, [])
  else
    let '(upstreams', e1) := close_all 0 (upstreams s) in
    let '(router', l2) := Router.clear (router s) in
    (set_registered false (set_router router' (set_upstreams upstreams' s)),
     e1 ++ logs l2 ++ [Log CleanupComplete]).

Definition flushMessageBufferIfAllConnected (s : Session) : Session * list Effect :=
  if negb (registered s) || (length (messageBuffer s) =? 0)%nat then (s, [])
  else
    let allResolved :=
      forallb (fun u => Upstream.isConnected u
                        || (Upstream.maxReconnectAttempts u <=? Upstream.reconnectAttempts u)%nat)
              (upstreams s) in
    if allResolved
    then (set_messageBuffer [] s, [Log (ClearingBuffer (length (messageBuffer s)))])
    else (s, []).

Definition checkUpstreamsStatus (s : Session) : Session * list Effect :=
  if negb (registered s) then (s, [])
  else
    let someStillConnecting :=
      existsb (fun u => negb (Upstream.isConnected u)
                        && negb (Upstream.wasEverConnected u)
                        && (Upstream.reconnectAttempts u <? Upstream.maxReconnectAttempts u)%nat)
              (upstreams s) in
    if someStillConnecting then (s, [Log StillConnecting])
    else
      let allDisconnected :=
        forallb (fun u => negb (Upstream.isConnected u)) (upstreams s) in
      if allDisconnected then
        let '(s1, e1) := close_client 1001 "All upstream servers unavailable" s in
        let '(s2, e2) := cleanupClientConnection s1 in
        (s2, Log AllDisconnected :: e1 ++ e2)
      else (s, []).

(** The notifier of the proxy: [None] where [this.notifier] is null, and
    [Some throws] where it is set, [throws clientId data] telling whether its
    hook [callFromClient(clientId, data)] throws (module [Alerts] works out
    when the hook of notify.js does).  Its four hooks of the connections read
    the configuration and the name mapping only, and return. *)
Definition Notifier : Type := option (string -> string -> bool).

(** Whether a handler threw: the exception is the last of its effects.
    Nothing in proxy.js or upstream.js catches it, so it also ends the event
    handler that called the handler; index.js then logs it and exits the
    process.  What the model says of the events after it holds of a host
    that goes on. *)
Definition threw (e : list Effect) : bool :=
  existsb (fun x => match x with ThrowTypeError => true | _ => false end) e.

Section Handlers.

(** [this.notifier]. *)
Variable notifier : Notifier.

Definition notify (h : Hook) : list Effect :=
  match notifier with
  | Some _ => [Notify h]
  | None => []
  end.

(** [handleClientMessage(clientWs, data, upstreams, router)], with the
    upstreams and the router the closure passes: the session's own.  An
    exception of the router or of the notifier's hook ends it there. *)
Definition handleClientMessage (data : string) (s : Session) : Session * list Effect :=
  let '(message, l0) := Router.parseMessage (stamps s) data in
  let s := set_stamps (S (stamps s)) s in
  match message with
  | None => (s, logs l0 ++ [Log InvalidClientMessage])
  | Some message =>
      let '(routing, router1, l1) := Router.routeClientMessage (router s) (Some message) in
      let s := set_router router1 s in
      match routing with
      | None => (s, logs l0 ++ logs l1 ++ [ThrowTypeError])
      | Some routing =>
          if Router.sendToAll routing then
            if strict_eq_num (Router.type message) 2 then
              let '(done, router2, l2) :=
                Router.registerClientCall (router s) (Router.messageId message) in
              let s := set_router router2 s in
              match done with
              | None => (s, logs l0 ++ logs l1 ++ logs l2 ++ [ThrowTypeError])
              | Some _ =>
                  match notifier with
                  | Some throws =>
                      if negb (registered s)
                      then (s, logs l0 ++ logs l1 ++ logs l2 ++ [ThrowTypeError])
                      else if throws (clientId s) data
                      then (s, logs l0 ++ logs l1 ++ logs l2
                               ++ [Notify (callFromClient (clientId s) data);
                                   ThrowTypeError])
                      else (s, logs l0 ++ logs l1 ++ logs l2
                               ++ [Notify (callFromClient (clientId s) data)]
                               ++ broadcast data 0 (upstreams s))
                  | None =>
                      (s, logs l0 ++ logs l1 ++ logs l2 ++ broadcast data 0 (upstreams s))
                  end
              end
            else (s, logs l0 ++ logs l1 ++ broadcast data 0 (upstreams s))
          else
            match Router.sendToServer routing with
            | Some target =>
                if truthy target then
                  match list_find (fun u => Upstream.name u = target) (upstreams s) with
                  | Some (k, targetUpstream) =>
                      if Upstream.isConnected targetUpstream
                      then (s, logs l0 ++ logs l1
                               ++ ups k (snd (Upstream.send targetUpstream data)))
                      else (s, logs l0 ++ logs l1 ++ [Log (TargetNotFound target)])
                  | None => (s, logs l0 ++ logs l1 ++ [Log (TargetNotFound target)])
                  end
                else (s, logs l0 ++ logs l1)
            | None => (s, logs l0 ++ logs l1)
            end
      end
  end.

(** [handleUpstreamMessage(clientWs, data, serverName, router)]. *)
Definition handleUpstreamMessage (data serverName : string) (s : Session)
  : Session * list Effect :=
  let '(message, l0) := Router.parseMessage (stamps s) data in
  let s := set_stamps (S (stamps s)) s in
  let '(handled, router1, l1) :=
    match message with
    | Some _ => Router.handleServerMessage (router s) message serverName
    | None => (Some tt, router s, [])
    end in
  let s := set_router router1 s in
  let relay := if bool_decide (readyState s = OPEN) then [ClientSend data] else [] in
  match handled with
  | None => (s, logs l0 ++ logs l1 ++ [ThrowTypeError])
  | Some _ =>
      match message with
      | Some message =>
          if strict_eq_num (Router.type message) 3 || strict_eq_num (Router.type message) 4
          then
            match (if registered s
                   then match upstreams s with
                        | primary :: _ => Some (Some (Upstream.name primary))
                        | [] => None
                        end
                   else Some None) with
            | None => (s, logs l0 ++ logs l1 ++ [ThrowTypeError])
            | Some primaryServerName =>
                let '(ok, l2) :=
                  Router.shouldRelayResponseToClient (router s) (Router.messageId message)
                    serverName primaryServerName in
                match ok with
                | None => (s, logs l0 ++ logs l1 ++ logs l2 ++ [ThrowTypeError])
                | Some ok =>
                    if negb ok then (s, logs l0 ++ logs l1 ++ logs l2)
                    else (s, logs l0 ++ logs l1 ++ logs l2 ++ relay)
                end
            end
          else (s, logs l0 ++ logs l1 ++ relay)
      | None => (s, logs l0 ++ logs l1 ++ relay)
      end
  end.

(** The [message] handler of the client socket. *)
Definition onClientMessage (msg : string) (s : Session) : Session * list Effect :=
  if registered s && negb (existsb Upstream.isConnected (upstreams s))
  then (set_messageBuffer (messageBuffer s ++ [msg]) s,
        [Log (BufferingMessage (length (messageBuffer s) + 1))])
  else handleClientMessage msg s.

(** The loop of the primary branch of [sendBufferToUpstream]: an exception
    of [handleClientMessage] leaves the loop, the frames after the one it
    was thrown for being handled no more. *)
Fixpoint feed (messages : list string) (s : Session) : Session * list Effect :=
  match messages with
  | [] => (s, [])
  | msg :: messages' =>
      let '(s1, e1) := handleClientMessage msg s in
      if threw e1 then (s1, e1)
      else let '(s2, e2) := feed messages' s1 in (s2, e1 ++ e2)
  end.

(** [sendBufferToUpstream(clientWs, upstream)] for the link at position [k]
    of the session: [upstream === upstreams[0]] is [k = 0]. *)
Definition sendBufferToUpstream (k : nat) (s : Session) : Session * list Effect :=
  if negb (registered s) || (length (messageBuffer s) =? 0)%nat then (s, [])
  else
    match upstreams s !! k with
    | None => (s, [])
    | Some upstream =>
        if (k =? 0)%nat then
          let '(s1, e1) := feed (messageBuffer s) s in
          (s1, Log (PrimaryConnectedRouting (Upstream.name upstream)
                      (length (messageBuffer s))) :: e1)
        else
          (s, Log (SendingBuffered (length (messageBuffer s)) (Upstream.name upstream))
              :: flat_map (fun msg => ups k (snd (Upstream.send upstream msg)))
                          (messageBuffer s))
    end.

(** The callbacks [handleClientConnection] subscribes on the link at
    position [k]; an exception of a call ends the callback. *)
Definition callback (k : nat) (cb : Upstream.Callback) (serverName : string)
    (s : Session) : Session * list Effect :=
  match cb with
  | Upstream.OnMessage data => handleUpstreamMessage data serverName s
  | Upstream.OnConnected =>
      let '(s1, e1) := sendBufferToUpstream k s in
      if threw e1 then (s1, e1)
      else
        let '(s2, e2) := flushMessageBufferIfAllConnected s1 in
        (s2, e1 ++ e2 ++ notify (connectedToUpstream (clientId s) serverName))
  | Upstream.OnDisconnected =>
      let '(s1, e1) := checkUpstreamsStatus s in
      (s1, e1 ++ notify (disconnectedFromUpstream (clientId s) serverName))
  | Upstream.OnGaveUp =>
      let '(s1, e1) := flushMessageBufferIfAllConnected s in
      let '(s2, e2) := checkUpstreamsStatus s1 in
      (s2, e1 ++ e2)
  end.

(** A method of the link at position [k] run inside the session: its
    callbacks are the session's, and it resumes on the link as they left it,
    unless the callback threw: the exception ends the method too. *)
Fixpoint run_link (k : nat) (p : Upstream.Proc) (s : Session) : Session * list Effect :=
  match p with
  | Upstream.Ret u => (set_upstreams (<[k := u]> (upstreams s)) s, [])
  | Upstream.Eff e p => let '(s1, e1) := run_link k p s in (s1, Up k e :: e1)
  | Upstream.Invoke cb u cont =>
      let '(s1, e1) :=
        callback k cb (Upstream.name u) (set_upstreams (<[k := u]> (upstreams s)) s) in
      if threw e1 then (s1, e1)
      else
        match upstreams s1 !! k with
        | Some u' => let '(s2, e2) := run_link k (cont u') s1 in (s2, e1 ++ e2)
        | None => (s1, e1)
        end
  end.

Definition on_link (k : nat) (method : Upstream.UpstreamConnection -> Upstream.Proc)
    (s : Session) : Session * list Effect :=
  match upstreams s !! k with
  | Some u => run_link k (method u) s
  | None => (s, [])
  end.

(** The [close] handler of the client socket; the socket is closed by then. *)
Definition onClientClose (s : Session) : Session * list Effect :=
  let s := set_readyState CLOSED s in
  let '(s1, e1) := cleanupClientConnection s in
  (s1, Log ClientDisconnected :: notify (disconnectedFromProxy (clientId s)) ++ e1).

Definition onClientError (s : Session) : Session * list Effect :=
  (s, [Log ClientError]).

End Handlers.

(** ** proxy.js and index.js: the listener and the registry *)

Record Request : Type := {
  url : option string;
  headers : gmap string string;
  remoteAddress : option string
}.

(** [rawPath.replace(/^\/+/, '')]. *)
Fixpoint strip_slashes (s : string) : string :=
  match s with
  | String c s' => if Ascii.eqb c "/" then strip_slashes s' else s
  | EmptyString => EmptyString
  end.

Definition is_id_char (c : ascii) : bool :=
  let n := N_of_ascii c in
  ((97 <=? n) && (n <=? 122) || (65 <=? n) && (n <=? 90)
   || (48 <=? n) && (n <=? 57) || (n =? 95) || (n =? 45))%N.

(** [match(/^([a-zA-Z0-9_-]+)$/)], giving the first group. *)
Definition path_match (s : string) : option string :=
  if truthy s && forallb is_id_char (list_ascii_of_string s) then Some s else None.

(** [split(',')[0]]. *)
Fixpoint first_field (s : string) : string :=
  match s with
  | String c s' => if Ascii.eqb c "," then EmptyString else String c (first_field s')
  | EmptyString => EmptyString
  end.

(** The white space and line terminators [trim] removes, among the code
    units below 256. *)
Definition is_js_space (c : ascii) : bool :=
  let n := N_of_ascii c in
  ((9 <=? n) && (n <=? 13) || (n =? 32) || (n =? 160))%N.

Fixpoint trim_start (s : string) : string :=
  match s with
  | String c s' => if is_js_space c then trim_start s' else s
  | EmptyString => EmptyString
  end.

Fixpoint trim_end (s : string) : string :=
  match s with
  | String c s' =>
      match trim_end s' with
      | EmptyString => if is_js_space c then EmptyString else String c EmptyString
      | t => String c t
      end
  | EmptyString => EmptyString
  end.

Definition trim (s : string) : string := trim_end (trim_start s).

(** [a || b] where [a] is a string that may be missing. *)
Definition or_else (a : option string) (b : option string) : option string :=
  match a with
  | Some x => if truthy x then Some x else b
  | None => b
  end.

(** A call that passes one argument more than the callee declares: the
    argument is evaluated and no parameter receives it. *)
Definition with_extra_argument {A B : Type} (result : A) (extra : B) : A := result.

(** The proxy object: [config.upstreams] as (name, url) pairs, whether
    [this.notifier] is set, every session created so far in creation order
    (the Map [this.clientConnections] holds the [registered] ones, in this
    order), and the handle the next client socket gets. *)
Record OcppProxy : Type := {
  config_upstreams : list (string * string);
  notifier : Notifier;
  sessions : list Session;
  nextWs : nat
}.

(** What the proxy does: an effect of the session of a client socket, or
    [this.server.close()]. *)
Inductive Output : Type :=
| At (clientWs : nat) (e : Effect)
| ServerClose.

Definition at_ws (clientWs : nat) (l : list Effect) : list Output := At clientWs <$> l.

(** index.js: the upstreams array built from the configuration. *)
Definition build_upstreams (primaryUrl : string) (secondaryUrl : option string)
  : list (string * string) :=
  ("PRI", primaryUrl) ::
  match or_else secondaryUrl None with
  | Some u => [("SEC", u)]
  | None => []
  end.

Definition start (primaryUrl : string) (secondaryUrl : option string)
    (notifier : Notifier) : OcppProxy :=
  {| config_upstreams := build_upstreams primaryUrl secondaryUrl;
     notifier := notifier; sessions := []; nextWs := 0 |}.

Definition set_sessions (v : list Session) (p : OcppProxy) : OcppProxy :=
  {| config_upstreams := config_upstreams p; notifier := notifier p;
     sessions := v; nextWs := nextWs p |}.

Section Server.

Variable WebSocket_throws : string -> option string -> bool.

(** The scan of [handleClientConnection] for a registered session with the
    same client id: the first one found is cleaned up, then its socket is
    closed, and the scan stops. *)
Fixpoint closeExisting (newWs : nat) (id : string) (l : list Session)
  : list Session * list Output :=
  match l with
  | [] => ([], [])
  | s :: l' =>
      if registered s && String.eqb (clientId s) id then
        let '(s1, e1) := cleanupClientConnection s in
        let '(s2, e2) := close_client 1001 "Replaced by a new connection" s1 in
        (s2 :: l', At newWs (Log ClientIdInUse) :: at_ws (clientWs s) (e1 ++ e2))
      else
        let '(l'', e) := closeExisting newWs id l' in (s :: l'', e)
  end.

(** [upstreams.forEach]: subscribe, then [upstream.connect()], for the
    [n] links from position [k] on. *)
Fixpoint connect_all (notifier : Notifier) (n k : nat) (s : Session)
  : Session * list Effect :=
  match n with
  | O => (s, [])
  | S n' =>
      let '(s1, e1) := on_link notifier k (Upstream.connect WebSocket_throws) s in
      let '(s2, e2) := connect_all notifier n' (S k) s1 in
      (s2, e1 ++ e2)
  end.

Definition handleClientConnection (request : Request) (wsProtocol : string)
    (this : OcppProxy) : OcppProxy * list Output :=
  let clientWs := nextWs this in
  let this := {| config_upstreams := config_upstreams this; notifier := notifier this;
                 sessions := sessions this; nextWs := S clientWs |} in
  let rawPath := default "/" (or_else (url request) None) in
  match path_match (strip_slashes rawPath) with
  | None =>
      (this, at_ws clientWs
         [Log (RejectedInvalidPath rawPath);
          ClientClose 1008
            "Invalid path: must be single-level alphanumeric, underscore, or hyphen"])
  | Some clientId =>
      let protocol := if truthy wsProtocol then wsProtocol else "ocpp1.6" in
      let '(sessions1, e1) := closeExisting clientWs clientId (sessions this) in
      let clientIp :=
        or_else (Some (trim (first_field
                   (default EmptyString (or_else (headers request !! "x-forwarded-for") None)))))
                (remoteAddress request) in
      let forwardedHeaders :=
        match or_else (headers request !! "authorization") None with
        | Some v => [("Authorization", v)]
        | None => []
        end ++
        match or_else (headers request !! "user-agent") None with
        | Some v => [("User-Agent", v)]
        | None => []
        end in
      let upstreams :=
        (fun upstreamConfig : string * string =>
           with_extra_argument
             (Upstream.new (fst upstreamConfig) (snd upstreamConfig)
                clientId protocol clientIp)
             forwardedHeaders)
        <$> config_upstreams this in
      let connectionInfo :=
        {| clientWs := clientWs; readyState := OPEN; registered := true;
           upstreams := upstreams; router := Router.new; clientId := clientId;
           protocol := protocol; messageBuffer := []; stamps := 0 |} in
      let '(session, e2) :=
        connect_all (notifier this) (length upstreams) 0 connectionInfo in
      (set_sessions (sessions1 ++ [session]) this,
       e1 ++ at_ws clientWs
               (Log (NewClientConnection clientId protocol)
                :: notify (notifier this) (connectedToProxy clientId)
                ++ Log (ClientIp clientIp) :: e2))
  end.

(** A handler of the session that owns client socket [ws]. *)
Fixpoint on_session (ws : nat) (handler : Session -> Session * list Effect)
    (l : list Session) : list Session * list Output :=
  match l with
  | [] => ([], [])
  | s :: l' =>
      if (clientWs s =? ws)%nat then
        let '(s1, e1) := handler s in (s1 :: l', at_ws ws e1)
      else
        let '(l'', e) := on_session ws handler l' in (s :: l'', e)
  end.

(** [stop()]: every registered session is cleaned up, then the server is
    closed. *)
Fixpoint cleanup_all (l : list Session) : list Session * list Output :=
  match l with
  | [] => ([], [])
  | s :: l' =>
      let '(s1, e1) := cleanupClientConnection s in
      let '(l'', e) := cleanup_all l' in
      (s1 :: l'', at_ws (clientWs s) e1 ++ e)
  end.

Definition stop (this : OcppProxy) : OcppProxy * list Output :=
  let '(l, e) := cleanup_all (sessions this) in
  (set_sessions l this, e ++ [ServerClose]).

(** The events the runtime delivers to the handlers of one session: those of
    its client socket, and those of the socket and the timer of its upstream
    link at position [k].  [client_closing] is the start of the closing
    handshake by the peer: the socket turns CLOSING and no handler runs until
    its [close] event. *)
Inductive SessionEvent : Type :=
| client_message (data : string)
| client_closing
| client_close
| client_error
| upstream_open (k : nat)
| upstream_message (k : nat) (data : string)
| upstream_error (k : nat)
| upstream_close (k : nat)
| reconnect_timer (k : nat).

Definition handle (nf : Notifier) (ev : SessionEvent) (s : Session)
  : Session * list Effect :=
  match ev with
  | client_message data => onClientMessage nf data s
  | client_closing =>
      (set_readyState (match readyState s with OPEN => CLOSING | st => st end) s, [])
  | client_close => onClientClose nf s
  | client_error => onClientError s
  | upstream_open k => on_link nf k Upstream.on_open s
  | upstream_message k data => on_link nf k (Upstream.on_message data) s
  | upstream_error k => on_link nf k Upstream.on_error s
  | upstream_close k => on_link nf k Upstream.on_close s
  | reconnect_timer k => on_link nf k (Upstream.on_timer WebSocket_throws) s
  end.

Fixpoint session_run (nf : Notifier) (evs : list SessionEvent) (s : Session)
  : Session * list Effect :=
  match evs with
  | [] => (s, [])
  | ev :: evs' =>
      let '(s1, e1) := handle nf ev s in
      let '(s2, e2) := session_run nf evs' s1 in
      (s2, e1 ++ e2)
  end.

(** The events the runtime delivers to the proxy: a new client socket, an
    event of the session that owns client socket [ws], SIGINT or SIGTERM. *)
Inductive Event : Type :=
| connection (request : Request) (wsProtocol : string)
| of_session (ws : nat) (ev : SessionEvent)
| shutdown.

Definition step (ev : Event) (this : OcppProxy) : OcppProxy * list Output :=
  match ev with
  | connection request wsProtocol => handleClientConnection request wsProtocol this
  | of_session ws ev =>
      let '(l, e) := on_session ws (handle (notifier this) ev) (sessions this) in
      (set_sessions l this, e)
  | shutdown => stop this
  end.

Fixpoint run (evs : list Event) (this : OcppProxy) : OcppProxy * list Output :=
  match evs with
  | [] => (this, [])
  | ev :: evs' =>
      let '(this1, e1) := step ev this in
      let '(this2, e2) := run evs' this1 in
      (this2, e1 ++ e2)
  end.

End Server.

End Proxy.

Import Router Proxy.

(** ** What the properties observe *)

(** The frames written to the client socket, in order. *)
Definition client_sends (e : list Effect) : list string :=
  omap (fun x => match x with ClientSend data => Some data | _ => None end) e.

(** The frames written to upstream sockets, each with the position of its
    link, in order. *)
Definition upstream_writes (e : list Effect) : list (nat * string) :=
  omap (fun x => match x with
                 | Up k (Upstream.WsSend data) => Some (k, data)
                 | _ => None
                 end) e.

(** The notifier's hook [callFromClient] returns for the frame [data] of
    the client [clientId], or there is no notifier. *)
Definition hook_returns (nf : Notifier) (clientId data : string) : Prop :=
  forall throws, nf = Some throws -> throws clientId data = false.

(** A frame of the client [clientId] that is a CALL the handler gets
    through: its id converts to a string, and the notifier's hook returns
    for it. *)
Definition sound_call (nf : Notifier) (clientId data : string) : Prop :=
  exists t i rest,
    JSON_parse data = Some (JArray (t :: i :: rest)) /\
    strict_eq_num t 2 = true /\ renders i = true /\
    hook_returns nf clientId data.

(** The frames written to the socket of the link at position [k], in
    order. *)
Definition writes_to (k : nat) (e : list Effect) : list string :=
  omap (fun x => match x with
                 | Up j (Upstream.WsSend data) =>
                     if (j =? k)%nat then Some data else None
                 | _ => None
                 end) e.

(** The [(position, link)] pairs of the connected links, in order from
    position [k]. *)
Fixpoint connected_from (k : nat) (l : list Upstream.UpstreamConnection) : list nat :=
  match l with
  | [] => []
  | u :: l' =>
      (if Upstream.isConnected u then [k] else []) ++ connected_from (S k) l'
  end.

Definition names (s : Session) : list string := Upstream.name <$> upstreams s.

(** A connected link holds its socket: [isConnected] is set by the open
    handler of [this.ws] and cleared wherever [this.ws] is. *)
Definition holds_socket (u : Upstream.UpstreamConnection) : Prop :=
  Upstream.isConnected u = true -> Upstream.ws u = true.

(** A link the session cannot count on any more: not connected, and either
    connected before or out of reconnection attempts. *)
Definition unavailable (u : Upstream.UpstreamConnection) : Prop :=
  Upstream.isConnected u = false /\
  (Upstream.wasEverConnected u = true \/
   Upstream.maxReconnectAttempts u <= Upstream.reconnectAttempts u).

Global Instance unavailable_dec u : Decision (unavailable u).
Proof. unfold unavailable. apply _. Defined.

(** A link the buffer need not wait for: connected, or out of reconnection
    attempts. *)
Definition resolved (u : Upstream.UpstreamConnection) : Prop :=
  Upstream.isConnected u = true \/
  Upstream.maxReconnectAttempts u <= Upstream.reconnectAttempts u.

(** The delay before reconnection attempt [n] (counted from 1), in
    milliseconds, as the specification gives it. *)
Definition spec_delay (n : nat) : Z := Z.min (5000 * 2 ^ (Z.of_nat n - 1)) 60000.

(** How a session can change while it lives: it keeps its socket, its client
    id and the names of its links; it is never registered again; and while
    it is registered no id leaves [clientCallIds]. *)
Definition evolves (s s' : Session) : Prop :=
  clientWs s' = clientWs s /\ clientId s' = clientId s /\ names s' = names s /\
  (registered s' = true ->
   registered s = true /\ clientCallIds (router s) ⊆ clientCallIds (router s')).

(** A link method that never changes the name of its link. *)
Inductive keeps_name (n : string) : Upstream.Proc -> Prop :=
| keeps_ret u : Upstream.name u = n -> keeps_name n (Upstream.Ret u)
| keeps_eff e p : keeps_name n p -> keeps_name n (Upstream.Eff e p)
| keeps_invoke cb u k :
    Upstream.name u = n ->
    (forall u', Upstream.name u' = n -> keeps_name n (k u')) ->
    keeps_name n (Upstream.Invoke cb u k).

(** The registry holds at most one session per client id. *)
Definition unique_ids (l : list Session) : Prop :=
  forall n1 n2 s1 s2,
    l !! n1 = Some s1 -> l !! n2 = Some s2 ->
    registered s1 = true -> registered s2 = true ->
    clientId s1 = clientId s2 -> n1 = n2.

(** A method body that makes no callback. *)
Inductive quiet : Upstream.Proc -> Prop :=
| quiet_ret u : quiet (Upstream.Ret u)
| quiet_eff e p : quiet p -> quiet (Upstream.Eff e p).

(** A link between two attempts: not closed by its owner, its attempt count
    within the maximum. *)
Record idle (u : Upstream.UpstreamConnection) : Prop := {
  idle_open : Upstream.closed u = false;
  idle_range : Upstream.reconnectAttempts u <= Upstream.maxReconnectAttempts u
}.

(** What is seen of a link that goes from state [u0] through its [d]
    remaining attempts: the delays of these attempts, one call of
    [on_gave_up], and a link left open, without timer, at its maximum. *)
Definition exhausted (u0 : Upstream.UpstreamConnection) (d : nat)
    (r : Upstream.UpstreamConnection * list Upstream.LinkObs) : Prop :=
  Upstream.timeouts (snd r)
    = spec_delay <$> seq (S (Upstream.reconnectAttempts u0)) d /\
  Upstream.gave_up_calls (snd r) = [Upstream.name u0] /\
  Upstream.closed (fst r) = false /\ Upstream.reconnectTimer (fst r) = None /\
  Upstream.reconnectAttempts (fst r) = Upstream.reconnectAttempts u0 + d.

(** A link method that keeps the link sound ([holds_socket]) whenever its
    owner does. *)
Inductive keeps_socket : Upstream.Proc -> Prop :=
| keeps_socket_ret u : holds_socket u -> keeps_socket (Upstream.Ret u)
| keeps_socket_eff e p : keeps_socket p -> keeps_socket (Upstream.Eff e p)
| keeps_socket_invoke cb u k :
    holds_socket u ->
    (forall u', holds_socket u' -> keeps_socket (k u')) ->
    keeps_socket (Upstream.Invoke cb u k).

(** A session as the proxy makes them from the configuration [cfg]: its
    links bear the configured names, and each connected link holds its
    socket. *)
Definition session_ok (cfg : list (string * string)) (s : Session) : Prop :=
  names s = cfg.*1 /\ Forall holds_socket (upstreams s).

(** What the runtime can deliver: an [open] event comes from the socket the
    link holds. *)
Definition plausible (ev : SessionEvent) (s : Session) : Prop :=
  match ev with
  | upstream_open k => forall u, upstreams s !! k = Some u -> Upstream.ws u = true
  | _ => True
  end.

Section Plausible.

Variable WebSocket_throws : string -> option string -> bool.

Fixpoint plausible_run (evs : list Event) (this : OcppProxy) : Prop :=
  match evs with
  | [] => True
  | ev :: evs' =>
      match ev with
      | of_session ws e =>
          forall s, s ∈ sessions this -> clientWs s = ws -> plausible e s
      | _ => True
      end /\
      plausible_run evs' (fst (step WebSocket_throws ev this))
  end.

End Plausible.

(** ** What holds of every link, whatever happens to it *)

Section Respects.

(** [P] is what is known of a link and [Q] what is asked of the effects of
    its methods: the method runs on a link with [P], hands its owner a link
    with [P] at each callback, gets one back with [P], and leaves one. *)
Variable P : Upstream.UpstreamConnection -> Prop.
Variable Q : Upstream.LinkEffect -> Prop.

Inductive respects : Upstream.Proc -> Prop :=
| respects_ret u : P u -> respects (Upstream.Ret u)
| respects_eff e p : Q e -> respects p -> respects (Upstream.Eff e p)
| respects_invoke cb u k :
    P u -> (forall u', P u' -> respects (k u')) ->
    respects (Upstream.Invoke cb u k).

Definition effect_ok (e : Effect) : Prop :=
  match e with
  | Up _ e' => Q e'
  | _ => True
  end.

Definition output_ok (o : Output) : Prop :=
  match o with
  | At _ e => effect_ok e
  | ServerClose => True
  end.

Definition links_ok (s : Session) : Prop := Forall P (upstreams s).

End Respects.

Section LinkMethod.

Variable WebSocket_throws : string -> option string -> bool.

(** The link and the method an event of the session runs, if it is an event
    of a link. *)
Definition link_method (ev : SessionEvent)
  : option (nat * (Upstream.UpstreamConnection -> Upstream.Proc)) :=
  match ev with
  | upstream_open k => Some (k, Upstream.on_open)
  | upstream_message k data => Some (k, Upstream.on_message data)
  | upstream_error k => Some (k, Upstream.on_error)
  | upstream_close k => Some (k, Upstream.on_close)
  | reconnect_timer k => Some (k, Upstream.on_timer WebSocket_throws)
  | _ => None
  end.

End LinkMethod.

(** A link as [handleClientConnection] makes them from the configuration
    [cfg]: an upstream of the configuration, for a client id the path check
    accepts, with a subprotocol. *)
Definition configured (cfg : list (string * string)) (u : Upstream.UpstreamConnection)
  : Prop :=
  (Upstream.name u, Upstream.baseUrl u) ∈ cfg /\
  path_match (Upstream.clientId u) = Some (Upstream.clientId u) /\
  truthy (Upstream.protocol u) = true.

(** A socket opened for such a link: its URL is the upstream's followed by
    the client id, it asks for a subprotocol, and its only headers are the
    two that carry the client address. *)
Definition socket_ok (cfg : list (string * string)) (e : Upstream.LinkEffect) : Prop :=
  match e with
  | Upstream.WsNew url protocol headers =>
      (exists name base id,
         (name, base) ∈ cfg /\ path_match id = Some id /\ url = base +:+ id) /\
      (exists p, protocol = Some p /\ truthy p = true) /\
      (headers = [] \/
       exists ip, headers = [("X-Forwarded-For", ip); ("X-Real-IP", ip)])
  | _ => True
  end.

(** A link within its reconnection attempts, of which it has ten. *)
Definition within_attempts (u : Upstream.UpstreamConnection) : Prop :=
  Upstream.reconnectAttempts u <= 10 /\ Upstream.maxReconnectAttempts u = 10.

(** A reconnection delay between five seconds and one minute. *)
Definition delay_ok (e : Upstream.LinkEffect) : Prop :=
  match e with
  | Upstream.SetTimeout delay => (5000 <= delay <= 60000)%Z
  | _ => True
  end.

(** A link after [close()]: closed for good, with no socket and no timer. *)
Definition shut (u : Upstream.UpstreamConnection) : Prop :=
  Upstream.closed u = true /\ Upstream.ws u = false /\
  Upstream.isConnected u = false /\ Upstream.reconnectTimer u = None.

(** A link effect that is a logger call and nothing else. *)
Definition only_logs (e : Upstream.LinkEffect) : Prop :=
  match e with
  | Upstream.LLog _ => True
  | _ => False
  end.

(** What the runtime can deliver to a session: an [open] event comes from
    the socket the link holds, and a timer fires only while it is set. *)
Definition deliverable (ev : SessionEvent) (s : Session) : Prop :=
  match ev with
  | upstream_open k => forall u, upstreams s !! k = Some u -> Upstream.ws u = true
  | reconnect_timer k =>
      forall u, upstreams s !! k = Some u -> is_Some (Upstream.reconnectTimer u)
  | _ => True
  end.

Section Deliverable.

Variable WebSocket_throws : string -> option string -> bool.

Fixpoint deliverable_run (nf : Notifier) (evs : list SessionEvent) (s : Session) : Prop :=
  match evs with
  | [] => True
  | ev :: evs' =>
      deliverable ev s /\ deliverable_run nf evs' (fst (handle WebSocket_throws nf ev s))
  end.

End Deliverable.

(** What handling the client frame [msg] in the session [s] may do: log,
    tell the notifier of the call, write [msg] itself to a link that is
    connected and holds its socket, or fail on the missing registry entry;
    nothing goes to the client socket. *)
Definition client_frame_effect (msg : string) (s : Session) (e : Effect) : Prop :=
  match e with
  | Log _ | ThrowTypeError => True
  | Notify h => h = callFromClient (clientId s) msg
  | Up k (Upstream.WsSend data) =>
      data = msg /\
      exists u, upstreams s !! k = Some u /\
                Upstream.isConnected u = true /\ Upstream.ws u = true
  | Up k (Upstream.LLog l) => l = CannotSendNotConnected
  | _ => False
  end.

(** What handling the upstream frame [data] may do: log, write [data]
    itself to the client socket, or fail on a value a log line cannot
    render. *)
Definition upstream_frame_effect (data : string) (e : Effect) : Prop :=
  match e with
  | Log _ | ThrowTypeError => True
  | ClientSend d => d = data
  | _ => False
  end.

(** [n] slashes. *)
Fixpoint slashes (n : nat) : string :=
  match n with
  | O => EmptyString
  | S n' => String "/" (slashes n')
  end.

(** A request path of a single level: slashes, then a non-empty client id
    of letters, digits, underscores and hyphens. *)
Definition single_level (rawPath id : string) : Prop :=
  (exists n, rawPath = slashes n +:+ id) /\ id <> EmptyString /\
  forallb is_id_char (list_ascii_of_string id) = true.

(** The sockets opened towards upstreams, in order: the client socket of the
    session, the position of the link, the URL, the subprotocol and the
    headers. *)
Definition sockets_opened (out : list Output)
  : list (nat * nat * string * option string * list (string * string)) :=
  omap (fun o => match o with
                 | At ws (Up k (Upstream.WsNew url protocol headers)) =>
                     Some (ws, k, url, protocol, headers)
                 | _ => None
                 end) out.

(** A link effect that opens no socket. *)
Definition opens_nothing (e : Upstream.LinkEffect) : Prop :=
  match e with
  | Upstream.WsNew _ _ _ => False
  | _ => True
  end.

(** The headers [connect] passes for a client address. *)
Definition address_headers (clientIp : option string) : list (string * string) :=
  match clientIp with
  | Some ip => if truthy ip then [("X-Forwarded-For", ip); ("X-Real-IP", ip)] else []
  | None => []
  end.

(** The client address [handleClientConnection] works out: the first field
    of X-Forwarded-For without the white space around it, or else the
    address of the peer. *)
Definition client_address (request : Request) : option string :=
  or_else
    (Some (trim (first_field
       (default EmptyString (or_else (headers request !! "x-forwarded-for") None)))))
    (remoteAddress request).

(** What a method that makes no callback does on its link [k]. *)
Definition link_trace (k : nat) (t : list Upstream.LinkObs) : list Effect :=
  omap (fun o => match o with
                 | Upstream.Did e => Some (Up k e)
                 | Upstream.Called _ _ => None
                 end) t.

(** What [cleanupClientConnection] makes of a session: a registered one is
    left with every link closed for good and an empty router, its client
    socket being what it was; one that is not registered is left alone. *)
Definition cleaned_up (s s' : Session) : Prop :=
  if registered s
  then registered s' = false /\ links_ok shut s' /\ router s' = Router.new /\
       readyState s' = readyState s /\ clientWs s' = clientWs s /\
       clientId s' = clientId s
  else s' = s.

(** ** proxy.js: the subprotocol offered to a client *)

(** [handleProtocols(protocols, request)] of the server: [protocols] are the
    subprotocols the client offers, in order; [None] is [false]. *)
Definition handleProtocols (protocols : list string) : option string :=
  let ocppProtocols := List.filter (String.prefix "ocpp") protocols in
  match ocppProtocols with
  | p :: _ => Some p
  | [] => if (length protocols =? 0)%nat then Some "ocpp1.6" else None
  end.

(** ** notify.js: [replaceVars] *)

Module Notify.

(** [s] without the prefix [sep], if it has it. *)
Fixpoint strip_prefix (sep s : string) : option string :=
  match sep, s with
  | EmptyString, _ => Some s
  | String a sep', String b s' => if Ascii.eqb a b then strip_prefix sep' s' else None
  | String _ _, EmptyString => None
  end.

(** The pieces of [s] between the occurrences of a non-empty [sep], found
    from the left; [cur] is the piece being read and [fuel] bounds the
    length of [s]. *)
Fixpoint split_go (fuel : nat) (sep cur s : string) : list string :=
  match s with
  | EmptyString => [cur]
  | String c s' =>
      match fuel with
      | O => [cur +:+ s]
      | S fuel' =>
          match strip_prefix sep s with
          | Some rest => cur :: split_go fuel' sep EmptyString rest
          | None => split_go fuel' sep (cur +:+ String c EmptyString) s'
          end
      end
  end.

(** [s.split(sep)]: with an empty separator, the code units of [s]. *)
Definition split (s sep : string) : list string :=
  match sep with
  | EmptyString => (fun c => String c EmptyString) <$> list_ascii_of_string s
  | _ => split_go (String.length s) sep EmptyString s
  end.

(** [pieces.join(sep)]. *)
Definition join (pieces : list string) (sep : string) : string :=
  String.concat sep pieces.

(** [replaceVars(str, replaceto)]; [replaceto] is given by its entries, in
    the order of [Object.entries], the values being strings. *)
Definition replaceVars (str : string) (replaceto : list (string * string)) : string :=
  fold_left (fun str entry => join (split str (fst entry)) (snd entry)) replaceto str.

End Notify.

(** [old] occurs in [s]. *)
Definition occurs (old s : string) : Prop := exists a b, s = a +:+ old +:+ b.

(** Whether [old] occurs in [s]. *)
Fixpoint occursb (old s : string) : bool :=
  match Notify.strip_prefix old s with
  | Some _ => true
  | None =>
      match s with
      | String _ s' => occursb old s'
      | EmptyString => false
      end
  end.

(** ** notify.js: the hooks *)

Module Alerts.

(** What a hook does: it returns; it throws in [JSON.parse] or at the read
    of an element of a null payload ([Throws]); or it throws a TypeError
    while converting a value of the frame to a number or to a string
    ([ThrowsConverting]). *)
Inductive Outcome (A : Type) : Type :=
| Returns (a : A)
| Throws
| ThrowsConverting.

Arguments Returns {A} a.
Arguments Throws {A}.
Arguments ThrowsConverting {A}.

(** The value of the own property [k] of a parsed object: the last member of
    that name. *)
Definition member (ms : list (list N * JsonValue)) (k : list N) : option JsonValue :=
  snd <$> last (filter (fun kv => fst kv = k) ms).

(** [payload[n]], [key] being the decimal writing of [n]: [None] where the
    runtime throws a TypeError, [Some None] for [undefined]. *)
Definition at_index (payload : JsonValue) (n : nat) (key : string)
  : option (option JsonValue) :=
  match payload with
  | JNull => None
  | JBool _ | JNumber _ _ => Some None
  | JString s => Some ((fun c => JString [c]) <$> s !! n)
  | JArray items => Some (items !! n)
  | JObject ms => Some (member ms (units key))
  end.

(** [v.name] for a truthy [v] and a name that no prototype defines. *)
Definition prop (v : JsonValue) (name : string) : option JsonValue :=
  match v with
  | JObject ms => member ms (units name)
  | _ => None
  end.

(** Whether the binary64 nearest to [m * 10^e] is zero. *)
Definition rounds_to_zero (m e : Z) : bool :=
  (m =? 0)%Z || ((e <? 0)%Z && (Z.abs m * 2 ^ 1075 <=? 10 ^ (- e))%Z).

Definition truthy_value (v : option JsonValue) : bool :=
  match v with
  | None | Some JNull => false
  | Some (JBool b) => b
  | Some (JNumber m e) => negb (rounds_to_zero m e)
  | Some (JString s) => negb (bool_decide (s = []))
  | Some (JArray _) | Some (JObject _) => true
  end.

(** [v === s] for a string literal [s]. *)
Definition is_string (v : option JsonValue) (s : string) : bool :=
  match v with
  | Some (JString u) => bool_decide (u = units s)
  | _ => false
  end.

(** [v === 0]. *)
Definition is_zero (v : option JsonValue) : bool :=
  match v with
  | Some (JNumber m e) => rounds_to_zero m e
  | _ => false
  end.

(** White space and line terminators, which the conversion of a string to
    a number strips at both ends. *)
Definition is_space (c : N) : bool :=
  (((9 <=? c) && (c <=? 13)) || (c =? 32) || (c =? 160) || (c =? 5760)
   || ((8192 <=? c) && (c <=? 8202)) || (c =? 8232) || (c =? 8233)
   || (c =? 8239) || (c =? 8287) || (c =? 12288) || (c =? 65279))%N.

Fixpoint drop_spaces (cs : list N) : list N :=
  match cs with
  | c :: r => if is_space c then drop_spaces r else cs
  | [] => []
  end.

(** A decimal literal of a string ([12], [1.5], [.5], [5.], each with an
    optional exponent) whose value is above zero as a binary64. *)
Definition decimal_positive (cs : list N) : bool :=
  let '(int, r1) := digits cs in
  let '(frac, r2) := match r1 with 46%N :: r => digits r | _ => ([], r1) end in
  if (length int + length frac =? 0)%nat then false
  else match parse_exp r2 with
       | Some (e, []) =>
           let m := Z_of_digits (int ++ frac) in
           (0 <? m)%Z && negb (rounds_to_zero m (e - Z.of_nat (length frac)))
       | _ => false
       end.

(** The digits of a literal in base 16, 8 or 2, not all of them zero. *)
Definition radix_positive (base : N) (cs : list N) : bool :=
  match cs with
  | [] => false
  | _ =>
      forallb (fun c => match hex c with Some d => (d <? base)%N | None => false end) cs
      && existsb (fun c => negb (c =? 48)%N) cs
  end.

(** [s > 0] for a string: the string is converted to a number, which is NaN
    (and the comparison false) when it is no numeric literal. *)
Definition string_positive (s : list N) : bool :=
  let unsigned (cs : list N) :=
    bool_decide (cs = units "Infinity") || decimal_positive cs in
  match rev (drop_spaces (rev (drop_spaces s))) with
  | 43%N :: r => unsigned r
  | 45%N :: _ => false
  | 48%N :: 120%N :: r | 48%N :: 88%N :: r => radix_positive 16 r
  | 48%N :: 111%N :: r | 48%N :: 79%N :: r => radix_positive 8 r
  | 48%N :: 98%N :: r | 48%N :: 66%N :: r => radix_positive 2 r
  | cs => unsigned cs
  end.

(** [v > 0]: [None] where the conversion of [v] to a number throws.  An
    object is converted through its string, which is no number; an array
    through the string [join] makes of it, which holds a comma as soon as
    there are two elements, is empty for no element and for [[null]], and is
    otherwise what its one element converts to. *)
Fixpoint positive (v : JsonValue) : option bool :=
  match v with
  | JNumber m e => Some ((0 <? m)%Z && negb (rounds_to_zero m e))
  | JBool b => Some b
  | JNull => Some false
  | JString s => Some (string_positive s)
  | JObject _ => if renders v then Some false else None
  | JArray items =>
      if renders v then
        match items with
        | [x] =>
            match x with
            | JNull | JBool _ | JObject _ => Some false
            | _ => positive x
            end
        | _ => Some false
        end
      else None
  end.

(** [v || 'unknown']. *)
Definition or_unknown (v : option JsonValue) : JsonValue :=
  match v with
  | Some x => if truthy_value v then x else JString (units "unknown")
  | None => JString (units "unknown")
  end.

(** Whether a value put into a text is rendered: the template literal
    throws otherwise. *)
Definition rendered (v : JsonValue) : bool := renders v.

(** The client in a notification: the name the mapping has for its id, or
    its id. *)
Inductive Name : Type :=
| Mapped (name : string)
| Raw (clientId : string).

(** One constructor per kind of call of [this.send], carrying the values the
    title and the message interpolate; [status] is the label of the [case]. *)
Inductive Notice : Type :=
| ClientConnected (clientName : Name)
| ClientDisconnected (clientName : Name)
| UpstreamConnected (clientName : Name) (serverName : string)
| UpstreamDisconnected (clientName : Name) (serverName : string)
| ChargePointStatus (status : string) (clientName : Name) (errorCode : option JsonValue)
| ConnectorStatus (status : string) (clientName : Name) (connectorId : JsonValue)
    (errorCode : option JsonValue)
| TransactionStarted (clientName : Name) (connectorId : JsonValue)
| TransactionStopped (clientName : Name) (connectorId : JsonValue).

Inductive Act : Type :=
| Send (notice : Notice)
| LogUnhandledStatus (status : JsonValue).

(** The statuses the two [switch]es have a [case] for. *)
Definition chargePointStatuses : list string := ["Available"; "Unavailable"; "Faulted"].

Definition connectorStatuses : list string :=
  ["Available"; "Preparing"; "Charging"; "SuspendedEVSE"; "SuspendedEV";
   "Finishing"; "Reserved"; "Unavailable"; "Faulted"].

Definition notices (acts : list Act) : list Notice :=
  omap (fun a => match a with Send n => Some n | _ => None end) acts.

(** The key of the configuration that enables a notice. *)
Definition flag_of (n : Notice) : string :=
  match n with
  | ClientConnected _ => "connectedToProxy"
  | ClientDisconnected _ => "disconnectedFromProxy"
  | UpstreamConnected _ _ => "connectedToUpstream"
  | UpstreamDisconnected _ _ => "disconnectedFromUpstream"
  | ChargePointStatus status _ _ => "cpStatus" +:+ status
  | ConnectorStatus status _ _ _ => "conStatus" +:+ status
  | TransactionStarted _ _ => "conStartTransaction"
  | TransactionStopped _ _ => "conStopTransaction"
  end.

(** A notice that [callFromClient] can send: a status of the charge point or
    of a connector that the [switch] has a case for, or a transaction. *)
Definition call_notice (n : Notice) : Prop :=
  match n with
  | ChargePointStatus status _ _ => status ∈ chargePointStatuses
  | ConnectorStatus status _ _ _ => status ∈ connectorStatuses
  | TransactionStarted _ _ | TransactionStopped _ _ => True
  | _ => False
  end.

Section Hooks.

(** [flag key] is whether [this.config[key]] is truthy; [clientNames id] is
    what [this.clientNames[id]] renders as when it is truthy, [this.clientNames]
    being the object of the constructor or a mapping file that did not parse
    to null. *)
Variable flag : string -> bool.
Variable clientNames : string -> option string.

Definition clientName (clientId : string) : Name :=
  match clientNames clientId with
  | Some name => Mapped name
  | None => Raw clientId
  end.

Definition connectedToProxy (clientId : string) : list Act :=
  if flag "connectedToProxy" then [Send (ClientConnected (clientName clientId))] else [].

Definition disconnectedFromProxy (clientId : string) : list Act :=
  if flag "disconnectedFromProxy"
  then [Send (ClientDisconnected (clientName clientId))] else [].

Definition connectedToUpstream (clientId serverName : string) : list Act :=
  if flag "connectedToUpstream"
  then [Send (UpstreamConnected (clientName clientId) serverName)] else [].

Definition disconnectedFromUpstream (clientId serverName : string) : list Act :=
  if flag "disconnectedFromUpstream"
  then [Send (UpstreamDisconnected (clientName clientId) serverName)] else [].

(** A [switch (status)] over [cases], every case sending [notice] of its
    label when its flag (the [prefix] followed by the label) is set; the
    case Faulted adds [params.errorCode || 'unknown']. *)
Definition status_switch (cases : list string) (prefix : string)
    (notice : string -> option JsonValue -> Notice) (params : JsonValue)
  : Outcome (list Act) :=
  let status := or_unknown (prop params "status") in
  match List.find (is_string (Some status)) cases with
  | Some label =>
      if flag (prefix +:+ label) then
        if String.eqb label "Faulted" then
          let errorCode := or_unknown (prop params "errorCode") in
          if rendered errorCode then Returns [Send (notice label (Some errorCode))]
          else ThrowsConverting
        else Returns [Send (notice label None)]
      else Returns []
  | None =>
      if rendered status then Returns [LogUnhandledStatus status] else ThrowsConverting
  end.

(** The condition [params && params.connectorId !== undefined &&
    params.connectorId > 0]. *)
Definition on_connector (params : option JsonValue) : Outcome bool :=
  if truthy_value params then
    match params with
    | Some p =>
        match prop p "connectorId" with
        | Some connectorId =>
            match positive connectorId with
            | Some b => Returns b
            | None => ThrowsConverting
            end
        | None => Returns false
        end
    | None => Returns false
    end
  else Returns false.

Definition bind {A B : Type} (x : Outcome A) (f : A -> Outcome B) : Outcome B :=
  match x with
  | Returns a => f a
  | Throws => Throws
  | ThrowsConverting => ThrowsConverting
  end.

Definition callFromClient (clientId data : string) : Outcome (list Act) :=
  match JSON_parse data with
  | None => Throws
  | Some payload =>
      match at_index payload 2 "2", at_index payload 3 "3" with
      | Some action, Some params =>
          let p := default JNull params in
          let name := clientName clientId in
          (* StatusNotification for the charge point *)
          bind (if is_string action "StatusNotification" && truthy_value params
                   && is_zero (prop p "connectorId")
                then status_switch chargePointStatuses "cpStatus"
                       (fun status => ChargePointStatus status name) p
                else Returns [])
          (fun acts1 =>
          (* StatusNotification for a connector *)
          bind (if is_string action "StatusNotification"
                then bind (on_connector params) (fun b =>
                       if b then status_switch connectorStatuses "conStatus"
                                   (fun status =>
                                      ConnectorStatus status name
                                        (default JNull (prop p "connectorId"))) p
                       else Returns [])
                else Returns [])
          (fun acts2 =>
          (* StartTransaction *)
          bind (if is_string action "StartTransaction"
                then bind (on_connector params) (fun b =>
                       Returns (if b && flag "conStartTransaction"
                                then [Send (TransactionStarted name
                                              (default JNull (prop p "connectorId")))]
                                else []))
                else Returns [])
          (fun acts3 =>
          (* StopTransaction *)
          bind (if is_string action "StopTransaction"
                then bind (on_connector params) (fun b =>
                       Returns (if b && flag "conStopTransaction"
                                then [Send (TransactionStopped name
                                              (default JNull (prop p "connectorId")))]
                                else []))
                else Returns [])
          (fun acts4 => Returns (acts1 ++ acts2 ++ acts3 ++ acts4)))))
      | _, _ => Throws
      end
  end.

(** Whether [callFromClient(clientId, data)] throws. *)
Definition throws (clientId data : string) : bool :=
  match callFromClient clientId data with
  | Returns _ => false
  | _ => true
  end.

(** The hook the proxy calls. *)
Definition dispatch (h : Hook) : Outcome (list Act) :=
  match h with
  | Proxy.connectedToProxy clientId => Returns (connectedToProxy clientId)
  | Proxy.disconnectedFromProxy clientId => Returns (disconnectedFromProxy clientId)
  | Proxy.connectedToUpstream clientId serverName =>
      Returns (connectedToUpstream clientId serverName)
  | Proxy.disconnectedFromUpstream clientId serverName =>
      Returns (disconnectedFromUpstream clientId serverName)
  | Proxy.callFromClient clientId data => callFromClient clientId data
  end.

End Hooks.

End Alerts.

(** ** What the notifier is handed *)

(** A frame that parses as an array of at least two elements, the first being
    the number 2. *)
Definition call_frame (data : string) : Prop :=
  exists t messageId rest,
    JSON_parse data = Some (JArray (t :: messageId :: rest)) /\
    strict_eq_num t 2 = true.

Definition hook_ok (e : Effect) : Prop :=
  match e with
  | Notify (callFromClient _ data) => call_frame data
  | _ => True
  end.

Definition hooks_ok (o : Output) : Prop :=
  match o with
  | At _ e => hook_ok e
  | ServerClose => True
  end.

(** The hooks of the notifier called, in order. *)
Definition hook_calls (e : list Effect) : list Hook :=
  omap (fun e => match e with Notify h => Some h | _ => None end) e.

Definition is_call (h : Hook) : Prop :=
  match h with
  | callFromClient _ _ => True
  | _ => False
  end.

(** A link method whose only callback is [on_gave_up]. *)
Inductive unannounced : Upstream.Proc -> Prop :=
| unannounced_ret u : unannounced (Upstream.Ret u)
| unannounced_eff e p : unannounced p -> unannounced (Upstream.Eff e p)
| unannounced_gave_up u k :
    (forall u', unannounced (k u')) ->
    unannounced (Upstream.Invoke Upstream.OnGaveUp u k).

(** The hooks called, each with the client socket whose session called it. *)
Definition hooks_at (o : list Output) : list (nat * Hook) :=
  omap (fun o => match o with At ws (Notify h) => Some (ws, h) | _ => None end) o.

(** ** A station, its two upstreams and a few frames *)

(** A WebSocket library that accepts every URL and subprotocol. *)
Definition accepts : string -> option string -> bool := fun _ _ => false.

Definition station_request : Request :=
  {| url := Some "/STATION01";
     headers := <["authorization" := "Basic abc"]> (<["user-agent" := "cp/1.0"]> ∅);
     remoteAddress := Some "10.0.0.7" |}.

(** A notifier with every alert enabled, and a name for the station. *)
Definition every_alert : string -> bool := fun _ => true.

Definition station_names (id : string) : option string :=
  if String.eqb id "STATION01" then Some "North Parking" else None.

Definition station_notifier : Notifier :=
  Some (Alerts.throws every_alert station_names).

Definition station_proxy : OcppProxy :=
  start "ws://pri/" (Some "ws://sec/") station_notifier.

Definition pri_link : Upstream.UpstreamConnection :=
  {| Upstream.name := "PRI"; Upstream.baseUrl := "ws://pri/";
     Upstream.clientId := "STATION01"; Upstream.protocol := "ocpp1.6";
     Upstream.clientIp := Some "10.0.0.7"; Upstream.ws := true;
     Upstream.isConnected := true; Upstream.wasEverConnected := true;
     Upstream.closed := false; Upstream.reconnectAttempts := 0;
     Upstream.maxReconnectAttempts := 10; Upstream.reconnectTimer := None |}.

Definition sec_link : Upstream.UpstreamConnection :=
  {| Upstream.name := "SEC"; Upstream.baseUrl := "ws://sec/";
     Upstream.clientId := "STATION01"; Upstream.protocol := "ocpp1.6";
     Upstream.clientIp := Some "10.0.0.7"; Upstream.ws := true;
     Upstream.isConnected := true; Upstream.wasEverConnected := true;
     Upstream.closed := false; Upstream.reconnectAttempts := 0;
     Upstream.maxReconnectAttempts := 10; Upstream.reconnectTimer := None |}.

(** The session of the station once both upstreams are open. *)
Definition live : Session :=
  {| clientWs := 0; readyState := OPEN; registered := true;
     upstreams := [pri_link; sec_link]; router := Router.new;
     clientId := "STATION01"; protocol := "ocpp1.6"; messageBuffer := [];
     stamps := 0 |}.

(** The same session before any upstream has opened. *)
Definition waiting : Session :=
  set_upstreams
    [Upstream.set_wasEverConnected false (Upstream.set_isConnected false pri_link);
     Upstream.set_wasEverConnected false (Upstream.set_isConnected false sec_link)]
    live.

(** The same session when the second of its upstreams has just closed. *)
Definition lost : Session :=
  set_upstreams
    [Upstream.set_isConnected false pri_link;
     Upstream.set_isConnected false sec_link]
    live.

Definition heartbeat_call : string :=
  "[2," +:+ dq "m1" +:+ "," +:+ dq "Heartbeat" +:+ ",{}]".

Definition heartbeat_result : string := "[3," +:+ dq "m1" +:+ ",{}]".

Definition remote_start_call : string :=
  "[2," +:+ dq "s9" +:+ "," +:+ dq "RemoteStartTransaction" +:+ ",{}]".

Definition remote_start_reply : string := "[3," +:+ dq "s9" +:+ ",{}]".

Definition message_of (data : string) (t : Z) (id : string) (rest : list JsonValue)
  : Message :=
  {| raw := data; type := JNumber t 0; messageId := KStr (units id);
     parsed := JNumber t 0 :: JString (units id) :: rest |}.

(** The station's session after its Heartbeat was routed. *)
Definition called : Session := fst (handleClientMessage station_notifier heartbeat_call live).

(** The waiting session after a Heartbeat arrived, and the same once its
    secondary has opened. *)
Definition buffered : Session := fst (onClientMessage station_notifier heartbeat_call waiting).

Definition secondary_open : Session :=
  set_upstreams (<[1 := sec_link]> (upstreams buffered)) buffered.

(** The proxy after the station connected. *)
Definition station_connected : OcppProxy :=
  fst (run accepts [connection station_request "ocpp1.6"] station_proxy).

(** The sockets a run opened, each with the headers passed to it. *)
Definition opened_sockets (out : list Output) : list (string * list (string * string)) :=
  omap (fun o => match o with
                 | At _ (Up _ (Upstream.WsNew url _ headers)) => Some (url, headers)
                 | _ => None
                 end) out.

(** The session of the station once the primary's CALL of id s9 was
    relayed. *)
Definition asked : Session :=
  fst (on_link station_notifier 1 (Upstream.on_message remote_start_call) live).

(** A frame of a type the protocol does not know. *)
Definition odd_frame : string := "[5,7]".

(** A request whose path has two levels. *)
Definition nested_request : Request :=
  {| url := Some "/a/b"; headers := ∅; remoteAddress := Some "10.0.0.7" |}.

(** A request that came through a reverse proxy. *)
Definition relayed_request : Request :=
  {| url := Some "/STATION01";
     headers := <["x-forwarded-for" := " 203.0.113.9 , 10.0.0.1"]> ∅;
     remoteAddress := Some "10.0.0.1" |}.

(** The station's session after a cleanup; its client socket is still open. *)
Definition abandoned : Session := fst (cleanupClientConnection live).

(** A StatusNotification of connector 1 and a StopTransaction as OCPP 1.6
    frames them. *)
Definition charging_notification : string :=
  "[2," +:+ dq "m2" +:+ "," +:+ dq "StatusNotification" +:+ ",{"
  +:+ dq "connectorId" +:+ ":1," +:+ dq "errorCode" +:+ ":" +:+ dq "NoError" +:+ ","
  +:+ dq "status" +:+ ":" +:+ dq "Charging" +:+ "}]".

Definition stop_transaction : string :=
  "[2," +:+ dq "m3" +:+ "," +:+ dq "StopTransaction" +:+ ",{"
  +:+ dq "meterStop" +:+ ":20," +:+ dq "transactionId" +:+ ":5}]".

(** The station connects, its primary opens, and it reports its connector. *)
Definition charging_report : list Event :=
  [connection station_request "ocpp1.6"; of_session 0 (upstream_open 0);
   of_session 0 (client_message charging_notification)].

(** A Heartbeat whose id is an object with a member [toString] that is no
    function, and a StartTransaction whose connector id is such an object:
    neither object has a conversion to a string or to a number. *)
Definition unrenderable_call : string :=
  "[2,{" +:+ dq "toString" +:+ ":null}," +:+ dq "Heartbeat" +:+ ",{}]".


(** A Heartbeat whose type is written with more digits than a binary64
    holds, and a call and a reply whose ids are two literals of one
    binary64. *)
Definition rounded_call : string :=
  "[2.0000000000000000001," +:+ dq "m1" +:+ "," +:+ dq "Heartbeat" +:+ ",{}]".

Definition wide_call : string :=
  "[2,9007199254740993," +:+ dq "Heartbeat" +:+ ",{}]".

Definition wide_reply : string := "[3,9007199254740992,{}]".

(** The station sends both Heartbeats while no upstream is open, and then
    its secondary opens. *)
Definition jam : list Event :=
  [connection station_request "ocpp1.6";
   of_session 0 (client_message unrenderable_call);
   of_session 0 (client_message heartbeat_call);
   of_session 0 (upstream_open 1)].

Definition jammed : Session :=
  fst (on_link station_notifier 1 Upstream.on_open
         (fst (onClientMessage station_notifier heartbeat_call
                 (fst (onClientMessage station_notifier unrenderable_call waiting))))).

(** * Properties *)

(** ** The parser *)

Lemma parseMessage_Some stamp data m :
  fst (parseMessage stamp data) = Some m <->
  exists t i rest,
    JSON_parse data = Some (JArray (t :: i :: rest)) /\
    m = {| raw := data; type := t; messageId := key_of stamp i;
           parsed := t :: i :: rest |}.
Proof.
  unfold parseMessage. split.
  - destruct (JSON_parse data) as [[| | | |[|t [|i rest]]|]|]; cbn; try discriminate.
    intros [= <-]. by exists t, i, rest.
  - intros (t & i & rest & -> & ->). reflexivity.
Qed.

Lemma parseMessage_None stamp data :
  fst (parseMessage stamp data) = None <->
  forall items, JSON_parse data = Some (JArray items) -> length items < 2.
Proof.
  unfold parseMessage. split.
  - destruct (JSON_parse data) as [[| | | |[|t [|i rest]]|]|]; cbn;
      try discriminate; intros _ items [= <-]; cbn; lia.
  - destruct (JSON_parse data) as [[| | | |[|t [|i rest]]|]|]; cbn; try reflexivity.
    intros H. specialize (H _ eq_refl). cbn in H. lia.
Qed.

(** C2, as the code has it: [parseMessage] produces a message exactly when
    the frame decodes as a JSON array of length at least 2, whatever the
    types of its elements; the message's type and id are then the array's
    first two elements.  For every other frame (not JSON, not an array, a
    shorter array) it returns no message. *)
Theorem parseMessage_shape (stamp : nat) (data : string) :
  (forall m,
     fst (parseMessage stamp data) = Some m <->
     exists t i rest,
       JSON_parse data = Some (JArray (t :: i :: rest)) /\
       m = {| raw := data; type := t; messageId := key_of stamp i;
              parsed := t :: i :: rest |}) /\
  (fst (parseMessage stamp data) = None <->
   forall items, JSON_parse data = Some (JArray items) -> length items < 2).
Proof.
  split; [intros m; apply parseMessage_Some | apply parseMessage_None].
Qed.

(** C2 as stated fails: the frame [[5,7]] has a first element outside
    2, 3, 4 and a second element that is no string, and it is parsed into a
    message of type 5 with id 7. *)
Lemma parseMessage_unchecked_head :
  JSON_parse "[5,7]" = Some (JArray [JNumber 5 0; JNumber 7 0]) /\
  fst (parseMessage 0 "[5,7]") =
    Some {| raw := "[5,7]"; type := JNumber 5 0; messageId := KNum 7 0;
            parsed := [JNumber 5 0; JNumber 7 0] |}.
Proof. split; vm_compute; reflexivity. Qed.

(** ** Frames from an upstream *)

(** C10: a frame from an upstream that does not parse leaves the router as
    it is, meets no reply filter and is relayed as it came whenever the
    client socket is open. *)
Theorem unparseable_upstream_frame_relayed (data serverName : string) (s : Session) :
  fst (parseMessage (stamps s) data) = None ->
  handleUpstreamMessage data serverName s =
    (set_stamps (S (stamps s)) s,
     logs (snd (parseMessage (stamps s) data))
     ++ (if bool_decide (readyState s = OPEN) then [ClientSend data] else [])).
Proof.
  intros H. unfold handleUpstreamMessage.
  destruct (parseMessage (stamps s) data) as [message l0]. cbn in H. subst message.
  cbn. by destruct s.
Qed.

(** ** Sessions over time *)

#[local] Arguments parseMessage : simpl never.
#[local] Arguments routeClientMessage : simpl never.
#[local] Arguments handleServerMessage : simpl never.
#[local] Arguments shouldRelayResponseToClient : simpl never.
#[local] Arguments getServerForResponse : simpl never.

Lemma evolves_refl s : evolves s s.
Proof. by repeat split. Qed.

Lemma evolves_trans s1 s2 s3 : evolves s1 s2 -> evolves s2 s3 -> evolves s1 s3.
Proof.
  intros (Ha & Hb & Hc & Hd) (Ha' & Hb' & Hc' & Hd').
  repeat split; try congruence.
  - by apply Hd, Hd'.
  - intros x Hx. destruct (Hd' H) as [Hr Hs]. apply Hs. by apply (Hd Hr).
Qed.

Lemma routeClientMessage_calls r m :
  clientCallIds (snd (fst (routeClientMessage r m))) = clientCallIds r.
Proof.
  unfold routeClientMessage, getServerForResponse, template.
  repeat case_match; simplify_eq; cbn; reflexivity.
Qed.

Lemma handleServerMessage_calls r m n :
  clientCallIds (snd (fst (handleServerMessage r m n))) = clientCallIds r.
Proof.
  unfold handleServerMessage, registerServerCall, template.
  repeat case_match; simplify_eq; cbn; reflexivity.
Qed.

Lemma handleClientMessage_shape nf data s :
  exists r',
    fst (handleClientMessage nf data s) = set_router r' (set_stamps (S (stamps s)) s) /\
    clientCallIds (router s) ⊆ clientCallIds r'.
Proof.
  unfold handleClientMessage. destruct s as [cw rs reg us r cid proto buf st]. cbn.
  destruct (parseMessage st data) as [[m|] l0]; [|by exists r].
  pose proof (routeClientMessage_calls r (Some m)) as Hr.
  destruct (routeClientMessage r (Some m)) as [[routing r1] l1].
  cbn in Hr. unfold registerClientCall, template. cbn.
  repeat case_match; simplify_eq; eexists; (split; [reflexivity|]); cbn; rewrite ?Hr;
    first [reflexivity | apply union_subseteq_r].
Qed.

Lemma handleUpstreamMessage_shape data n s :
  exists r',
    fst (handleUpstreamMessage data n s) = set_router r' (set_stamps (S (stamps s)) s) /\
    clientCallIds r' = clientCallIds (router s).
Proof.
  unfold handleUpstreamMessage. destruct s as [cw rs reg us r cid proto buf st]. cbn.
  destruct (parseMessage st data) as [[m|] l0].
  - pose proof (handleServerMessage_calls r (Some m) n) as Hr.
    destruct (handleServerMessage r (Some m) n) as [[handled r1] l1]. cbn in Hr. cbn.
    repeat case_match; eexists; (split; [reflexivity|]); cbn; by rewrite ?Hr.
  - by exists r.
Qed.

Lemma set_router_evolves r' n s :
  clientCallIds (router s) ⊆ clientCallIds r' ->
  evolves s (set_router r' (set_stamps n s)).
Proof. intros H. by repeat split. Qed.

Lemma handleClientMessage_evolves nf data s :
  evolves s (fst (handleClientMessage nf data s)).
Proof.
  destruct (handleClientMessage_shape nf data s) as (r' & -> & H).
  by apply set_router_evolves.
Qed.

Lemma handleUpstreamMessage_evolves data n s :
  evolves s (fst (handleUpstreamMessage data n s)).
Proof.
  destruct (handleUpstreamMessage_shape data n s) as (r' & -> & H).
  apply set_router_evolves. by rewrite H.
Qed.

Lemma feed_evolves nf msgs s : evolves s (fst (feed nf msgs s)).
Proof.
  revert s. induction msgs as [|msg msgs IH]; intros s; cbn; [apply evolves_refl|].
  pose proof (handleClientMessage_evolves nf msg s) as H1.
  destruct (handleClientMessage nf msg s) as [s1 e1].
  destruct (threw e1); [done|].
  specialize (IH s1). destruct (feed nf msgs s1) as [s2 e2].
  by eapply evolves_trans.
Qed.

Lemma sendBufferToUpstream_evolves nf k s :
  evolves s (fst (sendBufferToUpstream nf k s)).
Proof.
  unfold sendBufferToUpstream.
  destruct (negb (registered s) || (length (messageBuffer s) =? 0)%nat);
    [apply evolves_refl|].
  destruct (upstreams s !! k) as [u|]; [|apply evolves_refl].
  destruct (k =? 0)%nat; [|apply evolves_refl].
  pose proof (feed_evolves nf (messageBuffer s) s) as Hf.
  by destruct (feed nf (messageBuffer s) s).
Qed.

Lemma flush_evolves s : evolves s (fst (flushMessageBufferIfAllConnected s)).
Proof.
  unfold flushMessageBufferIfAllConnected.
  repeat case_match; cbn; try apply evolves_refl. by repeat split.
Qed.

Lemma close_all_names k l : Upstream.name <$> fst (close_all k l) = Upstream.name <$> l.
Proof.
  revert k. induction l as [|u l IH]; intros k; cbn; [done|].
  specialize (IH (S k)).
  destruct (Upstream.close u) as [u' e] eqn:Hu.
  destruct (close_all (S k) l) as [l' e']. cbn in *. f_equal; [|done].
  unfold Upstream.close in Hu. repeat case_match; simplify_eq; reflexivity.
Qed.

Lemma cleanup_evolves s : evolves s (fst (cleanupClientConnection s)).
Proof.
  unfold cleanupClientConnection.
  destruct (registered s) eqn:Hr; cbn; [|apply evolves_refl].
  pose proof (close_all_names 0 (upstreams s)) as Hn.
  destruct (close_all 0 (upstreams s)) as [l' e']. cbn in *.
  by repeat split.
Qed.

Lemma cleanup_unregistered s : registered (fst (cleanupClientConnection s)) = false.
Proof.
  unfold cleanupClientConnection.
  destruct (registered s) eqn:Hr; cbn; [|done].
  by destruct (close_all 0 (upstreams s)).
Qed.

Lemma close_client_evolves c r s : evolves s (fst (close_client c r s)).
Proof. by repeat split. Qed.

Lemma checkUpstreamsStatus_evolves s : evolves s (fst (checkUpstreamsStatus s)).
Proof.
  unfold checkUpstreamsStatus.
  destruct (negb (registered s)); [apply evolves_refl|].
  destruct (existsb _ (upstreams s)); [apply evolves_refl|].
  destruct (forallb _ (upstreams s)); [|apply evolves_refl].
  pose proof (close_client_evolves 1001 "All upstream servers unavailable" s) as Hc.
  destruct (close_client 1001 "All upstream servers unavailable" s) as [s1 e1].
  pose proof (cleanup_evolves s1) as Hd.
  destruct (cleanupClientConnection s1) as [s2 e2].
  by eapply evolves_trans.
Qed.

Lemma callback_evolves nf k cb n s : evolves s (fst (callback nf k cb n s)).
Proof.
  destruct cb; cbn.
  - apply handleUpstreamMessage_evolves.
  - pose proof (sendBufferToUpstream_evolves nf k s) as H1.
    destruct (sendBufferToUpstream nf k s) as [s1 e1].
    destruct (threw e1); [done|].
    pose proof (flush_evolves s1) as H2.
    destruct (flushMessageBufferIfAllConnected s1) as [s2 e2].
    by eapply evolves_trans.
  - pose proof (checkUpstreamsStatus_evolves s) as H1.
    by destruct (checkUpstreamsStatus s) as [s1 e1].
  - pose proof (flush_evolves s) as H1.
    destruct (flushMessageBufferIfAllConnected s) as [s1 e1].
    pose proof (checkUpstreamsStatus_evolves s1) as H2.
    destruct (checkUpstreamsStatus s1) as [s2 e2].
    by eapply evolves_trans.
Qed.

Lemma names_insert k u s u0 :
  upstreams s !! k = Some u0 -> Upstream.name u = Upstream.name u0 ->
  names (set_upstreams (<[k := u]> (upstreams s)) s) = names s.
Proof.
  intros Hk Hn. unfold names. cbn. rewrite list_fmap_insert. rewrite Hn.
  apply list_insert_id. rewrite list_lookup_fmap. by rewrite Hk.
Qed.

Lemma insert_evolves k u s u0 :
  upstreams s !! k = Some u0 -> Upstream.name u = Upstream.name u0 ->
  evolves s (set_upstreams (<[k := u]> (upstreams s)) s).
Proof.
  intros Hk Hn. repeat split; try done. by eapply names_insert.
Qed.

Lemma names_lookup s s' k u :
  names s' = names s -> upstreams s !! k = Some u ->
  exists u', upstreams s' !! k = Some u' /\ Upstream.name u' = Upstream.name u.
Proof.
  unfold names. intros Hn Hk.
  assert ((Upstream.name <$> upstreams s') !! k = Some (Upstream.name u)) as H.
  { rewrite Hn. rewrite list_lookup_fmap. by rewrite Hk. }
  rewrite list_lookup_fmap in H.
  destruct (upstreams s' !! k) as [u'|]; [|done].
  exists u'. split; [done|]. by injection H.
Qed.

Lemma run_link_evolves nf k p s u0 :
  upstreams s !! k = Some u0 -> keeps_name (Upstream.name u0) p ->
  evolves s (fst (run_link nf k p s)).
Proof.
  intros Hk Hp. revert s u0 Hk Hp.
  induction p as [u|e p IH|cb u cont IH]; intros s u0 Hk Hp; inversion Hp; subst; cbn.
  - by eapply insert_evolves.
  - specialize (IH s u0 Hk H0). by destruct (run_link nf k p s).
  - pose proof (insert_evolves k u s u0 Hk H1) as H0.
    pose proof (callback_evolves nf k cb (Upstream.name u)
                  (set_upstreams (<[k:=u]> (upstreams s)) s)) as Hc.
    destruct (callback nf k cb (Upstream.name u) _) as [s1 e1]. cbn in Hc.
    pose proof (evolves_trans _ _ _ H0 Hc) as H01.
    destruct (threw e1); [done|].
    destruct (names_lookup s s1 k u0 (proj1 (proj2 (proj2 H01))) Hk) as (u' & Hu' & Hn').
    rewrite Hu'.
    specialize (IH u' s1 u' Hu').
    destruct (run_link nf k (cont u') s1) as [s2 e2]. cbn in *.
    eapply evolves_trans; [exact H01|]. apply IH.
    rewrite Hn'. by apply H3.
Qed.

Lemma scheduleReconnect_keeps u : keeps_name (Upstream.name u) (Upstream.scheduleReconnect u).
Proof.
  unfold Upstream.scheduleReconnect.
  repeat case_match; repeat (constructor; try done).
Qed.

Lemma connect_keeps wt u : keeps_name (Upstream.name u) (Upstream.connect wt u).
Proof.
  unfold Upstream.connect.
  repeat case_match; repeat (constructor; try done); apply scheduleReconnect_keeps.
Qed.

Lemma on_timer_keeps wt u : keeps_name (Upstream.name u) (Upstream.on_timer wt u).
Proof. apply (connect_keeps wt (Upstream.set_reconnectTimer None u)). Qed.

Lemma on_open_keeps u : keeps_name (Upstream.name u) (Upstream.on_open u).
Proof. repeat (constructor; try done). Qed.

Lemma on_message_keeps data u : keeps_name (Upstream.name u) (Upstream.on_message data u).
Proof. repeat (constructor; try done). Qed.

Lemma on_error_keeps u : keeps_name (Upstream.name u) (Upstream.on_error u).
Proof. repeat (constructor; try done). Qed.

Lemma on_close_keeps u : keeps_name (Upstream.name u) (Upstream.on_close u).
Proof.
  constructor. constructor; [done|]. intros u' Hu'. cbn in Hu'.
  destruct (Upstream.closed u'); [by constructor|].
  rewrite <- Hu'. apply scheduleReconnect_keeps.
Qed.

Lemma on_link_evolves nf k method s :
  (forall u, keeps_name (Upstream.name u) (method u)) ->
  evolves s (fst (on_link nf k method s)).
Proof.
  intros H. unfold on_link. destruct (upstreams s !! k) as [u|] eqn:Hk.
  - by eapply run_link_evolves.
  - apply evolves_refl.
Qed.

Lemma onClientMessage_evolves nf msg s : evolves s (fst (onClientMessage nf msg s)).
Proof.
  unfold onClientMessage. case_match; [by repeat split|].
  apply handleClientMessage_evolves.
Qed.

Lemma onClientClose_evolves nf s : evolves s (fst (onClientClose nf s)).
Proof.
  unfold onClientClose.
  pose proof (cleanup_evolves (set_readyState CLOSED s)) as H.
  destruct (cleanupClientConnection (set_readyState CLOSED s)) as [s1 e1].
  eapply evolves_trans; [|exact H]. by repeat split.
Qed.

Lemma handle_evolves wt nf ev s : evolves s (fst (handle wt nf ev s)).
Proof.
  destruct ev; cbn [handle].
  - apply onClientMessage_evolves.
  - by repeat split.
  - apply onClientClose_evolves.
  - apply evolves_refl.
  - apply on_link_evolves, on_open_keeps.
  - apply on_link_evolves, on_message_keeps.
  - apply on_link_evolves, on_error_keeps.
  - apply on_link_evolves, on_close_keeps.
  - apply on_link_evolves, on_timer_keeps.
Qed.

Lemma session_run_evolves wt nf evs s : evolves s (fst (session_run wt nf evs s)).
Proof.
  revert s. induction evs as [|ev evs IH]; intros s; cbn; [apply evolves_refl|].
  pose proof (handle_evolves wt nf ev s) as H1.
  destruct (handle wt nf ev s) as [s1 e1].
  specialize (IH s1). destruct (session_run wt nf evs s1) as [s2 e2].
  by eapply evolves_trans.
Qed.

(** ** The registry over time *)

Lemma Forall2_evolves_refl l : Forall2 evolves l l.
Proof. induction l; constructor; [apply evolves_refl|done]. Qed.

Lemma on_session_evolves ws h l :
  (forall s, evolves s (fst (h s))) -> Forall2 evolves l (fst (on_session ws h l)).
Proof.
  intros Hh. induction l as [|s l IH]; cbn; [constructor|].
  destruct (clientWs s =? ws)%nat.
  - specialize (Hh s). destruct (h s) as [s1 e1]. cbn.
    constructor; [done|apply Forall2_evolves_refl].
  - destruct (on_session ws h l) as [l' e]. cbn in *. constructor; [apply evolves_refl|done].
Qed.

Lemma replaced_evolves s :
  evolves s (fst (close_client 1001 "Replaced by a new connection"
                    (fst (cleanupClientConnection s)))).
Proof.
  eapply evolves_trans; [apply cleanup_evolves|apply close_client_evolves].
Qed.

Lemma closeExisting_cons newWs id s l :
  closeExisting newWs id (s :: l) =
  if registered s && String.eqb (clientId s) id then
    (fst (close_client 1001 "Replaced by a new connection"
            (fst (cleanupClientConnection s))) :: l,
     At newWs (Log ClientIdInUse)
     :: at_ws (clientWs s)
          (snd (cleanupClientConnection s)
           ++ [ClientClose 1001 "Replaced by a new connection"]))
  else (s :: fst (closeExisting newWs id l), snd (closeExisting newWs id l)).
Proof.
  cbn [closeExisting]. destruct (registered s && String.eqb (clientId s) id).
  - by destruct (cleanupClientConnection s) as [s1 e1].
  - by destruct (closeExisting newWs id l).
Qed.

Lemma closeExisting_evolves newWs id l :
  Forall2 evolves l (fst (closeExisting newWs id l)).
Proof.
  induction l as [|s l IH]; [constructor|].
  rewrite closeExisting_cons.
  destruct (registered s && String.eqb (clientId s) id); cbn.
  - constructor; [apply replaced_evolves|apply Forall2_evolves_refl].
  - constructor; [apply evolves_refl|done].
Qed.

Lemma cleanup_all_evolves l : Forall2 evolves l (fst (cleanup_all l)).
Proof.
  induction l as [|s l IH]; cbn; [constructor|].
  pose proof (cleanup_evolves s) as H.
  destruct (cleanupClientConnection s) as [s1 e1].
  destruct (cleanup_all l) as [l' e']. by constructor.
Qed.

Lemma unique_ids_evolves l l' : Forall2 evolves l l' -> unique_ids l -> unique_ids l'.
Proof.
  intros HF Hu n1 n2 s1' s2' H1 H2 Hr1 Hr2 Hid.
  destruct (Forall2_lookup_r _ _ _ _ _ HF H1) as (s1 & Hs1 & E1).
  destruct (Forall2_lookup_r _ _ _ _ _ HF H2) as (s2 & Hs2 & E2).
  destruct E1 as (_ & Hc1 & _ & Hg1). destruct E2 as (_ & Hc2 & _ & Hg2).
  apply (Hu n1 n2 s1 s2); try done.
  - by apply Hg1.
  - by apply Hg2.
  - congruence.
Qed.

Lemma unique_ids_tail s l : unique_ids (s :: l) -> unique_ids l.
Proof.
  intros Hu n1 n2 s1 s2 H1 H2 Hr1 Hr2 Hid.
  assert (S n1 = S n2) as H by (by apply (Hu (S n1) (S n2) s1 s2)).
  by injection H.
Qed.

Lemma closeExisting_no_match newWs id l :
  unique_ids l ->
  Forall (fun s => registered s = true -> clientId s <> id)
         (fst (closeExisting newWs id l)).
Proof.
  induction l as [|s l IH]; intros Hu; [constructor|].
  rewrite closeExisting_cons.
  destruct (registered s && String.eqb (clientId s) id) eqn:Hm; cbn.
  - apply andb_true_iff in Hm as [Hr Hi]. apply String.eqb_eq in Hi.
    constructor.
    + intros Hr'. exfalso. cbn in Hr'.
      pose proof (cleanup_unregistered s) as Hc. congruence.
    + apply Forall_lookup_2. intros n s' Hn Hr' Hid.
      assert (S n = 0) as H by (apply (Hu (S n) 0 s' s); try done; congruence).
      discriminate.
  - constructor.
    + intros Hr Hid. rewrite Hr in Hm. cbn in Hm.
      apply String.eqb_neq in Hm. done.
    + apply IH. by eapply unique_ids_tail.
Qed.

Lemma closeExisting_lookup newWs id l n old :
  unique_ids l -> l !! n = Some old -> registered old = true -> clientId old = id ->
  closeExisting newWs id l =
    (<[n := fst (close_client 1001 "Replaced by a new connection"
                   (fst (cleanupClientConnection old)))]> l,
     At newWs (Log ClientIdInUse)
     :: at_ws (clientWs old)
          (snd (cleanupClientConnection old)
           ++ [ClientClose 1001 "Replaced by a new connection"])).
Proof.
  revert n. induction l as [|s l IH]; intros n Hu Hn Hr Hid; [done|].
  rewrite closeExisting_cons.
  destruct n as [|n]; cbn in Hn.
  - injection Hn as ->. rewrite Hr, <- Hid. by rewrite String.eqb_refl.
  - destruct (registered s && String.eqb (clientId s) id) eqn:Hm.
    + apply andb_true_iff in Hm as [Hr' Hi]. apply String.eqb_eq in Hi.
      assert (S n = 0) as H by (apply (Hu (S n) 0 old s); try done; congruence).
      discriminate.
    + rewrite (IH n); try done. by eapply unique_ids_tail.
Qed.

Lemma connect_all_evolves wt nf n k s : evolves s (fst (connect_all wt nf n k s)).
Proof.
  revert k s. induction n as [|n IH]; intros k s; cbn; [apply evolves_refl|].
  pose proof (on_link_evolves nf k (Upstream.connect wt) s (connect_keeps wt)) as H1.
  destruct (on_link nf k (Upstream.connect wt) s) as [s1 e1].
  specialize (IH (S k) s1). destruct (connect_all wt nf n (S k) s1) as [s2 e2].
  by eapply evolves_trans.
Qed.

Lemma run_link_quiet nf k p s :
  quiet p ->
  registered (fst (run_link nf k p s)) = registered s /\
  length (upstreams (fst (run_link nf k p s))) = length (upstreams s) /\
  forall j, j <> k -> upstreams (fst (run_link nf k p s)) !! j = upstreams s !! j.
Proof.
  induction 1 as [u|e p Hq IH]; cbn.
  - repeat split; [apply length_insert|].
    intros j Hj. by apply list_lookup_insert_ne.
  - by destruct (run_link nf k p s).
Qed.

Lemma connect_quiet wt u :
  Upstream.reconnectAttempts u < Upstream.maxReconnectAttempts u ->
  quiet (Upstream.connect wt u).
Proof.
  intros H. unfold Upstream.connect.
  destruct (Upstream.ws u && Upstream.isConnected u); [repeat constructor|].
  constructor. destruct (wt _ _); [|repeat constructor].
  constructor. unfold Upstream.scheduleReconnect.
  destruct (Upstream.closed u); [constructor|].
  destruct (bool_decide _); [constructor|].
  destruct (_ <=? _)%nat eqn:E; [|repeat constructor].
  apply Nat.leb_le in E. lia.
Qed.

Lemma connect_all_registered wt nf n k s :
  (forall j u, k <= j -> upstreams s !! j = Some u ->
               Upstream.reconnectAttempts u < Upstream.maxReconnectAttempts u) ->
  registered (fst (connect_all wt nf n k s)) = registered s.
Proof.
  revert k s. induction n as [|n IH]; intros k s Hf; cbn; [done|].
  unfold on_link. destruct (upstreams s !! k) as [u|] eqn:Hk.
  - destruct (run_link_quiet nf k (Upstream.connect wt u) s) as (Hr & Hl & Ho).
    { apply connect_quiet. by apply (Hf k). }
    destruct (run_link nf k (Upstream.connect wt u) s) as [s1 e1]. cbn in *.
    specialize (IH (S k) s1).
    destruct (connect_all wt nf n (S k) s1) as [s2 e2]. cbn in *.
    rewrite IH; [done|]. intros j u' Hj Hu'. apply (Hf j); [lia|].
    rewrite <- Ho; [done|lia].
  - specialize (IH (S k) s).
    destruct (connect_all wt nf n (S k) s) as [s2 e2]. cbn in *.
    apply IH. intros j u' Hj Hu'. apply (Hf j); [lia|done].
Qed.

Lemma unique_ids_snoc l s :
  unique_ids l ->
  Forall (fun s' => registered s' = true -> clientId s' <> clientId s) l ->
  unique_ids (l ++ [s]).
Proof.
  intros Hu Hf n1 n2 s1 s2 H1 H2 Hr1 Hr2 Hid.
  rewrite Forall_lookup in Hf.
  destruct (decide (n1 < length l)) as [L1|L1];
    destruct (decide (n2 < length l)) as [L2|L2].
  - rewrite lookup_app_l in H1, H2 by done. by eapply Hu.
  - rewrite lookup_app_l in H1 by done. rewrite lookup_app_r in H2 by lia.
    destruct (n2 - length l) as [|?] eqn:E; cbn in H2; [|done].
    injection H2 as <-. exfalso. by eapply Hf.
  - rewrite lookup_app_l in H2 by done. rewrite lookup_app_r in H1 by lia.
    destruct (n1 - length l) as [|?] eqn:E; cbn in H1; [|done].
    injection H1 as <-. exfalso. by eapply Hf.
  - rewrite lookup_app_r in H1, H2 by lia.
    destruct (n1 - length l) as [|?] eqn:E1; cbn in H1; [|done].
    destruct (n2 - length l) as [|?] eqn:E2; cbn in H2; [|done]. lia.
Qed.

Lemma handleClientConnection_sessions wt request wsProtocol this :
  match path_match (strip_slashes (default "/" (or_else (url request) None))) with
  | None => sessions (fst (handleClientConnection wt request wsProtocol this)) = sessions this
  | Some id =>
      exists new e2,
        handleClientConnection wt request wsProtocol this =
          ({| config_upstreams := config_upstreams this; notifier := notifier this;
              sessions := fst (closeExisting (nextWs this) id (sessions this)) ++ [new];
              nextWs := S (nextWs this) |},
           snd (closeExisting (nextWs this) id (sessions this))
           ++ at_ws (nextWs this) e2) /\
        registered new = true /\ clientId new = id /\ clientWs new = nextWs this
  end.
Proof.
  unfold handleClientConnection. cbv zeta.
  cbn [nextWs sessions notifier config_upstreams].
  destruct (path_match _) as [id|]; [|done].
  destruct (closeExisting (nextWs this) id (sessions this)) as [l1 e1].
  cbn [fst snd].
  match goal with |- context [connect_all wt ?nf ?n ?k ?s] =>
    pose proof (connect_all_evolves wt nf n k s) as He;
    destruct (connect_all wt nf n k s) as [new e2] eqn:Hc end.
  cbn in He. destruct He as (Hw & Hi & Hn & Hr).
  eexists new, _. split; [reflexivity|].
  repeat split; try done.
  - match type of Hc with connect_all wt ?nf ?n ?k ?s = _ =>
      pose proof (connect_all_registered wt nf n k s) as Hg end.
    rewrite Hc in Hg. cbn in Hg. apply Hg.
    intros j u _ Hu. rewrite list_lookup_fmap in Hu.
    destruct (config_upstreams this !! j) as [cfg|]; [|done].
    injection Hu as <-. cbn. lia.
Qed.

Lemma handleClientConnection_unique wt request wsProtocol this :
  unique_ids (sessions this) ->
  unique_ids (sessions (fst (handleClientConnection wt request wsProtocol this))).
Proof.
  intros Hu.
  pose proof (handleClientConnection_sessions wt request wsProtocol this) as H.
  destruct (path_match _) as [id|]; [|by rewrite H].
  destruct H as (new & e2 & -> & Hr & Hi & Hw). cbn.
  apply unique_ids_snoc.
  - eapply unique_ids_evolves; [apply closeExisting_evolves|done].
  - rewrite Hi. by apply closeExisting_no_match.
Qed.

Lemma step_unique wt ev this :
  unique_ids (sessions this) -> unique_ids (sessions (fst (step wt ev this))).
Proof.
  intros Hu. destruct ev as [request wsProtocol|ws ev|]; cbn [step].
  - by apply handleClientConnection_unique.
  - pose proof (on_session_evolves ws (handle wt (notifier this) ev) (sessions this)
                  (handle_evolves wt (notifier this) ev)) as H.
    destruct (on_session ws _ (sessions this)) as [l e]. cbn in *.
    by eapply unique_ids_evolves.
  - unfold stop. pose proof (cleanup_all_evolves (sessions this)) as H.
    destruct (cleanup_all (sessions this)) as [l e]. cbn in *.
    by eapply unique_ids_evolves.
Qed.

Lemma run_unique wt evs this :
  unique_ids (sessions this) -> unique_ids (sessions (fst (run wt evs this))).
Proof.
  revert this. induction evs as [|ev evs IH]; intros this Hu; cbn; [done|].
  pose proof (step_unique wt ev this Hu) as H1.
  destruct (step wt ev this) as [this1 e1].
  specialize (IH this1 H1). by destruct (run wt evs this1).
Qed.

Lemma close_all_closed k l :
  Forall (fun u => Upstream.closed u = true /\ Upstream.isConnected u = false
                   /\ Upstream.reconnectTimer u = None /\ Upstream.ws u = false)
         (fst (close_all k l)).
Proof.
  revert k. induction l as [|u l IH]; intros k; cbn; [constructor|].
  specialize (IH (S k)).
  destruct (Upstream.close u) as [u' e] eqn:Hu.
  destruct (close_all (S k) l) as [l' e']. cbn in *. constructor; [|done].
  unfold Upstream.close in Hu. destruct u as [? ? ? ? ? w ? ? ? ? ? [t|]].
  all: destruct w; cbn in Hu; simplify_eq; cbn; done.
Qed.

Lemma cleanup_registered s :
  registered s = true ->
  let s' := fst (cleanupClientConnection s) in
  registered s' = false /\ router s' = fst (Router.clear (router s)) /\
  Forall (fun u => Upstream.closed u = true /\ Upstream.isConnected u = false
                   /\ Upstream.reconnectTimer u = None /\ Upstream.ws u = false)
         (upstreams s').
Proof.
  intros Hr. unfold cleanupClientConnection. rewrite Hr. cbn.
  pose proof (close_all_closed 0 (upstreams s)) as H.
  by destruct (close_all 0 (upstreams s)).
Qed.

(** C9: in every state the proxy reaches, the registry holds at most one
    session per client id.  When a connection arrives for the client id of a
    registered session, that session is cleaned up (its links closed, its
    router cleared, its entry removed) and its client socket is closed with
    code 1001, Replaced by a new connection; no session with this id is
    registered any more at that point, and only then is the new session
    registered, after all the others. *)
Theorem one_session_per_client_id (wt : string -> option string -> bool) :
  (forall primaryUrl secondaryUrl nf evs,
     unique_ids (sessions (fst (run wt evs (start primaryUrl secondaryUrl nf))))) /\
  (forall this request wsProtocol n old,
     unique_ids (sessions this) ->
     sessions this !! n = Some old ->
     registered old = true ->
     path_match (strip_slashes (default "/" (or_else (url request) None)))
       = Some (clientId old) ->
     let torn_down :=
       fst (close_client 1001 "Replaced by a new connection"
              (fst (cleanupClientConnection old))) in
     let before := <[n := torn_down]> (sessions this) in
     closeExisting (nextWs this) (clientId old) (sessions this) =
       (before,
        At (nextWs this) (Log ClientIdInUse)
        :: at_ws (clientWs old)
             (snd (cleanupClientConnection old)
              ++ [ClientClose 1001 "Replaced by a new connection"])) /\
     registered torn_down = false /\
     router torn_down = fst (Router.clear (router old)) /\
     Forall (fun u => Upstream.closed u = true /\ Upstream.isConnected u = false
                      /\ Upstream.reconnectTimer u = None /\ Upstream.ws u = false)
            (upstreams torn_down) /\
     Forall (fun s => registered s = true -> clientId s <> clientId old) before /\
     exists new e2,
       handleClientConnection wt request wsProtocol this =
         ({| config_upstreams := config_upstreams this; notifier := notifier this;
             sessions := before ++ [new]; nextWs := S (nextWs this) |},
          (At (nextWs this) (Log ClientIdInUse)
           :: at_ws (clientWs old)
                (snd (cleanupClientConnection old)
                 ++ [ClientClose 1001 "Replaced by a new connection"]))
          ++ at_ws (nextWs this) e2) /\
       registered new = true /\ clientId new = clientId old /\
       clientWs new = nextWs this).
Proof.
  split.
  - intros. apply run_unique. intros n1 n2 s1 s2 H. done.
  - intros this request wsProtocol n old Hu Hn Hr Hp torn_down before.
    pose proof (closeExisting_lookup (nextWs this) (clientId old) _ n old Hu Hn Hr eq_refl)
      as Hc.
    destruct (cleanup_registered old Hr) as (H1 & H2 & H3).
    split; [exact Hc|]. split; [exact H1|]. split; [exact H2|]. split; [exact H3|].
    split.
    + pose proof (closeExisting_no_match (nextWs this) (clientId old) _ Hu) as Hf.
      by rewrite Hc in Hf.
    + pose proof (handleClientConnection_sessions wt request wsProtocol this) as H.
      rewrite Hp in H. destruct H as (new & e2 & H & Hg).
      exists new, e2. rewrite Hc in H. by split.
Qed.

(** ** Upstreams lost *)

(** Closes a goal saying that no effect of a short, explicit list is a close
    of the client socket. *)
Ltac no_client_close :=
  cbn; intros ? ?; rewrite ?elem_of_cons, ?elem_of_nil;
  let H := fresh in intros H; decompose [or] H; (discriminate || contradiction).

Lemma checkUpstreamsStatus_unavailable s :
  registered s = true -> Forall unavailable (upstreams s) ->
  checkUpstreamsStatus s =
    (fst (cleanupClientConnection
            (fst (close_client 1001 "All upstream servers unavailable" s))),
     Log AllDisconnected
     :: ClientClose 1001 "All upstream servers unavailable"
     :: snd (cleanupClientConnection
               (fst (close_client 1001 "All upstream servers unavailable" s)))).
Proof.
  intros Hr Hf. unfold checkUpstreamsStatus. rewrite Hr. cbn [negb].
  assert (existsb (fun u => negb (Upstream.isConnected u)
                     && negb (Upstream.wasEverConnected u)
                     && (Upstream.reconnectAttempts u <? Upstream.maxReconnectAttempts u)%nat)
            (upstreams s) = false) as ->.
  { apply not_true_iff_false. intros H.
    apply existsb_exists in H as (u & Hin & Hu).
    apply list_elem_of_In in Hin. rewrite Forall_forall in Hf.
    destruct (Hf u Hin) as [Hc [Hw|Hm]].
    - rewrite Hw in Hu. by rewrite andb_false_r in Hu.
    - apply Nat.ltb_ge in Hm. rewrite Hm in Hu. by rewrite andb_false_r in Hu. }
  assert (forallb (fun u => negb (Upstream.isConnected u)) (upstreams s) = true) as ->.
  { apply forallb_forall. intros u Hin. apply list_elem_of_In in Hin.
    rewrite Forall_forall in Hf. destruct (Hf u Hin) as [Hc _]. by rewrite Hc. }
  cbn. by destruct (cleanupClientConnection _).
Qed.

Lemma checkUpstreamsStatus_alive s :
  ~ Forall unavailable (upstreams s) ->
  fst (checkUpstreamsStatus s) = s /\
  forall code reason, ClientClose code reason ∉ snd (checkUpstreamsStatus s).
Proof.
  intros Hf. unfold checkUpstreamsStatus.
  destruct (negb (registered s)); [split; [done|no_client_close]|].
  destruct (existsb _ (upstreams s)) eqn:He; [split; [done|no_client_close]|].
  destruct (forallb _ (upstreams s)) eqn:Ha; [|split; [done|no_client_close]].
  exfalso. apply Hf. apply Forall_forall. intros u Hu.
  apply list_elem_of_In in Hu.
  pose proof (proj1 (forallb_forall _ _) Ha u Hu) as H1.
  assert (forall x, In x (upstreams s) ->
            (negb (Upstream.isConnected x) && negb (Upstream.wasEverConnected x)
             && (Upstream.reconnectAttempts x <? Upstream.maxReconnectAttempts x)%nat)
            = false) as H2.
  { intros x Hx. destruct (_ && _ && _) eqn:E; [|done].
    assert (existsb (fun u => negb (Upstream.isConnected u)
                     && negb (Upstream.wasEverConnected u)
                     && (Upstream.reconnectAttempts u <? Upstream.maxReconnectAttempts u)%nat)
              (upstreams s) = true) as H3 by (apply existsb_exists; eauto).
    congruence. }
  specialize (H2 u Hu). unfold unavailable. cbn in H1.
  destruct (Upstream.isConnected u); [done|]. split; [done|].
  destruct (Upstream.wasEverConnected u); [by left|right].
  cbn in H2. by apply Nat.ltb_ge in H2.
Qed.

Lemma flush_frame s :
  let r := flushMessageBufferIfAllConnected s in
  upstreams (fst r) = upstreams s /\ registered (fst r) = registered s /\
  router (fst r) = router s /\ readyState (fst r) = readyState s /\
  forall code reason, ClientClose code reason ∉ snd r.
Proof.
  unfold flushMessageBufferIfAllConnected.
  repeat case_match; cbn; repeat split; no_client_close.
Qed.

(** C6: when a link reports a disconnect or a give-up, the session is
    destroyed and its client socket closed with code 1001, All upstream
    servers unavailable, exactly when every link is not connected and has
    either been connected before or used up its reconnection attempts.
    Otherwise (so whenever some link that never connected has attempts
    left) the session stays registered, with its links and router as they
    were, and the client socket is not closed. *)
Theorem session_survival (nf : Notifier) (k : nat) (cb : Upstream.Callback)
    (serverName : string) (s : Session) :
  registered s = true ->
  cb = Upstream.OnDisconnected \/ cb = Upstream.OnGaveUp ->
  let r := callback nf k cb serverName s in
  ((registered (fst r) = false /\
    ClientClose 1001 "All upstream servers unavailable" ∈ snd r)
   <-> Forall unavailable (upstreams s)) /\
  (Forall unavailable (upstreams s) ->
   router (fst r) = fst (Router.clear (router s)) /\
   Forall (fun u => Upstream.closed u = true /\ Upstream.isConnected u = false
                    /\ Upstream.reconnectTimer u = None /\ Upstream.ws u = false)
          (upstreams (fst r))) /\
  (~ Forall unavailable (upstreams s) ->
   registered (fst r) = true /\ upstreams (fst r) = upstreams s /\
   router (fst r) = router s /\ readyState (fst r) = readyState s /\
   forall code reason, ClientClose code reason ∉ snd r) /\
  (Exists (fun u => Upstream.wasEverConnected u = false /\
                    Upstream.reconnectAttempts u < Upstream.maxReconnectAttempts u)
          (upstreams s) ->
   registered (fst r) = true).
Proof.
  intros Hr Hcb r.
  assert (exists s0 e0 e1,
            upstreams s0 = upstreams s /\ registered s0 = true /\
            router s0 = router s /\ readyState s0 = readyState s /\
            (forall code reason, ClientClose code reason ∉ e0) /\
            (forall code reason, ClientClose code reason ∉ e1) /\
            r = (fst (checkUpstreamsStatus s0),
                 e0 ++ snd (checkUpstreamsStatus s0) ++ e1)) as
      (s0 & e0 & e1 & Hu & Hr0 & Hro & Hrs & He0 & He1 & ->).
  { subst r. destruct Hcb as [-> | ->]; cbn [callback].
    - exists s, [], (notify nf (disconnectedFromUpstream (clientId s) serverName)).
      repeat split; try done; try no_client_close.
      + unfold notify. destruct nf; no_client_close.
      + by destruct (checkUpstreamsStatus s).
    - destruct (flush_frame s) as (H1 & H2 & H3 & H4 & H5).
      destruct (flushMessageBufferIfAllConnected s) as [s1 e1]. cbn in *.
      exists s1, e1, []. repeat split; try done; try congruence; try no_client_close.
      destruct (checkUpstreamsStatus s1). by rewrite app_nil_r. }
  cbn [fst snd]. rewrite <- Hu.
  destruct (decide (Forall unavailable (upstreams s0))) as [Hf|Hf].
  - rewrite (checkUpstreamsStatus_unavailable s0 Hr0 Hf). cbn [fst snd].
    destruct (cleanup_registered
                (fst (close_client 1001 "All upstream servers unavailable" s0)) Hr0)
      as (H1 & H2 & H3).
    split; [|split; [|split]].
    + split; [done|]. intros _. split; [done|].
      apply elem_of_app. right. apply elem_of_app. left.
      apply elem_of_cons. right. apply elem_of_cons. by left.
    + intros _. split; [|done]. by rewrite H2.
    + done.
    + intros He. exfalso. apply Exists_exists in He as (u & Hin & Hw & Hlt).
      rewrite Forall_forall in Hf. destruct (Hf u Hin) as [_ [Hw'|Hm]]; [congruence|lia].
  - destruct (checkUpstreamsStatus_alive s0 Hf) as [H1 H2]. rewrite H1.
    split; [|split; [|split]].
    + split; [|done]. intros [H _]. congruence.
    + done.
    + intros _. repeat split; try done.
      intros code reason Hin. apply elem_of_app in Hin as [Hin|Hin]; [by eapply He0|].
      apply elem_of_app in Hin as [Hin|Hin]; [by eapply H2|by eapply He1].
    + done.
Qed.

(** ** The pre-connect buffer *)

Lemma set_upstreams_id k u s :
  upstreams s !! k = Some u -> set_upstreams (<[k := u]> (upstreams s)) s = s.
Proof.
  intros H. destruct s as [cw rs reg us r cid proto buf st]. cbn in *.
  unfold set_upstreams. cbn. by rewrite list_insert_id.
Qed.

Lemma on_open_link nf k u s :
  upstreams s !! k = Some u ->
  let opened := Upstream.set_reconnectAttempts 0
                  (Upstream.set_wasEverConnected true
                     (Upstream.set_isConnected true u)) in
  let s0 := set_upstreams (<[k := opened]> (upstreams s)) s in
  on_link nf k Upstream.on_open s =
    (fst (callback nf k Upstream.OnConnected (Upstream.name u) s0),
     Up k (Upstream.LLog (Connected (Upstream.getUrl u)))
     :: snd (callback nf k Upstream.OnConnected (Upstream.name u) s0)).
Proof.
  intros Hk opened s0. unfold on_link. rewrite Hk.
  unfold Upstream.on_open. cbn [run_link].
  fold opened. fold s0. change (Upstream.name opened) with (Upstream.name u).
  destruct (callback nf k Upstream.OnConnected (Upstream.name u) s0) as [s1 e1].
  destruct (threw e1); [done|].
  destruct (upstreams s1 !! k) as [u'|] eqn:Hk1; [|done].
  cbn. rewrite app_nil_r. by rewrite set_upstreams_id.
Qed.

Lemma send_connected u data :
  Upstream.isConnected u = true -> Upstream.ws u = true ->
  Upstream.send u data = (true, [Upstream.WsSend data]).
Proof. intros H1 H2. unfold Upstream.send. by rewrite H1, H2. Qed.


Lemma length_nonempty {A} (l : list A) : l <> [] -> (length l =? 0)%nat = false.
Proof. destruct l; [done|]. done. Qed.

(** A link that is connected or has used up its reconnection attempts. *)
Lemma resolved_forallb l :
  forallb (fun u => Upstream.isConnected u
                    || (Upstream.maxReconnectAttempts u <=? Upstream.reconnectAttempts u)%nat) l
    = true
  <-> Forall resolved l.
Proof.
  rewrite forallb_forall, Forall_forall. unfold resolved.
  split; intros H u Hu.
  - apply list_elem_of_In in Hu. specialize (H u Hu).
    apply orb_true_iff in H as [H|H]; [by left|right]. by apply Nat.leb_le.
  - apply list_elem_of_In in Hu. apply orb_true_iff.
    destruct (H u Hu) as [?|?]; [by left|right]. by apply Nat.leb_le.
Qed.

(** ** Replies from upstreams *)

Lemma strict_eq_num_inv v n :
  strict_eq_num v n = true ->
  exists m e, v = JNumber m e /\ binary64 m e = binary64 n 0.
Proof.
  destruct v; cbn; try discriminate. intros H.
  apply bool_decide_eq_true in H. eauto.
Qed.

Lemma strict_eq_num_other v n n' :
  binary64 n 0 <> binary64 n' 0 ->
  strict_eq_num v n = true -> strict_eq_num v n' = false.
Proof.
  intros Hn H. apply strict_eq_num_inv in H as (m & e & -> & H). cbn.
  apply bool_decide_eq_false. congruence.
Qed.


Lemma reply_not_call t :
  strict_eq_num t 3 || strict_eq_num t 4 = true -> strict_eq_num t 2 = false.
Proof.
  intros H. apply orb_true_iff in H as [H|H];
    (eapply strict_eq_num_other; [|exact H]); by vm_compute.
Qed.



Lemma client_sends_app e1 e2 : client_sends (e1 ++ e2) = client_sends e1 ++ client_sends e2.
Proof. apply omap_app. Qed.

Lemma client_sends_logs l : client_sends (logs l) = [].
Proof. induction l; [done|]. cbn. done. Qed.

Lemma on_message_link nf k u data s :
  upstreams s !! k = Some u ->
  on_link nf k (Upstream.on_message data) s = handleUpstreamMessage data (Upstream.name u) s.
Proof.
  intros Hk. unfold on_link. rewrite Hk. unfold Upstream.on_message. cbn [run_link].
  rewrite (set_upstreams_id _ _ _ Hk). cbn [callback].
  destruct (handleUpstreamMessage data (Upstream.name u) s) as [s1 e1].
  destruct (threw e1); [done|].
  destruct (upstreams s1 !! k) as [u'|] eqn:Hk1; [|done].
  cbn. rewrite app_nil_r. by rewrite set_upstreams_id.
Qed.






(** ** Frames from the client *)

Lemma upstream_writes_app e1 e2 :
  upstream_writes (e1 ++ e2) = upstream_writes e1 ++ upstream_writes e2.
Proof. apply omap_app. Qed.

Lemma upstream_writes_logs l : upstream_writes (logs l) = [].
Proof. induction l; [done|]. cbn. done. Qed.

Lemma upstream_writes_notify nf h : upstream_writes (notify nf h) = [].
Proof. by destruct nf. Qed.

Lemma threw_app e1 e2 : threw (e1 ++ e2) = threw e1 || threw e2.
Proof. apply existsb_app. Qed.

Lemma threw_logs l : threw (logs l) = false.
Proof. induction l; [done|]. cbn. done. Qed.

Lemma threw_ups k l : threw (ups k l) = false.
Proof. induction l; [done|]. cbn. done. Qed.

Lemma threw_notify nf h : threw (notify nf h) = false.
Proof. by destruct nf. Qed.

Lemma threw_flush s : threw (snd (flushMessageBufferIfAllConnected s)) = false.
Proof. unfold flushMessageBufferIfAllConnected. by repeat case_match. Qed.

Lemma threw_close_all k l : threw (snd (close_all k l)) = false.
Proof.
  revert k. induction l as [|u l IH]; intros k; cbn; [done|].
  specialize (IH (S k)). destruct (Upstream.close u) as [u' e].
  destruct (close_all (S k) l) as [l' e']. cbn [fst snd] in *.
  by rewrite threw_app, threw_ups, IH.
Qed.

Lemma threw_cleanup s : threw (snd (cleanupClientConnection s)) = false.
Proof.
  unfold cleanupClientConnection. destruct (negb (registered s)); [done|].
  pose proof (threw_close_all 0 (upstreams s)) as H.
  destruct (close_all 0 (upstreams s)) as [l e]. cbn [fst snd] in *.
  destruct (Router.clear (router s)) as [r' l2]. cbn [fst snd].
  by rewrite !threw_app, H, threw_logs.
Qed.

Lemma threw_check s : threw (snd (checkUpstreamsStatus s)) = false.
Proof.
  unfold checkUpstreamsStatus, close_client.
  destruct (negb (registered s)); [done|].
  destruct (existsb _ (upstreams s)); [done|].
  destruct (forallb _ (upstreams s)); [|done].
  match goal with |- context [cleanupClientConnection ?x] =>
    pose proof (threw_cleanup x) as H; destruct (cleanupClientConnection x) as [s2 e2]
  end. cbn [fst snd] in *. change (threw (Log ?l :: ?e)) with (threw e).
  by rewrite threw_app, H.
Qed.

Lemma threw_broadcast data k l : threw (broadcast data k l) = false.
Proof.
  revert k. induction l as [|u l IH]; intros k; cbn [broadcast]; [done|].
  rewrite threw_app, IH. by destruct (Upstream.isConnected u); rewrite ?threw_ups.
Qed.

Lemma upstream_writes_broadcast data k l :
  Forall holds_socket l ->
  upstream_writes (broadcast data k l) = (fun j => (j, data)) <$> connected_from k l.
Proof.
  intros Hf. revert k. induction Hf as [|u l Hu Hf IH]; intros k; cbn; [done|].
  rewrite upstream_writes_app, IH. rewrite fmap_app. f_equal.
  destruct (Upstream.isConnected u) eqn:Hc; [|done].
  rewrite send_connected; [done..|]. by apply Hu.
Qed.

Lemma parseMessage_logs stamp data m :
  fst (parseMessage stamp data) = Some m -> snd (parseMessage stamp data) = [].
Proof.
  unfold parseMessage.
  by destruct (JSON_parse data) as [[| | | |[|t [|i rest]]|]|].
Qed.


Lemma handleClientMessage_call nf data m s :
  registered s = true ->
  fst (parseMessage (stamps s) data) = Some m ->
  strict_eq_num (type m) 2 = true ->
  key_renders (messageId m) = true ->
  hook_returns nf (clientId s) data ->
  handleClientMessage nf data s =
    (set_router (snd (fst (registerClientCall (router s) (messageId m))))
       (set_stamps (S (stamps s)) s),
     logs [CallToAllServers (messageId m)]
     ++ logs [RegisteredClientCall (messageId m)]
     ++ notify nf (callFromClient (clientId s) data)
     ++ broadcast data 0 (upstreams s)).
Proof.
  intros Hr Hp Ht Hk Hh. unfold handleClientMessage.
  pose proof (parseMessage_logs _ _ _ Hp) as Hl.
  destruct (parseMessage (stamps s) data) as [m' l0]. cbn in Hp, Hl. subst m' l0.
  unfold routeClientMessage, registerClientCall, template. rewrite Ht, Hk.
  destruct s as [cw rs reg us r cid proto buf st]. cbn in *. subst reg.
  rewrite ?Ht, ?Hk. cbn.
  destruct nf as [throws|]; [|done]. by rewrite (Hh throws eq_refl).
Qed.





(** ** Reconnection *)

Section Reconnection.

Import Upstream.

Lemma scheduleReconnect_alone u :
  closed u = false -> reconnectTimer u = None ->
  run_alone (scheduleReconnect u) =
    if (maxReconnectAttempts u <=? reconnectAttempts u)%nat
    then (u, [Did (LLog MaxReconnectReached); Called OnGaveUp (name u)])
    else
      (set_reconnectTimer (Some (spec_delay (S (reconnectAttempts u))))
         (set_reconnectAttempts (S (reconnectAttempts u)) u),
       [Did (LLog (ReconnectingIn (spec_delay (S (reconnectAttempts u)))
                     (S (reconnectAttempts u)) (maxReconnectAttempts u)));
        Did (SetTimeout (spec_delay (S (reconnectAttempts u))))]).
Proof.
  intros Hc Ht. unfold scheduleReconnect. rewrite Hc, Ht. cbn [bool_decide].
  rewrite bool_decide_eq_false_2 by (by intros [? ?]).
  by destruct (_ <=? _)%nat.
Qed.

Lemma on_close_alone u :
  closed u = false ->
  run_alone (on_close u) =
    (fst (run_alone (scheduleReconnect (set_isConnected false u))),
     Did (LLog Disconnected) :: Called OnDisconnected (name u)
     :: snd (run_alone (scheduleReconnect (set_isConnected false u)))).
Proof.
  intros Hc. unfold on_close. cbn [run_alone]. cbn [closed set_isConnected name].
  rewrite Hc. by destruct (run_alone _).
Qed.

Lemma on_timer_alone wt u :
  isConnected u = false ->
  run_alone (on_timer wt u) =
    if wt (getUrl u) (if truthy (protocol u) then Some (protocol u) else None)
    then
      (fst (run_alone (scheduleReconnect (set_reconnectTimer None u))),
       Did (LLog (Connecting (getUrl u))) :: Did (LLog ConnectionError)
       :: snd (run_alone (scheduleReconnect (set_reconnectTimer None u))))
    else
      (set_ws true (set_reconnectTimer None u),
       [Did (LLog (Connecting (getUrl u)));
        Did (WsNew (getUrl u)
               (if truthy (protocol u) then Some (protocol u) else None)
               match clientIp u with
               | Some ip => [("X-Forwarded-For", ip); ("X-Real-IP", ip)]
               | None => []
               end)]).
Proof.
  intros Hi. unfold on_timer, connect.
  cbn [ws isConnected set_reconnectTimer]. rewrite Hi, andb_false_r.
  change (getUrl (set_reconnectTimer None u)) with (getUrl u).
  cbn [protocol clientIp set_reconnectTimer].
  destruct (wt _ _); cbn [run_alone]; [|done].
  by destruct (run_alone _).
Qed.

Lemma failing_stops wt fuel u :
  reconnectTimer u = None -> failing wt fuel false u = (u, []).
Proof. intros H. destruct fuel; [done|]. cbn [failing]. by rewrite H. Qed.

Lemma timeouts_app t1 t2 : timeouts (t1 ++ t2) = timeouts t1 ++ timeouts t2.
Proof. apply omap_app. Qed.

Lemma gave_up_calls_app t1 t2 :
  gave_up_calls (t1 ++ t2) = gave_up_calls t1 ++ gave_up_calls t2.
Proof. apply omap_app. Qed.

Lemma failing_exhausts wt d :
  (forall u fuel,
     idle u -> maxReconnectAttempts u - reconnectAttempts u = d ->
     reconnectTimer u = None -> 2 * d + 1 <= fuel ->
     exhausted u d (failing wt fuel true u)) /\
  (forall u fuel t,
     idle u -> maxReconnectAttempts u - reconnectAttempts u = d ->
     isConnected u = false -> reconnectTimer u = Some t -> 2 * d + 2 <= fuel ->
     exhausted u d (failing wt fuel false u)).
Proof.
  induction d as [|d [IHa IHb]].
  - assert (forall u fuel,
              idle u -> maxReconnectAttempts u - reconnectAttempts u = 0 ->
              reconnectTimer u = None -> 1 <= fuel ->
              exhausted u 0 (failing wt fuel true u)) as Ha.
    { intros u [|fuel] [Hc Hr] Hd Ht Hf; [lia|]. cbn [failing].
      rewrite on_close_alone by done.
      rewrite scheduleReconnect_alone by done. cbn [maxReconnectAttempts
        reconnectAttempts set_isConnected name].
      rewrite (proj2 (Nat.leb_le _ _)) by lia. cbn [fst snd created existsb orb].
      rewrite failing_stops by done.
      unfold exhausted; cbn; repeat split; try done; lia. }
    split; [intros; apply Ha; try done; lia|].
    intros u [|fuel] t [Hc Hr] Hd Hi Ht Hf; [lia|]. cbn [failing].
    rewrite Ht. cbn [bool_decide]. rewrite bool_decide_eq_true_2 by eauto.
    rewrite on_timer_alone by done.
    destruct (wt _ _).
    + rewrite scheduleReconnect_alone by done.
      cbn [maxReconnectAttempts reconnectAttempts name set_reconnectTimer].
      rewrite (proj2 (Nat.leb_le _ _)) by lia. cbn [fst snd created existsb orb].
      rewrite failing_stops by done.
      unfold exhausted; cbn; repeat split; try done; lia.
    + cbn [created existsb orb].
      specialize (Ha (set_ws true (set_reconnectTimer None u)) fuel).
      destruct (failing wt fuel true _) as [u2 t2].
      destruct Ha as (H1 & H2 & H3 & H4 & H5); [by split|done|done|lia|].
      unfold exhausted in *. cbn in *. by repeat split.
  - assert (forall u fuel,
              idle u -> maxReconnectAttempts u - reconnectAttempts u = S d ->
              reconnectTimer u = None -> 2 * S d + 1 <= fuel ->
              exhausted u (S d) (failing wt fuel true u)) as Ha.
    { intros u [|fuel] [Hc Hr] Hd Ht Hf; [lia|]. cbn [failing].
      rewrite on_close_alone by done.
      rewrite scheduleReconnect_alone by done. cbn [maxReconnectAttempts
        reconnectAttempts set_isConnected name].
      rewrite (proj2 (Nat.leb_gt _ _)) by lia.
      cbn [fst snd].
      specialize (IHb (set_reconnectTimer (Some (spec_delay (S (reconnectAttempts u))))
                         (set_reconnectAttempts (S (reconnectAttempts u))
                            (set_isConnected false u)))
                      fuel (spec_delay (S (reconnectAttempts u)))).
      destruct (failing wt fuel false _) as [u2 t2].
      destruct IHb as (H1 & H2 & H3 & H4 & H5);
        [split; cbn; [done|lia] | cbn; lia | done | done | lia |].
      unfold exhausted. cbn in *.
      rewrite H1, H2, H5. repeat split; try done; lia. }
    split; [exact Ha|].
    intros u [|fuel] t [Hc Hr] Hd Hi Ht Hf; [lia|]. cbn [failing].
    rewrite Ht. cbn [bool_decide]. rewrite bool_decide_eq_true_2 by eauto.
    rewrite on_timer_alone by done.
    destruct (wt _ _).
    + rewrite scheduleReconnect_alone by done.
      cbn [maxReconnectAttempts reconnectAttempts name set_reconnectTimer].
      rewrite (proj2 (Nat.leb_gt _ _)) by lia.
      cbn [fst snd created existsb orb].
      specialize (IHb (set_reconnectTimer (Some (spec_delay (S (reconnectAttempts u))))
                         (set_reconnectAttempts (S (reconnectAttempts u))
                            (set_reconnectTimer None u)))
                      fuel (spec_delay (S (reconnectAttempts u)))).
      destruct (failing wt fuel false _) as [u2 t2].
      destruct IHb as (H1 & H2 & H3 & H4 & H5);
        [split; cbn; [done|lia] | cbn; lia | done | done | lia |].
      unfold exhausted. cbn in *.
      rewrite H1, H2, H5. repeat split; try done; lia.
    + cbn [created existsb orb].
      specialize (Ha (set_ws true (set_reconnectTimer None u)) fuel).
      destruct (failing wt fuel true _) as [u2 t2].
      destruct Ha as (H1 & H2 & H3 & H4 & H5); [by split|done|done|lia|].
      unfold exhausted in *. cbn in *. by repeat split.
Qed.

(** C7: [scheduleReconnect] on a link that is not closed and has no timer
    pending schedules attempt [n] (its attempt count plus one) after
    [min(5000 * 2^(n-1), 60000)] ms while the count is below the maximum,
    and otherwise calls [on_gave_up] once and leaves the link as it is.  So
    for a new link none of whose connections succeeds, whether the socket is
    refused at construction or closes before opening, the delays set are
    exactly those of attempts 1 to 10, no eleventh is set however long the
    link is observed, [on_gave_up] is called exactly once, and the link ends
    with [closed] false and no timer. *)
Theorem reconnect_backoff (wt : string -> option string -> bool)
    (name baseUrl clientId protocol : string) (clientIp : option string)
    (extra : nat) :
  (forall u,
     closed u = false -> reconnectTimer u = None ->
     run_alone (scheduleReconnect u) =
       if (maxReconnectAttempts u <=? reconnectAttempts u)%nat
       then (u, [Did (LLog MaxReconnectReached); Called OnGaveUp (Upstream.name u)])
       else
         (set_reconnectTimer (Some (spec_delay (S (reconnectAttempts u))))
            (set_reconnectAttempts (S (reconnectAttempts u)) u),
          [Did (LLog (ReconnectingIn (spec_delay (S (reconnectAttempts u)))
                        (S (reconnectAttempts u)) (maxReconnectAttempts u)));
           Did (SetTimeout (spec_delay (S (reconnectAttempts u))))])) /\
  let r := connect_failing wt (22 + extra)
             (Upstream.new name baseUrl clientId protocol clientIp) in
  timeouts (snd r) = spec_delay <$> seq 1 10 /\
  timeouts (snd r) =
    [5000; 10000; 20000; 40000; 60000; 60000; 60000; 60000; 60000; 60000]%Z /\
  gave_up_calls (snd r) = [name] /\
  closed (fst r) = false /\
  reconnectTimer (fst r) = None /\
  reconnectAttempts (fst r) = 10.
Proof.
  split; [apply scheduleReconnect_alone|].
  set (u := Upstream.new name baseUrl clientId protocol clientIp).
  assert (exhausted u 10 (connect_failing wt (22 + extra) u)) as H.
  { unfold connect_failing, connect. cbn [ws u Upstream.new andb].
    destruct (wt _ _).
    - cbn [run_alone]. rewrite scheduleReconnect_alone by done.
      cbn [maxReconnectAttempts reconnectAttempts u Upstream.new Nat.leb
           created existsb orb].
      pose proof (proj2 (failing_exhausts wt 9)
                    (set_reconnectTimer (Some (spec_delay 1))
                       (set_reconnectAttempts 1 u))
                    (22 + extra) (spec_delay 1)) as Hb.
      destruct (failing wt (22 + extra) false _) as [u2 t2].
      destruct Hb as (H1 & H2 & H3 & H4 & H5);
        [split; cbn; [done|lia] | done | done | done | lia |].
      unfold exhausted in *. cbn in *. rewrite H1. by repeat split.
    - cbn [run_alone created existsb orb].
      pose proof (proj1 (failing_exhausts wt 10) (set_ws true u) (22 + extra)) as Ha.
      destruct (failing wt (22 + extra) true _) as [u2 t2].
      destruct Ha as (H1 & H2 & H3 & H4 & H5);
        [split; cbn; [done|lia] | done | done | lia |].
      unfold exhausted in *. cbn in *. by repeat split. }
  destruct H as (H1 & H2 & H3 & H4 & H5). cbn zeta.
  by repeat split.
Qed.

End Reconnection.

(** ** Sessions the proxy reaches *)

Lemma handleClientMessage_upstreams nf data s :
  upstreams (fst (handleClientMessage nf data s)) = upstreams s.
Proof. by destruct (handleClientMessage_shape nf data s) as (r' & -> & _). Qed.

Lemma handleUpstreamMessage_upstreams data n s :
  upstreams (fst (handleUpstreamMessage data n s)) = upstreams s.
Proof. by destruct (handleUpstreamMessage_shape data n s) as (r' & -> & _). Qed.

Lemma feed_upstreams nf msgs s : upstreams (fst (feed nf msgs s)) = upstreams s.
Proof.
  revert s. induction msgs as [|msg msgs IH]; intros s; cbn; [done|].
  pose proof (handleClientMessage_upstreams nf msg s) as H1.
  destruct (handleClientMessage nf msg s) as [s1 e1].
  destruct (threw e1); [done|].
  specialize (IH s1). destruct (feed nf msgs s1) as [s2 e2]. cbn in *. congruence.
Qed.

Lemma sendBufferToUpstream_upstreams nf k s :
  upstreams (fst (sendBufferToUpstream nf k s)) = upstreams s.
Proof.
  unfold sendBufferToUpstream.
  destruct (negb (registered s) || (length (messageBuffer s) =? 0)%nat); [done|].
  destruct (upstreams s !! k) as [u|]; [|done].
  destruct (k =? 0)%nat; [|done].
  pose proof (feed_upstreams nf (messageBuffer s) s) as Hf.
  by destruct (feed nf (messageBuffer s) s).
Qed.

Lemma close_all_sound k l : Forall holds_socket (fst (close_all k l)).
Proof.
  eapply Forall_impl; [apply close_all_closed|].
  intros u (_ & Hc & _) H. congruence.
Qed.

Lemma cleanup_sound s :
  Forall holds_socket (upstreams s) ->
  Forall holds_socket (upstreams (fst (cleanupClientConnection s))).
Proof.
  intros H. unfold cleanupClientConnection.
  destruct (registered s); cbn; [|done].
  pose proof (close_all_sound 0 (upstreams s)) as Hc.
  by destruct (close_all 0 (upstreams s)).
Qed.

Lemma checkUpstreamsStatus_sound s :
  Forall holds_socket (upstreams s) ->
  Forall holds_socket (upstreams (fst (checkUpstreamsStatus s))).
Proof.
  intros H. unfold checkUpstreamsStatus.
  destruct (negb (registered s)); [done|].
  destruct (existsb _ (upstreams s)); [done|].
  destruct (forallb _ (upstreams s)); [|done].
  cbn. pose proof (cleanup_sound (set_readyState
                     match readyState s with OPEN => CLOSING | st => st end s) H) as Hc.
  by destruct (cleanupClientConnection _).
Qed.

Lemma callback_sound nf k cb n s :
  Forall holds_socket (upstreams s) ->
  Forall holds_socket (upstreams (fst (callback nf k cb n s))).
Proof.
  intros H. destruct cb; cbn [callback].
  - by rewrite handleUpstreamMessage_upstreams.
  - pose proof (sendBufferToUpstream_upstreams nf k s) as H1.
    destruct (sendBufferToUpstream nf k s) as [s1 e1].
    destruct (threw e1); [cbn in *; congruence|].
    destruct (flush_frame s1) as (H2 & _).
    destruct (flushMessageBufferIfAllConnected s1) as [s2 e2]. cbn in *. congruence.
  - pose proof (checkUpstreamsStatus_sound s H) as H1.
    by destruct (checkUpstreamsStatus s).
  - destruct (flush_frame s) as (H2 & _).
    destruct (flushMessageBufferIfAllConnected s) as [s1 e1]. cbn in *.
    rewrite <- H2 in H.
    pose proof (checkUpstreamsStatus_sound s1 H) as H1.
    by destruct (checkUpstreamsStatus s1).
Qed.

Lemma insert_sound k u s :
  Forall holds_socket (upstreams s) -> holds_socket u ->
  Forall holds_socket (upstreams (set_upstreams (<[k := u]> (upstreams s)) s)).
Proof. intros H Hu. cbn. by apply Forall_insert. Qed.

Lemma run_link_sound nf k p s :
  keeps_socket p -> Forall holds_socket (upstreams s) ->
  Forall holds_socket (upstreams (fst (run_link nf k p s))).
Proof.
  intros Hp. revert s. induction Hp as [u Hu|e p Hp IH|cb u cont Hu Hk IH]; intros s H.
  - by apply insert_sound.
  - cbn. specialize (IH s H). by destruct (run_link nf k p s).
  - cbn [run_link].
    pose proof (callback_sound nf k cb (Upstream.name u) _ (insert_sound k u s H Hu)) as Hc.
    destruct (callback nf k cb (Upstream.name u) _) as [s1 e1]. cbn in Hc.
    destruct (threw e1); [done|].
    destruct (upstreams s1 !! k) as [u'|] eqn:Hk1; [|done].
    assert (holds_socket u') as Hu'.
    { rewrite Forall_lookup in Hc. by eapply Hc. }
    specialize (IH u' Hu' s1 Hc). by destruct (run_link nf k (cont u') s1).
Qed.

Lemma scheduleReconnect_sound u : holds_socket u -> keeps_socket (Upstream.scheduleReconnect u).
Proof.
  intros H. unfold Upstream.scheduleReconnect.
  destruct (Upstream.closed u); [by constructor|].
  destruct (bool_decide _); [by constructor|].
  destruct (_ <=? _)%nat; repeat (constructor; try done).
Qed.

Lemma connect_sound wt u : holds_socket u -> keeps_socket (Upstream.connect wt u).
Proof.
  intros H. unfold Upstream.connect.
  destruct (Upstream.ws u && Upstream.isConnected u); [by repeat constructor|].
  constructor. destruct (wt _ _).
  - constructor. by apply scheduleReconnect_sound.
  - by repeat constructor.
Qed.

Lemma on_close_sound u : keeps_socket (Upstream.on_close u).
Proof.
  constructor. constructor; [by intros ?|].
  intros u' Hu'. destruct (Upstream.closed u'); [by constructor|].
  by apply scheduleReconnect_sound.
Qed.

Lemma handle_sound wt nf ev s :
  plausible ev s -> Forall holds_socket (upstreams s) ->
  Forall holds_socket (upstreams (fst (handle wt nf ev s))).
Proof.
  intros Hp H.
  assert (forall k method,
            (forall u, upstreams s !! k = Some u -> keeps_socket (method u)) ->
            Forall holds_socket (upstreams (fst (on_link nf k method s)))) as Hl.
  { intros k method Hm. unfold on_link.
    destruct (upstreams s !! k) as [u|] eqn:Hk; [|done].
    apply run_link_sound; [by apply Hm|done]. }
  assert (forall k u, upstreams s !! k = Some u -> holds_socket u) as Hu.
  { intros k u Hk. rewrite Forall_lookup in H. by eapply H. }
  destruct ev; cbn [handle].
  - unfold onClientMessage. destruct (_ && _); [done|].
    by rewrite handleClientMessage_upstreams.
  - done.
  - unfold onClientClose.
    pose proof (cleanup_sound (set_readyState CLOSED s) H) as Hc.
    by destruct (cleanupClientConnection _).
  - done.
  - apply Hl. intros u Hk. constructor. constructor; [|by constructor].
    intros _. cbn. by apply (Hp u).
  - apply Hl. intros u Hk. constructor; [by eapply Hu|by constructor].
  - apply Hl. intros u Hk. repeat constructor. by eapply Hu.
  - apply Hl. intros u Hk. apply on_close_sound.
  - apply Hl. intros u Hk. apply connect_sound. intros Hc. cbn in *. by eapply Hu.
Qed.

Lemma handle_ok wt nf cfg ev s :
  plausible ev s -> session_ok cfg s -> session_ok cfg (fst (handle wt nf ev s)).
Proof.
  intros Hp [Hn Hs]. split; [|by apply handle_sound].
  destruct (handle_evolves wt nf ev s) as (_ & _ & H & _). congruence.
Qed.

Lemma on_session_ok cfg ws h l :
  (forall s, s ∈ l -> clientWs s = ws -> session_ok cfg s -> session_ok cfg (fst (h s))) ->
  Forall (session_ok cfg) l -> Forall (session_ok cfg) (fst (on_session ws h l)).
Proof.
  intros Hh Hl. induction Hl as [|s l Hs Hl IH]; cbn; [constructor|].
  destruct (clientWs s =? ws)%nat eqn:E.
  - apply Nat.eqb_eq in E.
    pose proof (Hh s (list_elem_of_here s l) E Hs) as H1.
    destruct (h s) as [s1 e1]. cbn. by constructor.
  - destruct (on_session ws h l) as [l' e] eqn:Ho. cbn in *. constructor; [done|].
    apply IH. intros s' Hin. apply Hh. by apply list_elem_of_further.
Qed.

Lemma replaced_ok cfg s :
  session_ok cfg s ->
  session_ok cfg (fst (close_client 1001 "Replaced by a new connection"
                         (fst (cleanupClientConnection s)))).
Proof.
  intros [Hn Hs]. split.
  - destruct (replaced_evolves s) as (_ & _ & H & _). congruence.
  - cbn. by apply cleanup_sound.
Qed.

Lemma closeExisting_ok cfg newWs id l :
  Forall (session_ok cfg) l -> Forall (session_ok cfg) (fst (closeExisting newWs id l)).
Proof.
  induction 1 as [|s l Hs Hl IH]; [constructor|].
  rewrite closeExisting_cons.
  destruct (registered s && String.eqb (clientId s) id); cbn.
  - constructor; [by apply replaced_ok|done].
  - by constructor.
Qed.

Lemma cleanup_all_ok cfg l :
  Forall (session_ok cfg) l -> Forall (session_ok cfg) (fst (cleanup_all l)).
Proof.
  induction 1 as [|s l [Hn Hs] Hl IH]; cbn; [constructor|].
  pose proof (cleanup_evolves s) as He. pose proof (cleanup_sound s Hs) as Hc.
  destruct (cleanupClientConnection s) as [s1 e1].
  destruct (cleanup_all l) as [l' e']. cbn in *. constructor; [|done].
  split; [|done]. destruct He as (_ & _ & H & _). congruence.
Qed.

Lemma connect_all_sound wt nf n k s :
  Forall holds_socket (upstreams s) ->
  Forall holds_socket (upstreams (fst (connect_all wt nf n k s))).
Proof.
  revert k s. induction n as [|n IH]; intros k s H; cbn; [done|].
  assert (Forall holds_socket (upstreams (fst (on_link nf k (Upstream.connect wt) s))))
    as H1.
  { unfold on_link. destruct (upstreams s !! k) as [u|] eqn:Hk; [|done].
    apply run_link_sound; [|done]. apply connect_sound.
    rewrite Forall_lookup in H. by eapply H. }
  destruct (on_link nf k (Upstream.connect wt) s) as [s1 e1].
  specialize (IH (S k) s1 H1). by destruct (connect_all wt nf n (S k) s1).
Qed.

Lemma handleClientConnection_ok wt request wsProtocol this :
  Forall (session_ok (config_upstreams this)) (sessions this) ->
  let this' := fst (handleClientConnection wt request wsProtocol this) in
  config_upstreams this' = config_upstreams this /\
  Forall (session_ok (config_upstreams this)) (sessions this').
Proof.
  intros H. unfold handleClientConnection. cbv zeta.
  cbn [nextWs sessions notifier config_upstreams].
  destruct (path_match _) as [id|]; [|done].
  pose proof (closeExisting_ok _ (nextWs this) id _ H) as Hc.
  destruct (closeExisting (nextWs this) id (sessions this)) as [l1 e1].
  match goal with |- context [connect_all wt ?nf ?n ?k ?s] =>
    pose proof (connect_all_evolves wt nf n k s) as He;
    pose proof (connect_all_sound wt nf n k s) as Hs;
    destruct (connect_all wt nf n k s) as [new e2] end.
  cbn in *. split; [done|]. apply Forall_app. split; [done|].
  constructor; [|constructor]. split.
  - destruct He as (_ & _ & Hn & _). rewrite Hn. unfold names. cbn.
    rewrite <- list_fmap_compose. by apply list_fmap_ext.
  - apply Hs. apply Forall_fmap. apply Forall_forall. intros cfg _. by intros ?.
Qed.

Lemma step_ok wt ev this :
  (match ev with
   | of_session ws e => forall s, s ∈ sessions this -> clientWs s = ws -> plausible e s
   | _ => True
   end) ->
  Forall (session_ok (config_upstreams this)) (sessions this) ->
  let this' := fst (step wt ev this) in
  config_upstreams this' = config_upstreams this /\
  Forall (session_ok (config_upstreams this)) (sessions this').
Proof.
  intros Hp H. destruct ev as [request wsProtocol|ws ev|]; cbn [step].
  - by apply handleClientConnection_ok.
  - pose proof (on_session_ok (config_upstreams this) ws
                  (handle wt (notifier this) ev) (sessions this)) as Ho.
    destruct (on_session ws _ (sessions this)) as [l e]. cbn in *.
    split; [done|]. apply Ho; [|done].
    intros s Hin Hw Hs. apply handle_ok; [by apply Hp|done].
  - unfold stop. pose proof (cleanup_all_ok _ _ H) as Hc.
    by destruct (cleanup_all (sessions this)) as [l e].
Qed.

(** Every session of a state the proxy reaches by plausible events bears
    the link names PRI and, when configured, SEC, and each of its connected
    links holds its socket. *)
Lemma reached_sessions_ok wt primaryUrl secondaryUrl nf evs :
  plausible_run wt evs (start primaryUrl secondaryUrl nf) ->
  Forall (session_ok (build_upstreams primaryUrl secondaryUrl))
         (sessions (fst (run wt evs (start primaryUrl secondaryUrl nf)))).
Proof.
  assert (forall this,
            plausible_run wt evs this ->
            Forall (session_ok (config_upstreams this)) (sessions this) ->
            Forall (session_ok (config_upstreams this)) (sessions (fst (run wt evs this))))
    as H.
  { induction evs as [|ev evs IH]; intros this Hp Hf; cbn; [done|].
    destruct Hp as [Hp1 Hp2].
    destruct (step_ok wt ev this Hp1 Hf) as [Hc Hs].
    destruct (step wt ev this) as [this1 e1]. cbn in *.
    specialize (IH this1 Hp2). rewrite Hc in IH. specialize (IH Hs).
    by destruct (run wt evs this1). }
  intros Hp. apply (H _ Hp). constructor.
Qed.

Lemma ok_names_distinct primaryUrl secondaryUrl s u :
  session_ok (build_upstreams primaryUrl secondaryUrl) s ->
  NoDup (names s) /\
  (u ∈ upstreams s -> truthy (Upstream.name u) = true).
Proof.
  intros [Hn _]. unfold build_upstreams in Hn.
  assert (names s = ["PRI"] \/ names s = ["PRI"; "SEC"]) as Hc.
  { rewrite Hn. destruct (or_else secondaryUrl None); cbn; auto. }
  split.
  - destruct Hc as [-> | ->]; repeat constructor; rewrite ?elem_of_cons, ?elem_of_nil;
      intros H; decompose [or] H; done.
  - intros Hin.
    assert (Upstream.name u ∈ names s) as Hin'
      by (unfold names; apply list_elem_of_fmap; eauto).
    destruct Hc as [Hc | Hc]; rewrite Hc in Hin';
      rewrite ?elem_of_cons, ?elem_of_nil in Hin';
      decompose [or] Hin'; try done; by match goal with H : _ = _ |- _ => rewrite H end.
Qed.

(** ** What holds of every link *)

Section RespectsFacts.

Variable P : Upstream.UpstreamConnection -> Prop.
Variable Q : Upstream.LinkEffect -> Prop.

Hypothesis send_ok : forall u data, P u -> Forall Q (snd (Upstream.send u data)).
Hypothesis close_ok : forall u, P u ->
  P (fst (Upstream.close u)) /\ Forall Q (snd (Upstream.close u)).

Lemma effect_ok_logs l : Forall (effect_ok Q) (logs l).
Proof. unfold logs. apply Forall_fmap. by apply Forall_true. Qed.

Lemma effect_ok_notify nf h : Forall (effect_ok Q) (notify nf h).
Proof. unfold notify. destruct nf; repeat constructor. Qed.

Lemma effect_ok_ups k l : Forall Q l -> Forall (effect_ok Q) (ups k l).
Proof. intros H. unfold ups. by apply Forall_fmap. Qed.

Lemma broadcast_ok data k l : Forall P l -> Forall (effect_ok Q) (broadcast data k l).
Proof.
  intros H. revert k. induction H as [|u l Hu Hl IH]; intros k; cbn; [constructor|].
  apply Forall_app. split; [|apply IH].
  destruct (Upstream.isConnected u); [|by repeat constructor].
  apply effect_ok_ups. by apply send_ok.
Qed.

Lemma close_all_ok k l :
  Forall P l -> Forall P (fst (close_all k l)) /\ Forall (effect_ok Q) (snd (close_all k l)).
Proof.
  intros H. revert k. induction H as [|u l Hu Hl IH]; intros k; cbn; [by split|].
  destruct (close_ok u Hu) as [H1 H2]. destruct (Upstream.close u) as [u' e].
  specialize (IH (S k)). destruct (close_all (S k) l) as [l' e']. cbn in *.
  destruct IH as [IH1 IH2]. split; [by constructor|].
  apply Forall_app. split; [by apply effect_ok_ups|done].
Qed.

Lemma cleanup_ok s :
  links_ok P s ->
  links_ok P (fst (cleanupClientConnection s)) /\
  Forall (effect_ok Q) (snd (cleanupClientConnection s)).
Proof.
  intros H. unfold cleanupClientConnection.
  destruct (registered s); cbn; [|by split].
  destruct (close_all_ok 0 (upstreams s) H) as [H1 H2].
  destruct (close_all 0 (upstreams s)) as [l e]. cbn in *. split; [done|].
  apply Forall_app. split; [done|]. by repeat constructor.
Qed.

Lemma checkUpstreamsStatus_ok s :
  links_ok P s ->
  links_ok P (fst (checkUpstreamsStatus s)) /\
  Forall (effect_ok Q) (snd (checkUpstreamsStatus s)).
Proof.
  intros H. unfold checkUpstreamsStatus.
  destruct (negb (registered s)); [by split|].
  destruct (existsb _ (upstreams s)); [by split; [|repeat constructor]|].
  destruct (forallb _ (upstreams s)); [|by split].
  cbn.
  destruct (cleanup_ok (set_readyState
              match readyState s with OPEN => CLOSING | st => st end s) H) as [H1 H2].
  destruct (cleanupClientConnection _) as [s2 e2]. cbn in *. split; [done|].
  by repeat constructor.
Qed.

Ltac effects_ok :=
  rewrite ?Forall_app, ?Forall_cons, ?Forall_app; repeat split;
  auto using effect_ok_logs, effect_ok_notify, effect_ok_ups, broadcast_ok;
  try (by repeat constructor).

Lemma handleClientMessage_ok nf data s :
  links_ok P s -> Forall (effect_ok Q) (snd (handleClientMessage nf data s)).
Proof.
  intros H. unfold handleClientMessage.
  destruct (parseMessage (stamps s) data) as [[m|] l0]; cbn; [|effects_ok].
  destruct (routeClientMessage (router s) (Some m)) as [[[routing|] r1] l1]; cbn;
    [|effects_ok].
  destruct (sendToAll routing).
  - destruct (strict_eq_num (type m) 2); cbn; [|effects_ok].
    destruct (registerClientCall _ _) as [[[[]|] r2] l2]; cbn; [|effects_ok].
    destruct nf as [throws|]; cbn; [|effects_ok].
    destruct (negb (registered s)); cbn; [effects_ok|].
    destruct (throws _ _); cbn; effects_ok.
  - destruct (sendToServer routing) as [target|]; cbn; [|effects_ok].
    destruct (truthy target); cbn; [|effects_ok].
    destruct (list_find _ (upstreams s)) as [[k u]|] eqn:Hf; cbn; [|effects_ok].
    apply list_find_Some in Hf as (Hk & _).
    assert (P u) as Hu by (unfold links_ok in H; rewrite Forall_lookup in H; eauto).
    destruct (Upstream.isConnected u); cbn; effects_ok.
Qed.

Lemma handleUpstreamMessage_ok data n s :
  Forall (effect_ok Q) (snd (handleUpstreamMessage data n s)).
Proof.
  assert (Forall (effect_ok Q)
            (if bool_decide (readyState s = OPEN) then [ClientSend data] else [])) as Hr
    by (destruct (bool_decide _); by repeat constructor).
  unfold handleUpstreamMessage.
  destruct (parseMessage (stamps s) data) as [[m|] l0]; cbn; [|effects_ok].
  destruct (handleServerMessage (router s) (Some m) n) as [[[[]|] r1] l1]; cbn;
    [|effects_ok].
  destruct (strict_eq_num (type m) 3 || strict_eq_num (type m) 4); cbn; [|effects_ok].
  destruct (registered s); [destruct (upstreams s)|]; cbn; [effects_ok| |].
  - destruct (shouldRelayResponseToClient _ _ _ _) as [[[]|] l2]; cbn; effects_ok.
  - destruct (shouldRelayResponseToClient _ _ _ _) as [[[]|] l2]; cbn; effects_ok.
Qed.

Lemma feed_ok nf msgs s :
  links_ok P s -> Forall (effect_ok Q) (snd (feed nf msgs s)).
Proof.
  revert s. induction msgs as [|msg msgs IH]; intros s H; cbn; [constructor|].
  pose proof (handleClientMessage_ok nf msg s H) as H1.
  pose proof (handleClientMessage_upstreams nf msg s) as H2.
  destruct (handleClientMessage nf msg s) as [s1 e1]. cbn in *.
  destruct (threw e1); [done|].
  assert (links_ok P s1) as H3 by (unfold links_ok; by rewrite H2).
  specialize (IH s1 H3). destruct (feed nf msgs s1) as [s2 e2]. cbn in *.
  apply Forall_app. by split.
Qed.

Lemma sendBufferToUpstream_ok nf k s :
  links_ok P s -> Forall (effect_ok Q) (snd (sendBufferToUpstream nf k s)).
Proof.
  intros H. unfold sendBufferToUpstream.
  destruct (negb (registered s) || (length (messageBuffer s) =? 0)%nat); [constructor|].
  destruct (upstreams s !! k) as [u|] eqn:Hk; [|constructor].
  destruct (k =? 0)%nat.
  - pose proof (feed_ok nf (messageBuffer s) s H) as Hf.
    destruct (feed nf (messageBuffer s) s) as [s1 e1]. cbn in *. by constructor.
  - cbn. constructor; [done|].
    assert (P u) as Hu by (unfold links_ok in H; rewrite Forall_lookup in H; eauto).
    induction (messageBuffer s) as [|msg msgs IH]; cbn; [constructor|].
    apply Forall_app. split; [|done]. apply effect_ok_ups. by apply send_ok.
Qed.

Lemma flush_ok s : Forall (effect_ok Q) (snd (flushMessageBufferIfAllConnected s)).
Proof.
  unfold flushMessageBufferIfAllConnected.
  destruct (_ || _); [constructor|]. destruct (forallb _ _); by repeat constructor.
Qed.

Lemma callback_ok nf k cb n s :
  links_ok P s ->
  links_ok P (fst (callback nf k cb n s)) /\
  Forall (effect_ok Q) (snd (callback nf k cb n s)).
Proof.
  intros H. destruct cb; cbn [callback].
  - split; [unfold links_ok; by rewrite handleUpstreamMessage_upstreams|].
    apply handleUpstreamMessage_ok.
  - pose proof (sendBufferToUpstream_upstreams nf k s) as H1.
    pose proof (sendBufferToUpstream_ok nf k s H) as H2.
    destruct (sendBufferToUpstream nf k s) as [s1 e1].
    destruct (threw e1); [cbn in *; split; [unfold links_ok in *; by rewrite H1|done]|].
    destruct (flush_frame s1) as (H3 & _). pose proof (flush_ok s1) as H4.
    destruct (flushMessageBufferIfAllConnected s1) as [s2 e2]. cbn in *.
    split; [unfold links_ok in *; by rewrite H3, H1|].
    rewrite ?Forall_app. repeat split; auto using effect_ok_notify.
  - destruct (checkUpstreamsStatus_ok s H) as [H1 H2].
    destruct (checkUpstreamsStatus s) as [s1 e1]. cbn in *. split; [done|].
    rewrite ?Forall_app. split; auto using effect_ok_notify.
  - destruct (flush_frame s) as (H3 & _). pose proof (flush_ok s) as H4.
    destruct (flushMessageBufferIfAllConnected s) as [s1 e1]. cbn in *.
    assert (links_ok P s1) as H5 by (unfold links_ok in *; by rewrite H3).
    destruct (checkUpstreamsStatus_ok s1 H5) as [H1 H2].
    destruct (checkUpstreamsStatus s1) as [s2 e2]. cbn in *. split; [done|].
    rewrite ?Forall_app. by split.
Qed.

Lemma run_link_ok nf k p s :
  respects P Q p -> links_ok P s ->
  links_ok P (fst (run_link nf k p s)) /\ Forall (effect_ok Q) (snd (run_link nf k p s)).
Proof.
  intros Hp. revert s.
  induction Hp as [u Hu|e p He Hp IH|cb u cont Hu Hk IH]; intros s H.
  - cbn. split; [|constructor]. unfold links_ok. cbn. by apply Forall_insert.
  - cbn. destruct (IH s H) as [H1 H2]. destruct (run_link nf k p s). cbn in *.
    split; [done|]. by constructor.
  - cbn [run_link].
    assert (links_ok P (set_upstreams (<[k := u]> (upstreams s)) s)) as H0
      by (unfold links_ok; cbn; by apply Forall_insert).
    destruct (callback_ok nf k cb (Upstream.name u) _ H0) as [H1 H2].
    destruct (callback nf k cb (Upstream.name u) _) as [s1 e1]. cbn in H1, H2.
    destruct (threw e1); [by split|].
    destruct (upstreams s1 !! k) as [u'|] eqn:Hk1; [|by split].
    assert (P u') as Hu' by (unfold links_ok in H1; rewrite Forall_lookup in H1; eauto).
    destruct (IH u' Hu' s1 H1) as [H3 H4].
    destruct (run_link nf k (cont u') s1). cbn in *. split; [done|].
    apply Forall_app. by split.
Qed.

Lemma handle_link_method wt nf ev k m s :
  link_method wt ev = Some (k, m) -> handle wt nf ev s = on_link nf k m s.
Proof. destruct ev; cbn; intros [= <- <-]; reflexivity. Qed.

(** An event of the session keeps [P] on its links and [Q] on their effects
    when the method it runs on a link does. *)
Lemma handle_respects wt nf ev s :
  links_ok P s ->
  (forall k m u, link_method wt ev = Some (k, m) -> upstreams s !! k = Some u ->
                 respects P Q (m u)) ->
  links_ok P (fst (handle wt nf ev s)) /\ Forall (effect_ok Q) (snd (handle wt nf ev s)).
Proof.
  intros H Hm.
  destruct (link_method wt ev) as [[k m]|] eqn:Hl.
  - rewrite (handle_link_method wt nf ev k m s Hl). unfold on_link.
    destruct (upstreams s !! k) as [u|] eqn:Hk; [|by split].
    apply run_link_ok; [by eapply Hm|done].
  - destruct ev; try discriminate; cbn [handle].
    + unfold onClientMessage. destruct (_ && _); [by split; [|repeat constructor]|].
      split; [unfold links_ok; by rewrite handleClientMessage_upstreams|].
      by apply handleClientMessage_ok.
    + by split.
    + unfold onClientClose.
      destruct (cleanup_ok (set_readyState CLOSED s) H) as [H1 H2].
      destruct (cleanupClientConnection _) as [s1 e1]. cbn in *. split; [done|].
      constructor; [done|]. apply Forall_app. split; auto using effect_ok_notify.
    + by split; [|repeat constructor].
Qed.

End RespectsFacts.

Section RespectsRuns.

Variable P : Upstream.UpstreamConnection -> Prop.
Variable Q : Upstream.LinkEffect -> Prop.
Variable wt : string -> option string -> bool.
Variable cfg : list (string * string).

Hypothesis send_ok : forall u data, P u -> Forall Q (snd (Upstream.send u data)).
Hypothesis close_ok : forall u, P u ->
  P (fst (Upstream.close u)) /\ Forall Q (snd (Upstream.close u)).
Hypothesis methods_ok : forall ev k m u,
  link_method wt ev = Some (k, m) -> P u -> respects P Q (m u).
Hypothesis connect_ok : forall u, P u -> respects P Q (Upstream.connect wt u).
Hypothesis new_ok : forall name url id p ip,
  (name, url) ∈ cfg -> path_match id = Some id -> truthy p = true ->
  P (Upstream.new name url id p ip).

Lemma handle_all nf ev s :
  links_ok P s ->
  links_ok P (fst (handle wt nf ev s)) /\ Forall (effect_ok Q) (snd (handle wt nf ev s)).
Proof.
  intros H. apply handle_respects; try done.
  intros k m u Hl Hk. eapply methods_ok; [done|].
  unfold links_ok in H. rewrite Forall_lookup in H. eauto.
Qed.

Lemma session_run_all nf evs s :
  links_ok P s ->
  links_ok P (fst (session_run wt nf evs s)) /\
  Forall (effect_ok Q) (snd (session_run wt nf evs s)).
Proof.
  revert s. induction evs as [|ev evs IH]; intros s H; cbn; [by split|].
  destruct (handle_all nf ev s H) as [H1 H2].
  destruct (handle wt nf ev s) as [s1 e1]. cbn in *.
  destruct (IH s1 H1) as [H3 H4].
  destruct (session_run wt nf evs s1) as [s2 e2]. cbn in *. split; [done|].
  apply Forall_app. by split.
Qed.

Lemma at_ws_ok ws e : Forall (effect_ok Q) e -> Forall (output_ok Q) (at_ws ws e).
Proof. intros H. unfold at_ws. by apply Forall_fmap. Qed.

Lemma on_session_all ws h l :
  (forall s, links_ok P s ->
             links_ok P (fst (h s)) /\ Forall (effect_ok Q) (snd (h s))) ->
  Forall (links_ok P) l ->
  Forall (links_ok P) (fst (on_session ws h l)) /\
  Forall (output_ok Q) (snd (on_session ws h l)).
Proof.
  intros Hh Hl. induction Hl as [|s l Hs Hl IH]; cbn; [by split|].
  destruct (clientWs s =? ws)%nat.
  - destruct (Hh s Hs) as [H1 H2]. destruct (h s) as [s1 e1]. cbn in *.
    split; [by constructor|by apply at_ws_ok].
  - destruct (on_session ws h l) as [l' e]. cbn in *. destruct IH as [H1 H2].
    split; [by constructor|done].
Qed.

Lemma closeExisting_all newWs id l :
  Forall (links_ok P) l ->
  Forall (links_ok P) (fst (closeExisting newWs id l)) /\
  Forall (output_ok Q) (snd (closeExisting newWs id l)).
Proof.
  induction 1 as [|s l Hs Hl IH]; [by split|].
  cbn [closeExisting].
  destruct (registered s && String.eqb (clientId s) id).
  - destruct (cleanup_ok P Q close_ok s Hs) as [H1 H2].
    destruct (cleanupClientConnection s) as [s1 e1]. cbn in *.
    split; [by constructor|]. constructor; [done|].
    apply at_ws_ok. apply Forall_app. split; [done|by repeat constructor].
  - destruct (closeExisting newWs id l) as [l' e]. cbn in *. destruct IH as [H1 H2].
    split; [by constructor|done].
Qed.

Lemma cleanup_all_all l :
  Forall (links_ok P) l ->
  Forall (links_ok P) (fst (cleanup_all l)) /\
  Forall (output_ok Q) (snd (cleanup_all l)).
Proof.
  induction 1 as [|s l Hs Hl IH]; cbn; [by split|].
  destruct (cleanup_ok P Q close_ok s Hs) as [H1 H2].
  destruct (cleanupClientConnection s) as [s1 e1].
  destruct (cleanup_all l) as [l' e']. cbn in *. destruct IH as [H3 H4].
  split; [by constructor|]. apply Forall_app. split; [by apply at_ws_ok|done].
Qed.

Lemma connect_all_all nf n k s :
  links_ok P s ->
  links_ok P (fst (connect_all wt nf n k s)) /\
  Forall (effect_ok Q) (snd (connect_all wt nf n k s)).
Proof.
  revert k s. induction n as [|n IH]; intros k s H; cbn; [by split|].
  assert (links_ok P (fst (on_link nf k (Upstream.connect wt) s)) /\
          Forall (effect_ok Q) (snd (on_link nf k (Upstream.connect wt) s))) as [H1 H2].
  { unfold on_link. destruct (upstreams s !! k) as [u|] eqn:Hk; [|by split].
    apply (run_link_ok P Q send_ok close_ok); [|done]. apply connect_ok.
    unfold links_ok in H. rewrite Forall_lookup in H. eauto. }
  destruct (on_link nf k (Upstream.connect wt) s) as [s1 e1]. cbn in *.
  destruct (IH (S k) s1 H1) as [H3 H4].
  destruct (connect_all wt nf n (S k) s1) as [s2 e2]. cbn in *. split; [done|].
  apply Forall_app. by split.
Qed.

Lemma path_match_fixed x id : path_match x = Some id -> path_match id = Some id.
Proof.
  unfold path_match. destruct (truthy x && _) eqn:E; [|done].
  intros [= <-]. by rewrite E.
Qed.

Lemma handleClientConnection_all request wsProtocol this :
  config_upstreams this = cfg ->
  Forall (links_ok P) (sessions this) ->
  let r := handleClientConnection wt request wsProtocol this in
  config_upstreams (fst r) = cfg /\
  Forall (links_ok P) (sessions (fst r)) /\ Forall (output_ok Q) (snd r).
Proof.
  intros Hc H. unfold handleClientConnection. cbv zeta.
  cbn [nextWs sessions notifier config_upstreams].
  destruct (path_match _) as [id|] eqn:Hp; [|by repeat split; repeat constructor].
  destruct (closeExisting_all (nextWs this) id _ H) as [H1 H2].
  destruct (closeExisting (nextWs this) id (sessions this)) as [l1 e1].
  match goal with |- context [connect_all wt ?nf ?n ?k ?s] =>
    pose proof (connect_all_all nf n k s) as Hs;
    destruct (connect_all wt nf n k s) as [new e2] end.
  cbn in *.
  destruct Hs as [H3 H4].
  { unfold links_ok. cbn. apply Forall_fmap. apply Forall_forall.
    intros [name url] Hin. cbn. unfold with_extra_argument. apply new_ok.
    - by rewrite <- Hc.
    - by eapply path_match_fixed.
    - by destruct (truthy wsProtocol) eqn:E. }
  repeat split; [done| |].
  - apply Forall_app. split; [done|by repeat constructor].
  - apply Forall_app. split; [done|]. constructor; [done|].
    apply (at_ws_ok (nextWs this)).
    apply Forall_app. split; [apply effect_ok_notify|]. by constructor.
Qed.

Lemma step_all ev this :
  config_upstreams this = cfg ->
  Forall (links_ok P) (sessions this) ->
  let r := step wt ev this in
  config_upstreams (fst r) = cfg /\
  Forall (links_ok P) (sessions (fst r)) /\ Forall (output_ok Q) (snd r).
Proof.
  intros Hc H. destruct ev as [request wsProtocol|ws ev|]; cbn [step].
  - by apply handleClientConnection_all.
  - destruct (on_session_all ws (handle wt (notifier this) ev) (sessions this)) as [H1 H2];
      [intros s Hs; by apply handle_all|done|].
    by destruct (on_session ws _ (sessions this)) as [l e].
  - unfold stop. destruct (cleanup_all_all _ H) as [H1 H2].
    destruct (cleanup_all (sessions this)) as [l e]. cbn in *.
    repeat split; [done|done|]. apply Forall_app. split; [done|by repeat constructor].
Qed.

Lemma run_all evs this :
  config_upstreams this = cfg ->
  Forall (links_ok P) (sessions this) ->
  let r := run wt evs this in
  Forall (links_ok P) (sessions (fst r)) /\ Forall (output_ok Q) (snd r).
Proof.
  revert this. induction evs as [|ev evs IH]; intros this Hc H; cbn; [by split|].
  destruct (step_all ev this Hc H) as (H1 & H2 & H3).
  destruct (step wt ev this) as [this1 e1]. cbn in *.
  destruct (IH this1 H1 H2) as [H4 H5].
  destruct (run wt evs this1) as [this2 e2]. cbn in *. split; [done|].
  apply Forall_app. by split.
Qed.

End RespectsRuns.

(** ** The sockets opened towards upstreams *)

Lemma send_socket_ok cfg u data : Forall (socket_ok cfg) (snd (Upstream.send u data)).
Proof. unfold Upstream.send. destruct (_ || _); by repeat constructor. Qed.

Lemma close_configured cfg u :
  configured cfg u ->
  configured cfg (fst (Upstream.close u)) /\ Forall (socket_ok cfg) (snd (Upstream.close u)).
Proof.
  intros H. unfold Upstream.close.
  destruct (bool_decide _); destruct u as [? ? ? ? ? [] ? ? ? ? ? ?]; cbn;
    (split; [exact H|by repeat constructor]).
Qed.

Lemma scheduleReconnect_configured cfg u :
  configured cfg u ->
  respects (configured cfg) (socket_ok cfg) (Upstream.scheduleReconnect u).
Proof.
  intros H. unfold Upstream.scheduleReconnect.
  destruct (Upstream.closed u); [by constructor|].
  destruct (bool_decide _); [by constructor|].
  destruct (_ <=? _)%nat; repeat (constructor; try done).
Qed.

Lemma connect_configured wt cfg u :
  configured cfg u ->
  respects (configured cfg) (socket_ok cfg) (Upstream.connect wt u).
Proof.
  intros H. unfold Upstream.connect.
  destruct (Upstream.ws u && Upstream.isConnected u); [repeat (constructor; try done)|].
  constructor; [done|]. destruct H as (Hc & Hi & Hp). rewrite Hp.
  destruct (wt _ _).
  - constructor; [done|]. by apply scheduleReconnect_configured.
  - constructor; [|by constructor]. cbn. split; [|split].
    + by exists (Upstream.name u), (Upstream.baseUrl u), (Upstream.clientId u).
    + by exists (Upstream.protocol u).
    + destruct (Upstream.clientIp u) as [ip|]; [right; by exists ip|by left].
Qed.

Lemma methods_configured wt cfg ev k m u :
  link_method wt ev = Some (k, m) -> configured cfg u ->
  respects (configured cfg) (socket_ok cfg) (m u).
Proof.
  intros Hl H. destruct ev; cbn in Hl; simplify_eq.
  - repeat (constructor; try done).
  - repeat (constructor; try done).
  - repeat (constructor; try done).
  - constructor; [done|]. constructor; [done|].
    intros u' Hu'. destruct (Upstream.closed u'); [by constructor|].
    by apply scheduleReconnect_configured.
  - unfold Upstream.on_timer. by apply connect_configured.
Qed.

Lemma new_configured cfg name url id p ip :
  (name, url) ∈ cfg -> path_match id = Some id -> truthy p = true ->
  configured cfg (Upstream.new name url id p ip).
Proof. by repeat split. Qed.

(** X8: whatever happens, every socket the proxy opens towards an upstream,
    at a client's connection or at any reconnection, goes to the URL of a
    configured upstream followed by a client id the path check accepts, asks
    for a subprotocol, and carries no header besides X-Forwarded-For and
    X-Real-IP, which bear the same value. *)
Theorem upstream_sockets_as_configured (wt : string -> option string -> bool)
    (primaryUrl : string) (secondaryUrl : option string) (nf : Notifier)
    (evs : list Event) :
  Forall (output_ok (socket_ok (build_upstreams primaryUrl secondaryUrl)))
         (snd (run wt evs (start primaryUrl secondaryUrl nf))).
Proof.
  apply (run_all (configured (build_upstreams primaryUrl secondaryUrl))
           (socket_ok (build_upstreams primaryUrl secondaryUrl)) wt
           (build_upstreams primaryUrl secondaryUrl)).
  - intros u data _. apply send_socket_ok.
  - apply close_configured.
  - apply methods_configured.
  - apply connect_configured.
  - apply new_configured.
  - reflexivity.
  - constructor.
Qed.

(** ** Reconnection, whatever happens *)

Lemma send_delay_ok u data : Forall delay_ok (snd (Upstream.send u data)).
Proof. unfold Upstream.send. destruct (_ || _); by repeat constructor. Qed.

Lemma close_within u :
  within_attempts u ->
  within_attempts (fst (Upstream.close u)) /\ Forall delay_ok (snd (Upstream.close u)).
Proof.
  intros H. unfold Upstream.close.
  destruct (bool_decide _); destruct u as [? ? ? ? ? [] ? ? ? ? ? ?]; cbn;
    (split; [exact H|by repeat constructor]).
Qed.

Lemma delay_in_range (n : nat) :
  (5000 <= Z.min (5000 * 2 ^ (Z.of_nat (S n) - 1)) 60000 <= 60000)%Z.
Proof.
  assert (0 < 2 ^ (Z.of_nat (S n) - 1))%Z by (apply Z.pow_pos_nonneg; lia). lia.
Qed.

Lemma scheduleReconnect_within u :
  within_attempts u -> respects within_attempts delay_ok (Upstream.scheduleReconnect u).
Proof.
  intros [H1 H2]. unfold Upstream.scheduleReconnect.
  destruct (Upstream.closed u); [by constructor|].
  destruct (bool_decide _); [by constructor|].
  destruct (_ <=? _)%nat eqn:E.
  - repeat (constructor; try done).
  - apply Nat.leb_gt in E. constructor; [done|].
    constructor; [apply delay_in_range|]. constructor. split; cbn; lia.
Qed.

Lemma connect_within wt u :
  within_attempts u -> respects within_attempts delay_ok (Upstream.connect wt u).
Proof.
  intros H. unfold Upstream.connect.
  destruct (Upstream.ws u && Upstream.isConnected u); [repeat (constructor; try done)|].
  constructor; [done|]. destruct (wt _ _).
  - constructor; [done|]. by apply scheduleReconnect_within.
  - repeat (constructor; try done).
Qed.

Lemma methods_within wt ev k m u :
  link_method wt ev = Some (k, m) -> within_attempts u ->
  respects within_attempts delay_ok (m u).
Proof.
  intros Hl H. destruct ev; cbn in Hl; simplify_eq.
  - destruct H as [H1 H2]. constructor; [done|].
    constructor; [|by constructor]. split; cbn; [lia|done].
  - repeat (constructor; try done).
  - repeat (constructor; try done).
  - constructor; [done|]. constructor; [done|].
    intros u' Hu'. destruct (Upstream.closed u'); [by constructor|].
    by apply scheduleReconnect_within.
  - unfold Upstream.on_timer. by apply connect_within.
Qed.

(** X9: whatever happens, no link of a session ever counts more than its ten
    reconnection attempts, and every reconnection timer the proxy sets is
    between 5000 and 60000 ms. *)
Theorem reconnection_within_bounds (wt : string -> option string -> bool)
    (primaryUrl : string) (secondaryUrl : option string) (nf : Notifier)
    (evs : list Event) :
  let r := run wt evs (start primaryUrl secondaryUrl nf) in
  Forall (links_ok within_attempts) (sessions (fst r)) /\
  Forall (output_ok delay_ok) (snd r).
Proof.
  apply (run_all within_attempts delay_ok wt (build_upstreams primaryUrl secondaryUrl)).
  - intros u data _. apply send_delay_ok.
  - apply close_within.
  - apply methods_within.
  - apply connect_within.
  - intros name url id p ip _ _ _. split; cbn; [lia|done].
  - reflexivity.
  - constructor.
Qed.

(** ** The links of a session *)

Lemma Forall2_evolves_names l l' n :
  Forall2 evolves l l' ->
  Forall (fun s => names s = n) l -> Forall (fun s => names s = n) l'.
Proof.
  induction 1 as [|s s' l l' (_ & _ & Hn & _) Hl IH]; [done|].
  intros H. apply Forall_cons in H as [H1 H2]. constructor; [congruence|by apply IH].
Qed.

Lemma step_names wt ev this :
  Forall (fun s => names s = (config_upstreams this).*1) (sessions this) ->
  let this' := fst (step wt ev this) in
  config_upstreams this' = config_upstreams this /\
  Forall (fun s => names s = (config_upstreams this).*1) (sessions this').
Proof.
  intros H. destruct ev as [request wsProtocol|ws ev|]; cbn [step].
  - unfold handleClientConnection. cbv zeta.
    cbn [nextWs sessions notifier config_upstreams].
    destruct (path_match _) as [id|]; [|done].
    pose proof (closeExisting_evolves (nextWs this) id (sessions this)) as Hc.
    destruct (closeExisting (nextWs this) id (sessions this)) as [l1 e1].
    match goal with |- context [connect_all wt ?nf ?n ?k ?s] =>
      pose proof (connect_all_evolves wt nf n k s) as He;
      destruct (connect_all wt nf n k s) as [new e2] end.
    cbn in *. split; [done|]. apply Forall_app. split.
    + by eapply Forall2_evolves_names.
    + constructor; [|constructor]. destruct He as (_ & _ & Hn & _). rewrite Hn.
      unfold names. cbn. rewrite <- list_fmap_compose. by apply list_fmap_ext.
  - pose proof (on_session_evolves ws (handle wt (notifier this) ev) (sessions this)
                  (handle_evolves wt (notifier this) ev)) as Ho.
    destruct (on_session ws _ (sessions this)) as [l e]. cbn in *.
    split; [done|]. by eapply Forall2_evolves_names.
  - unfold stop. pose proof (cleanup_all_evolves (sessions this)) as Hc.
    destruct (cleanup_all (sessions this)) as [l e]. cbn in *.
    split; [done|]. by eapply Forall2_evolves_names.
Qed.

(** X10: whatever happens, every session has its links in the order of the
    configuration index.js builds: the primary, named PRI, at position 0,
    followed by the secondary, named SEC, exactly when a non-empty
    [secondaryUrl] is configured; so a session has one or two links and
    never loses, gains or renames one. *)
Theorem session_links_as_configured (wt : string -> option string -> bool)
    (primaryUrl : string) (secondaryUrl : option string) (nf : Notifier)
    (evs : list Event) :
  Forall (fun s => names s = "PRI" :: match or_else secondaryUrl None with
                                      | Some _ => ["SEC"]
                                      | None => []
                                      end)
         (sessions (fst (run wt evs (start primaryUrl secondaryUrl nf)))).
Proof.
  assert (forall this,
            Forall (fun s => names s = (config_upstreams this).*1) (sessions this) ->
            Forall (fun s => names s = (config_upstreams this).*1)
                   (sessions (fst (run wt evs this)))) as H.
  { induction evs as [|ev evs IH]; intros this Hf; cbn; [done|].
    destruct (step_names wt ev this Hf) as [Hc Hs].
    destruct (step wt ev this) as [this1 e1]. cbn in *.
    specialize (IH this1). rewrite Hc in IH. specialize (IH Hs).
    by destruct (run wt evs this1). }
  specialize (H (start primaryUrl secondaryUrl nf) (Forall_nil_2 _)).
  eapply Forall_impl; [exact H|]. intros s ->. cbn. unfold build_upstreams.
  by destruct (or_else secondaryUrl None).
Qed.

(** ** Sessions torn down *)

Lemma send_shut u data : shut u -> Forall only_logs (snd (Upstream.send u data)).
Proof.
  intros (_ & _ & Hc & _). unfold Upstream.send. rewrite Hc. by repeat constructor.
Qed.

Lemma close_shut u :
  shut u -> shut (fst (Upstream.close u)) /\ Forall only_logs (snd (Upstream.close u)).
Proof.
  intros (Hc & Hw & Hi & Ht). unfold Upstream.close.
  destruct u as [? ? ? ? ? w ? ? ? ? ? t]. cbn in *. subst. cbn.
  split; [done|by repeat constructor].
Qed.

Lemma handle_shut wt nf ev s :
  deliverable ev s -> links_ok shut s ->
  links_ok shut (fst (handle wt nf ev s)) /\
  Forall (effect_ok only_logs) (snd (handle wt nf ev s)).
Proof.
  intros Hd H. apply (handle_respects shut only_logs send_shut close_shut); [done|].
  intros k m u Hl Hk.
  assert (shut u) as Hu by (unfold links_ok in H; rewrite Forall_lookup in H; eauto).
  destruct ev; cbn in Hl; simplify_eq.
  - specialize (Hd u Hk). destruct Hu as (_ & Hw & _). congruence.
  - repeat (constructor; try done).
  - repeat (constructor; try done).
  - constructor; [done|]. constructor; [by destruct Hu as (? & ? & ? & ?)|].
    intros u' Hu'. destruct (Hu') as (Hc & _). rewrite Hc. by constructor.
  - specialize (Hd u Hk). destruct Hu as (_ & _ & _ & Ht). rewrite Ht in Hd.
    by destruct Hd.
Qed.

Lemma cleanup_shut s :
  registered s = true -> links_ok shut (fst (cleanupClientConnection s)).
Proof.
  intros Hr. destruct (cleanup_registered s Hr) as (_ & _ & H).
  eapply Forall_impl; [exact H|]. by intros u (? & ? & ? & ?).
Qed.

(** X12: a session that was cleaned up stays down.  Through every sequence of
    events the runtime can still deliver to it (frames, errors and closes of
    its old sockets, frames of its client), it is never registered again, its
    links stay closed without socket or timer, and nothing is done on the
    upstream side but logging: no socket is opened, no frame written, no
    reconnection scheduled. *)
Theorem torn_down_session_stays_down (wt : string -> option string -> bool)
    (nf : Notifier) (evs : list SessionEvent) (s : Session) :
  registered s = true ->
  let down := fst (cleanupClientConnection s) in
  deliverable_run wt nf evs down ->
  let r := session_run wt nf evs down in
  registered (fst r) = false /\ links_ok shut (fst r) /\
  Forall (effect_ok only_logs) (snd r).
Proof.
  intros Hr down Hd r. subst r.
  assert (registered down = false) as Hu by apply cleanup_unregistered.
  pose proof (cleanup_shut s Hr) as Hs. fold down in Hs.
  clearbody down. clear Hr s. split.
  - destruct (session_run_evolves wt nf evs down) as (_ & _ & _ & He).
    destruct (registered (fst (session_run wt nf evs down))); [|done].
    destruct (He eq_refl) as [He' _]. congruence.
  - clear Hu. revert down Hd Hs. induction evs as [|ev evs IH]; intros s [] Hs; cbn.
    + by split.
    + destruct (handle_shut wt nf ev s) as [H1 H2]; [done..|].
      destruct (handle wt nf ev s) as [s1 e1]. cbn in *.
      destruct (IH s1) as [H3 H4]; [done..|].
      destruct (session_run wt nf evs s1) as [s2 e2]. cbn in *. split; [done|].
      apply Forall_app. by split.
Qed.

(** ** Which way frames go *)

Lemma broadcast_effects data s k l pre :
  upstreams s = pre ++ l -> length pre = k ->
  Forall (client_frame_effect data s) (broadcast data k l).
Proof.
  revert k pre. induction l as [|u l IH]; intros k pre Hs Hk; cbn; [constructor|].
  apply Forall_app. split.
  - destruct (Upstream.isConnected u) eqn:Hc; [|by repeat constructor].
    unfold Upstream.send. rewrite Hc. cbn.
    destruct (Upstream.ws u) eqn:Hw; cbn; repeat constructor.
    exists u. split; [|done]. rewrite Hs, <- Hk. by rewrite list_lookup_middle.
  - apply (IH (S k) (pre ++ [u])).
    + by rewrite <- app_assoc.
    + rewrite length_app. cbn. lia.
Qed.

Lemma client_frame_effect_logs msg s l : Forall (client_frame_effect msg s) (logs l).
Proof. unfold logs. apply Forall_fmap. by apply Forall_true. Qed.

Lemma handleClientMessage_effects nf msg s :
  Forall (client_frame_effect msg s) (snd (handleClientMessage nf msg s)).
Proof.
  pose proof (broadcast_effects msg s 0 (upstreams s) [] eq_refl eq_refl) as Hb.
  unfold handleClientMessage.
  destruct (parseMessage (stamps s) msg) as [[m|] l0]; cbn.
  2:{ apply Forall_app. split; [apply client_frame_effect_logs|by repeat constructor]. }
  destruct (routeClientMessage (router s) (Some m)) as [[[routing|] r1] l1]; cbn.
  2:{ rewrite ?Forall_app; repeat split; auto using client_frame_effect_logs.
      by repeat constructor. }
  destruct (sendToAll routing).
  - destruct (strict_eq_num (type m) 2); cbn.
    + destruct (registerClientCall _ _) as [[[[]|] r2] l2]; cbn.
      2:{ rewrite ?Forall_app; repeat split; auto using client_frame_effect_logs.
          by repeat constructor. }
      destruct nf as [throws|]; cbn.
      2:{ rewrite ?Forall_app; repeat split; auto using client_frame_effect_logs. }
      destruct (negb (registered s)); cbn.
      { rewrite ?Forall_app; repeat split; auto using client_frame_effect_logs.
        by repeat constructor. }
      destruct (throws _ _); cbn;
        rewrite ?Forall_app, ?Forall_cons; repeat split;
        auto using client_frame_effect_logs; try (by repeat constructor).
    + rewrite ?Forall_app; repeat split; auto using client_frame_effect_logs.
  - destruct (sendToServer routing) as [target|]; cbn;
      [|rewrite ?Forall_app; repeat split; auto using client_frame_effect_logs].
    destruct (truthy target); cbn;
      [|rewrite ?Forall_app; repeat split; auto using client_frame_effect_logs].
    destruct (list_find _ (upstreams s)) as [[k u]|] eqn:Hf; cbn.
    + apply list_find_Some in Hf as (Hk & _).
      destruct (Upstream.isConnected u) eqn:Hc; cbn;
        rewrite ?Forall_app; repeat split; auto using client_frame_effect_logs;
        try (by repeat constructor).
      unfold Upstream.send. rewrite Hc. cbn.
      destruct (Upstream.ws u) eqn:Hw; cbn; repeat constructor. by exists u.
    + rewrite ?Forall_app; repeat split; auto using client_frame_effect_logs.
      by repeat constructor.
Qed.

(** X3: a frame of the client never comes back to the client and is never
    altered.  Whatever the frame and the state of the session, the client
    message handler writes nothing to the client socket and does not close
    it; every frame it writes upstream is the received frame itself, on a
    link that is connected and holds its socket; and it leaves the links, the
    registration and the state of the client socket as they were. *)
Theorem client_frame_goes_upstream_only (nf : Notifier) (msg : string) (s : Session) :
  let r := onClientMessage nf msg s in
  Forall (client_frame_effect msg s) (snd r) /\
  upstreams (fst r) = upstreams s /\ registered (fst r) = registered s /\
  readyState (fst r) = readyState s.
Proof.
  unfold onClientMessage.
  destruct (registered s && negb (existsb Upstream.isConnected (upstreams s))).
  - cbn. repeat split. by repeat constructor.
  - split; [apply handleClientMessage_effects|].
    by destruct (handleClientMessage_shape nf msg s) as (r' & -> & _).
Qed.

Lemma upstream_frame_effect_logs data l : Forall (upstream_frame_effect data) (logs l).
Proof. unfold logs. apply Forall_fmap. by apply Forall_true. Qed.

Lemma handleUpstreamMessage_effects data n s :
  Forall (upstream_frame_effect data) (snd (handleUpstreamMessage data n s)).
Proof.
  assert (Forall (upstream_frame_effect data)
            (if bool_decide (readyState s = OPEN) then [ClientSend data] else [])) as Hr
    by (destruct (bool_decide _); by repeat constructor).
  assert (Forall (upstream_frame_effect data) [ThrowTypeError]) as Hthrow
    by (by repeat constructor).
  unfold handleUpstreamMessage.
  destruct (parseMessage (stamps s) data) as [[m|] l0]; cbn.
  2:{ rewrite ?Forall_app. repeat split; auto using upstream_frame_effect_logs. }
  destruct (handleServerMessage (router s) (Some m) n) as [[[[]|] r1] l1]; cbn.
  2:{ rewrite ?Forall_app. repeat split; auto using upstream_frame_effect_logs. }
  destruct (strict_eq_num (type m) 3 || strict_eq_num (type m) 4); cbn.
  2:{ rewrite ?Forall_app. repeat split; auto using upstream_frame_effect_logs. }
  destruct (registered s); [destruct (upstreams s)|]; cbn.
  - rewrite ?Forall_app. repeat split; auto using upstream_frame_effect_logs.
  - destruct (shouldRelayResponseToClient _ _ _ _) as [[[]|] l2];
      cbn; rewrite ?Forall_app; repeat split;
      auto using upstream_frame_effect_logs.
  - destruct (shouldRelayResponseToClient _ _ _ _) as [[[]|] l2];
      cbn; rewrite ?Forall_app; repeat split;
      auto using upstream_frame_effect_logs.
Qed.

Lemma handleUpstreamMessage_sends data n s :
  client_sends (snd (handleUpstreamMessage data n s)) = [] \/
  client_sends (snd (handleUpstreamMessage data n s)) = [data].
Proof.
  assert (client_sends (if bool_decide (readyState s = OPEN)
                        then [ClientSend data] else []) = [] \/
          client_sends (if bool_decide (readyState s = OPEN)
                        then [ClientSend data] else []) = [data]) as Hr
    by (destruct (bool_decide _); cbn; auto).
  unfold handleUpstreamMessage.
  destruct (parseMessage (stamps s) data) as [[m|] l0]; cbn.
  2:{ by rewrite !client_sends_app, !client_sends_logs. }
  destruct (handleServerMessage (router s) (Some m) n) as [[[[]|] r1] l1]; cbn.
  2:{ rewrite !client_sends_app, !client_sends_logs. by left. }
  destruct (strict_eq_num (type m) 3 || strict_eq_num (type m) 4); cbn.
  2:{ by rewrite !client_sends_app, !client_sends_logs. }
  destruct (registered s); [destruct (upstreams s)|]; cbn.
  - rewrite !client_sends_app, !client_sends_logs. by left.
  - destruct (shouldRelayResponseToClient _ _ _ _) as [[[]|] l2];
      cbn; rewrite !client_sends_app, !client_sends_logs; auto.
  - destruct (shouldRelayResponseToClient _ _ _ _) as [[[]|] l2];
      cbn; rewrite !client_sends_app, !client_sends_logs; auto.
Qed.

(** X4: a frame of an upstream goes to the client or nowhere, and is never
    altered.  Whatever the frame, the link it arrives on and the state of
    the session, the message handler of the link does nothing on any
    upstream link (no write, nothing opened, closed or scheduled), writes to
    the client socket nothing but the received frame itself, and that at
    most once; it leaves the links, the buffer, the registration, the state
    of the client socket and [clientCallIds] as they were. *)
Theorem upstream_frame_goes_to_client_only (nf : Notifier) (k : nat) (data : string)
    (s : Session) :
  let r := on_link nf k (Upstream.on_message data) s in
  Forall (upstream_frame_effect data) (snd r) /\
  length (client_sends (snd r)) <= 1 /\
  upstreams (fst r) = upstreams s /\ messageBuffer (fst r) = messageBuffer s /\
  registered (fst r) = registered s /\ readyState (fst r) = readyState s /\
  clientCallIds (router (fst r)) = clientCallIds (router s).
Proof.
  intros r. subst r.
  destruct (upstreams s !! k) as [u|] eqn:Hk.
  - rewrite (on_message_link nf k u data s Hk).
    split; [by apply handleUpstreamMessage_effects|]. split.
    + destruct (handleUpstreamMessage_sends data (Upstream.name u) s) as [-> | ->];
        cbn; lia.
    + by destruct (handleUpstreamMessage_shape data (Upstream.name u) s)
        as (r' & -> & Hc).
  - unfold on_link. rewrite Hk. cbn. repeat split; [constructor|lia].
Qed.

(** ** Frames that are no replies, frames that cannot be routed *)

Lemma handleUpstreamMessage_other data n m s :
  fst (parseMessage (stamps s) data) = Some m ->
  strict_eq_num (type m) 3 || strict_eq_num (type m) 4 = false ->
  handleUpstreamMessage data n s =
    (set_router (snd (fst (handleServerMessage (router s) (Some m) n)))
       (set_stamps (S (stamps s)) s),
     logs (snd (handleServerMessage (router s) (Some m) n))
     ++ match fst (fst (handleServerMessage (router s) (Some m) n)) with
        | Some _ => if bool_decide (readyState s = OPEN) then [ClientSend data] else []
        | None => [ThrowTypeError]
        end).
Proof.
  intros Hp Ht. unfold handleUpstreamMessage.
  pose proof (parseMessage_logs _ _ _ Hp) as Hl.
  destruct (parseMessage (stamps s) data) as [m' l0]. cbn in Hp, Hl. subst m' l0.
  destruct s as [cw rs reg us r cid proto buf st]. cbn.
  destruct (handleServerMessage r (Some m) n) as [[[[]|] r1] l1]; cbn; [|done].
  by rewrite Ht.
Qed.

Lemma handleServerMessage_done r m n :
  fst (fst (handleServerMessage r (Some m) n)) =
    if renders (type m) && key_renders (messageId m) then Some tt else None.
Proof.
  unfold handleServerMessage, registerServerCall, template.
  destruct (strict_eq_num (type m) 2); destruct (key_renders (messageId m));
    destruct (renders (type m)); reflexivity.
Qed.

(** X5: a frame of an upstream that parses and is neither a CALLRESULT nor a
    CALLERROR (a CALL, or a frame of a type the protocol does not know) is
    relayed to the client by whichever link receives it, primary or not and
    whatever [clientCallIds] holds, exactly when the client socket is OPEN
    and the type and the id of the frame convert to strings: the router
    interpolates both in a log line, and the handler throws before the relay
    when one of them does not convert.  A frame that is no CALL leaves the
    router as it was. *)
Theorem upstream_call_reaches_client (nf : Notifier) (k : nat)
    (u : Upstream.UpstreamConnection) (data : string) (m : Message) (s : Session) :
  upstreams s !! k = Some u ->
  fst (parseMessage (stamps s) data) = Some m ->
  strict_eq_num (type m) 3 || strict_eq_num (type m) 4 = false ->
  let r := on_link nf k (Upstream.on_message data) s in
  client_sends (snd r) =
    (if bool_decide (readyState s = OPEN)
        && (renders (type m) && key_renders (messageId m))
     then [data] else []) /\
  (strict_eq_num (type m) 2 = false -> router (fst r) = router s).
Proof.
  intros Hk Hp Ht r. subst r. rewrite (on_message_link nf k u data s Hk).
  rewrite (handleUpstreamMessage_other data _ m s Hp Ht). cbn [fst snd]. split.
  - rewrite client_sends_app, client_sends_logs, handleServerMessage_done.
    destruct (renders (type m) && key_renders (messageId m));
      by destruct (bool_decide _).
  - intros H2. unfold handleServerMessage, template. rewrite H2.
    destruct (renders (type m) && key_renders (messageId m)); by destruct s.
Qed.

Lemma handleClientMessage_unknown nf data m s :
  fst (parseMessage (stamps s) data) = Some m ->
  strict_eq_num (type m) 2 = false ->
  strict_eq_num (type m) 3 || strict_eq_num (type m) 4 = false ->
  handleClientMessage nf data s =
    (set_stamps (S (stamps s)) s,
     [if renders (type m) then Log (UnknownMessageType (type m)) else ThrowTypeError]).
Proof.
  intros Hp H2 H34. unfold handleClientMessage.
  pose proof (parseMessage_logs _ _ _ Hp) as Hl.
  destruct (parseMessage (stamps s) data) as [m' l0]. cbn in Hp, Hl. subst m' l0.
  unfold routeClientMessage, template. rewrite H2, H34.
  destruct (renders (type m)); cbn; by destruct s.
Qed.

(** X2: a frame of the client that cannot be routed is dropped.  If it does
    not parse into a message (no JSON, no array, fewer than two elements),
    or parses with a type other than 2, 3 and 4 (as the binary64 it parses
    to, if it is a number), handling it writes to no socket and leaves the
    router and the links as they were; it logs one line at level warn,
    unless the type of the frame has no conversion to a string: the log line
    interpolates it, and the handler throws a TypeError instead. *)
Theorem unroutable_client_frame_dropped (nf : Notifier) (data : string) (s : Session) :
  (fst (parseMessage (stamps s) data) = None ->
   handleClientMessage nf data s =
     (set_stamps (S (stamps s)) s,
      logs (snd (parseMessage (stamps s) data)) ++ [Log InvalidClientMessage])) /\
  (forall m,
     fst (parseMessage (stamps s) data) = Some m ->
     strict_eq_num (type m) 2 = false ->
     strict_eq_num (type m) 3 || strict_eq_num (type m) 4 = false ->
     handleClientMessage nf data s =
       (set_stamps (S (stamps s)) s,
        [if renders (type m) then Log (UnknownMessageType (type m))
         else ThrowTypeError])) /\
  level InvalidClientMessage = warn /\
  (forall t, level (UnknownMessageType t) = warn).
Proof.
  repeat split.
  - intros Hp. unfold handleClientMessage.
    destruct (parseMessage (stamps s) data) as [m' l0]. cbn in Hp. by subst m'.
  - intros m. apply handleClientMessage_unknown.
Qed.

Lemma handleClientMessage_reply nf data m s :
  fst (parseMessage (stamps s) data) = Some m ->
  strict_eq_num (type m) 3 || strict_eq_num (type m) 4 = true ->
  handleClientMessage nf data s =
    match messageIdToServer (router s) !! messageId m with
    | Some target =>
        if truthy target then
          (set_router {| messageIdToServer := delete (messageId m) (messageIdToServer (router s));
                         clientCallIds := clientCallIds (router s) |}
             (set_stamps (S (stamps s)) s),
           if key_renders (messageId m) then
             logs [ResponseShouldGoTo (messageId m) target;
                   ReplyRoutedTo (type m) (messageId m) target]
             ++ match list_find (fun u => Upstream.name u = target) (upstreams s) with
                | Some (k, targetUpstream) =>
                    if Upstream.isConnected targetUpstream
                    then ups k (snd (Upstream.send targetUpstream data))
                    else [Log (TargetNotFound target)]
                | None => [Log (TargetNotFound target)]
                end
           else [ThrowTypeError])
        else (set_stamps (S (stamps s)) s,
              [if key_renders (messageId m) then Log (NoServerMapping (messageId m))
               else ThrowTypeError])
    | None => (set_stamps (S (stamps s)) s,
               [if key_renders (messageId m) then Log (NoServerMapping (messageId m))
                else ThrowTypeError])
    end.
Proof.
  intros Hp Ht. unfold handleClientMessage.
  pose proof (parseMessage_logs _ _ _ Hp) as Hl.
  destruct (parseMessage (stamps s) data) as [m' l0]. cbn in Hp, Hl. subst m' l0.
  unfold routeClientMessage, getServerForResponse, template.
  rewrite (reply_not_call _ Ht), Ht.
  destruct s as [cw rs reg us r cid proto buf st]. cbn.
  destruct (messageIdToServer r !! messageId m) as [target|];
    [|by destruct (key_renders (messageId m))].
  destruct (truthy target) eqn:E;
    [|by rewrite ?E; destruct (key_renders (messageId m)); simpl; rewrite ?E].
  destruct (key_renders (messageId m)); [|done].
  rewrite ?E. simpl. rewrite ?E. simpl. rewrite ?E.
  destruct (list_find _ us) as [[k u]|]; [|done].
  by destruct (Upstream.isConnected u).
Qed.

(** An id found again in a frame of another [JSON.parse] is a primitive
    (an array or an object is equal only to itself), and converts to a
    string. *)
Lemma same_id_renders stamp stamp' data data' m m' :
  stamp <> stamp' ->
  fst (parseMessage stamp data) = Some m ->
  fst (parseMessage stamp' data') = Some m' ->
  messageId m' = messageId m ->
  key_renders (messageId m) = true.
Proof.
  intros Hs Hp Hp' Hid.
  apply parseMessage_Some in Hp as (t & i & rest & _ & ->).
  apply parseMessage_Some in Hp' as (t' & i' & rest' & _ & ->).
  cbn in *. destruct i; cbn in *; try done.
  - by destruct (binary64 m e).
  - destruct i'; cbn in Hid; try done; try (by destruct (binary64 _ _)); congruence.
  - destruct i'; cbn in Hid; try done; try (by destruct (binary64 _ _)); congruence.
Qed.

(** X1: the entry an upstream CALL leaves in [messageIdToServer] serves one
    reply.  Once a reply of the client with id [i] has been routed by the
    entry of [i], a further reply of the client with the same id finds no
    entry: it is written to no upstream and logged as having no server
    mapping. *)
Theorem client_reply_routed_once (nf : Notifier) (data data' : string) (m m' : Message)
    (target : string) (s : Session) :
  fst (parseMessage (stamps s) data) = Some m ->
  strict_eq_num (type m) 3 || strict_eq_num (type m) 4 = true ->
  messageIdToServer (router s) !! messageId m = Some target ->
  truthy target = true ->
  let s1 := fst (handleClientMessage nf data s) in
  fst (parseMessage (stamps s1) data') = Some m' ->
  strict_eq_num (type m') 3 || strict_eq_num (type m') 4 = true ->
  messageId m' = messageId m ->
  messageIdToServer (router s1) !! messageId m = None /\
  handleClientMessage nf data' s1 =
    (set_stamps (S (stamps s1)) s1, [Log (NoServerMapping (messageId m))]).
Proof.
  intros Hp Ht He Htr s1 Hp' Ht' Hid.
  assert (messageIdToServer (router s1) !! messageId m = None) as Hnone.
  { subst s1. rewrite (handleClientMessage_reply nf data m s Hp Ht), He, Htr. cbn.
    destruct s. cbn. apply lookup_delete_eq. }
  assert (key_renders (messageId m) = true) as Hk.
  { apply (same_id_renders (stamps s) (stamps s1) data data' m m'); try done.
    subst s1. destruct (handleClientMessage_shape nf data s) as (r' & -> & _).
    cbn. lia. }
  split; [done|].
  rewrite (handleClientMessage_reply nf data' m' s1 Hp' Ht'), Hid, Hnone. by rewrite Hk.
Qed.

(** ** The buffer when the primary opens *)

Lemma key_renders_key_of stamp v : key_renders (key_of stamp v) = renders v.
Proof. destruct v; cbn; try done. by destruct (binary64 m e). Qed.

Lemma sound_call_parse nf clientId data stamp :
  sound_call nf clientId data ->
  exists m, fst (parseMessage stamp data) = Some m /\
            strict_eq_num (type m) 2 = true /\
            key_renders (messageId m) = true /\
            hook_returns nf clientId data.
Proof.
  intros (t & i & rest & Hj & Ht & Hi & Hh). eexists. split.
  - apply parseMessage_Some. by exists t, i, rest.
  - cbn. by rewrite key_renders_key_of.
Qed.

Lemma feed_calls nf msgs s :
  registered s = true -> Forall holds_socket (upstreams s) ->
  Forall (sound_call nf (clientId s)) msgs ->
  upstream_writes (snd (feed nf msgs s)) =
    flat_map (fun msg => (fun k => (k, msg)) <$> connected_from 0 (upstreams s)) msgs /\
  threw (snd (feed nf msgs s)) = false /\
  registered (fst (feed nf msgs s)) = true /\
  messageBuffer (fst (feed nf msgs s)) = messageBuffer s.
Proof.
  intros Hr Hh Hm. revert s Hr Hh Hm.
  induction msgs as [|msg msgs IH]; intros s Hr Hh Hm; cbn; [done|].
  apply Forall_cons in Hm as [Hmsg Hm].
  destruct (sound_call_parse _ _ _ (stamps s) Hmsg) as (m & Hp & Ht & Hk & Hhook).
  rewrite (handleClientMessage_call nf msg m s Hr Hp Ht Hk Hhook).
  rewrite !threw_app, !threw_logs, threw_notify, threw_broadcast. cbn [orb].
  specialize (IH (set_router (snd (fst (registerClientCall (router s) (messageId m))))
                    (set_stamps (S (stamps s)) s)) Hr Hh Hm).
  destruct (feed nf msgs _) as [s2 e2]. cbn [fst snd] in *.
  change (upstreams (set_router _ _)) with (upstreams s) in IH.
  change (messageBuffer (set_router _ _)) with (messageBuffer s) in IH.
  destruct IH as (IH & Hth & Hreg & Hbuf).
  rewrite !upstream_writes_app, IH, !upstream_writes_logs. cbn [app].
  rewrite upstream_writes_notify, upstream_writes_broadcast by done. cbn [app].
  rewrite !threw_app, !threw_logs, threw_notify, threw_broadcast, Hth.
  done.
Qed.

Lemma upstream_writes_flush s :
  upstream_writes (snd (flushMessageBufferIfAllConnected s)) = [].
Proof. unfold flushMessageBufferIfAllConnected. by repeat case_match. Qed.

Lemma flush_buffer s :
  registered s = true -> messageBuffer s <> [] ->
  (messageBuffer (fst (flushMessageBufferIfAllConnected s)) = []
   <-> Forall resolved (upstreams s)) /\
  (~ Forall resolved (upstreams s) ->
   messageBuffer (fst (flushMessageBufferIfAllConnected s)) = messageBuffer s) /\
  upstreams (fst (flushMessageBufferIfAllConnected s)) = upstreams s.
Proof.
  intros Hr Hb. unfold flushMessageBufferIfAllConnected.
  rewrite Hr, (length_nonempty _ Hb). cbn [negb orb].
  destruct (forallb _ (upstreams s)) eqn:Hf.
  - apply resolved_forallb in Hf. split; [done|]. split; [by intros []|by destruct s].
  - assert (~ Forall resolved (upstreams s)) as Hn.
    { intros H. apply resolved_forallb in H. congruence. }
    cbn. split; [|done]. split; [done|by intros].
Qed.

(** The primary opens on a buffer of calls the handler gets through. *)
Lemma primary_open_calls nf u s :
  registered s = true ->
  upstreams s !! 0 = Some u -> Upstream.ws u = true ->
  Forall holds_socket (upstreams s) ->
  messageBuffer s <> [] ->
  Forall (sound_call nf (clientId s)) (messageBuffer s) ->
  let opened := <[0 := Upstream.set_reconnectAttempts 0
                         (Upstream.set_wasEverConnected true
                            (Upstream.set_isConnected true u))]> (upstreams s) in
  let r := on_link nf 0 Upstream.on_open s in
  upstream_writes (snd r) =
    flat_map (fun msg => (fun k => (k, msg)) <$> connected_from 0 opened)
             (messageBuffer s) /\
  upstreams (fst r) = opened /\
  (messageBuffer (fst r) = [] <-> Forall resolved opened) /\
  (~ Forall resolved opened -> messageBuffer (fst r) = messageBuffer s).
Proof.
  intros Hr Hk Hw Hh Hne Hm opened r. subst r.
  rewrite (on_open_link nf 0 u s Hk). cbn [fst snd callback].
  fold opened. set (s0 := set_upstreams opened s).
  assert (Forall holds_socket (upstreams s0)) as Hh0.
  { subst s0 opened. cbn. apply Forall_insert; [done|]. by intros _. }
  unfold sendBufferToUpstream.
  change (registered s0) with (registered s). rewrite Hr.
  change (messageBuffer s0) with (messageBuffer s).
  rewrite (length_nonempty _ Hne). cbn [negb orb].
  assert (upstreams s0 !! 0 = Some (Upstream.set_reconnectAttempts 0
            (Upstream.set_wasEverConnected true (Upstream.set_isConnected true u))))
    as -> by (subst s0 opened; cbn; apply list_lookup_insert_eq; by eapply lookup_lt_Some).
  cbn [Nat.eqb].
  destruct (feed_calls nf (messageBuffer s) s0 Hr Hh0 Hm) as (Hf & Hth & Hreg & Hbuf).
  pose proof (feed_upstreams nf (messageBuffer s) s0) as Hup.
  destruct (feed nf (messageBuffer s) s0) as [s1 e1]. cbn [fst snd] in *.
  change (threw (Log ?l :: e1)) with (threw e1). rewrite Hth.
  assert (messageBuffer s1 <> []) as Hne1 by (by rewrite Hbuf).
  destruct (flush_buffer s1 Hreg Hne1) as (Hfl1 & Hfl2 & Hfl3).
  pose proof (upstream_writes_flush s1) as Hfw.
  destruct (flushMessageBufferIfAllConnected s1) as [s2 e2]. cbn [fst snd] in *.
  change (upstream_writes (Up 0 (Upstream.LLog ?l) :: ?e)) with (upstream_writes e).
  rewrite !upstream_writes_app.
  change (upstream_writes (Log ?l :: e1)) with (upstream_writes e1).
  rewrite upstream_writes_notify, app_nil_r, Hf, Hfw, app_nil_r.
  change (messageBuffer s0) with (messageBuffer s) in Hbuf.
  change (upstreams s0) with opened in Hup.
  rewrite Hfl3, Hup, Hbuf in *. done.
Qed.

(** X17: when the primary opens while frames are buffered, every buffered
    frame goes, in the order of arrival, to every link that is connected at
    that moment: to the primary, and also to a secondary that opened
    earlier, although the buffer was written to that secondary when it
    opened.  This holds of a buffer of CALLs that the handler gets through:
    the id of each converts to a string and the notifier's hook returns for
    each (the loop over the buffer ends at the first frame on which the
    handler throws). *)
Theorem buffered_calls_fan_out_at_primary_open (nf : Notifier)
    (u : Upstream.UpstreamConnection) (s : Session) :
  registered s = true ->
  upstreams s !! 0 = Some u -> Upstream.ws u = true ->
  Forall holds_socket (upstreams s) ->
  messageBuffer s <> [] ->
  Forall (sound_call nf (clientId s)) (messageBuffer s) ->
  let opened := <[0 := Upstream.set_isConnected true u]> (upstreams s) in
  upstream_writes (snd (on_link nf 0 Upstream.on_open s)) =
    flat_map (fun msg => (fun k => (k, msg)) <$> connected_from 0 opened)
             (messageBuffer s).
Proof.
  intros Hr Hk Hw Hh Hne Hm opened.
  destruct (primary_open_calls nf u s Hr Hk Hw Hh Hne Hm) as (-> & _).
  assert (connected_from 0 (<[0 := Upstream.set_reconnectAttempts 0
                                (Upstream.set_wasEverConnected true
                                   (Upstream.set_isConnected true u))]> (upstreams s))
          = connected_from 0 opened) as ->; [|done].
  subst opened. destruct (upstreams s) as [|u0 l]; [done|]. cbn in *.
  by simplify_eq.
Qed.

Lemma writes_to_app k e1 e2 : writes_to k (e1 ++ e2) = writes_to k e1 ++ writes_to k e2.
Proof. apply omap_app. Qed.





(** ** Connections of clients *)

Lemma strip_slashes_id id :
  id <> EmptyString -> forallb is_id_char (list_ascii_of_string id) = true ->
  strip_slashes id = id.
Proof.
  destruct id as [|c id]; [done|]. intros _ H. cbn in *.
  apply andb_true_iff in H as [H _].
  destruct (Ascii.eqb c "/") eqn:E; [|done].
  apply Ascii.eqb_eq in E. subst c. by vm_compute in H.
Qed.

Lemma strip_slashes_slashes n s : strip_slashes (slashes n +:+ s) = strip_slashes s.
Proof. induction n as [|n IH]; [done|]. cbn. exact IH. Qed.

Lemma strip_slashes_prefix s : exists n, s = slashes n +:+ strip_slashes s.
Proof.
  induction s as [|c s [n IH]]; [by exists 0|]. cbn.
  destruct (Ascii.eqb c "/") eqn:E.
  - apply Ascii.eqb_eq in E. subst c. exists (S n).
    change (String "/" s = String "/" (slashes n +:+ strip_slashes s)). by f_equal.
  - by exists 0.
Qed.

Lemma path_match_Some x id :
  path_match x = Some id <->
  x = id /\ id <> EmptyString /\ forallb is_id_char (list_ascii_of_string id) = true.
Proof.
  unfold path_match, truthy. split.
  - destruct (negb (String.eqb x "") && _) eqn:E; [|done]. intros [= <-].
    apply andb_true_iff in E as [E1 E2]. repeat split; [|done].
    intros ->. by cbn in E1.
  - intros (-> & Hne & Hc). rewrite Hc.
    destruct (String.eqb id "") eqn:E; [|done]. by apply String.eqb_eq in E.
Qed.

Lemma path_match_single_level rawPath id :
  path_match (strip_slashes rawPath) = Some id <-> single_level rawPath id.
Proof.
  rewrite path_match_Some. unfold single_level. split.
  - intros (Hs & Hne & Hc). repeat split; [|done..].
    destruct (strip_slashes_prefix rawPath) as [n Hn]. exists n. by rewrite <- Hs.
  - intros ([n ->] & Hne & Hc). repeat split; [|done..].
    rewrite strip_slashes_slashes. by apply strip_slashes_id.
Qed.

(** X6: a client connection is accepted exactly when the path of its request
    is of a single level: slashes followed by a non-empty client id of
    letters, digits, underscores and hyphens (a missing path counts as a
    single slash).  A connection with any other path is closed with code
    1008 after one log line at level warn: the registry and its sessions
    stay as they were, no upstream is contacted and the notifier is not
    told.  An accepted connection is registered last, under the client id,
    for its own socket. *)
Theorem client_path_validation (wt : string -> option string -> bool)
    (request : Request) (wsProtocol : string) (this : OcppProxy) :
  let rawPath := default "/" (or_else (url request) None) in
  let r := handleClientConnection wt request wsProtocol this in
  ((forall id, ~ single_level rawPath id) ->
   sessions (fst r) = sessions this /\
   snd r = [At (nextWs this) (Log (RejectedInvalidPath rawPath));
            At (nextWs this)
               (ClientClose 1008
                  "Invalid path: must be single-level alphanumeric, underscore, or hyphen")] /\
   level (RejectedInvalidPath rawPath) = warn) /\
  (forall id, single_level rawPath id ->
   exists new,
     last (sessions (fst r)) = Some new /\ clientId new = id /\
     registered new = true /\ clientWs new = nextWs this).
Proof.
  intros rawPath r. split.
  - intros Hno. subst r. unfold handleClientConnection. cbv zeta.
    fold rawPath. destruct (path_match (strip_slashes rawPath)) as [id|] eqn:Hp.
    + exfalso. apply (Hno id). by apply path_match_single_level.
    + done.
  - intros id Hs. apply path_match_single_level in Hs.
    pose proof (handleClientConnection_sessions wt request wsProtocol this) as H.
    fold rawPath in H. rewrite Hs in H.
    destruct H as (new & e2 & Heq & Hr & Hi & Hw).
    exists new. subst r. rewrite Heq. cbn [fst snd sessions].
    by rewrite last_snoc.
Qed.

Lemma run_link_quiet_eq nf k p s :
  quiet p ->
  run_link nf k p s =
    (set_upstreams (<[k := fst (Upstream.run_alone p)]> (upstreams s)) s,
     link_trace k (snd (Upstream.run_alone p))).
Proof.
  induction 1 as [u|e p Hq IH]; cbn; [done|].
  rewrite IH. by destruct (Upstream.run_alone p).
Qed.

Lemma sockets_opened_app o1 o2 :
  sockets_opened (o1 ++ o2) = sockets_opened o1 ++ sockets_opened o2.
Proof. apply omap_app. Qed.

Lemma sockets_opened_none out :
  Forall (output_ok opens_nothing) out -> sockets_opened out = [].
Proof.
  induction 1 as [|o out Ho Hout IH]; [done|].
  destruct o as [ws [| k [] | | | |]|]; cbn in *; done.
Qed.

Lemma sockets_opened_cons o out :
  sockets_opened (o :: out) = sockets_opened [o] ++ sockets_opened out.
Proof. apply (sockets_opened_app [o] out). Qed.

Lemma closeExisting_opens_nothing newWs id l :
  sockets_opened (snd (closeExisting newWs id l)) = [].
Proof.
  apply sockets_opened_none.
  eapply proj2, (closeExisting_all (fun _ => True) opens_nothing).
  - intros u _. split; [done|]. unfold Upstream.close.
    destruct (bool_decide _); destruct u as [? ? ? ? ? [] ? ? ? ? ? ?]; cbn;
      by repeat constructor.
  - apply Forall_true. intros s. by apply Forall_true.
Qed.

(** The sockets [connect_all] opens for links that are new. *)
Lemma connect_all_new wt nf ws id p ip cfgs :
  truthy p = true ->
  forall k pre s,
    clientWs s = ws ->
    upstreams s = pre ++ ((fun c : string * string =>
                             Upstream.new (fst c) (snd c) id p ip) <$> cfgs) ->
    length pre = k ->
    sockets_opened (at_ws ws (snd (connect_all wt nf (length cfgs) k s))) =
      omap (fun jc : nat * (string * string) =>
              if wt (snd (snd jc) +:+ id) (Some p) then None
              else Some (ws, fst jc, snd (snd jc) +:+ id, Some p, address_headers ip))
           (imap (fun j c => (k + j, c)) cfgs).
Proof.
  intros Hp. induction cfgs as [|[name url] cfgs IH]; intros k pre s Hw Hs Hk; [done|].
  cbn [length connect_all]. unfold on_link.
  assert (upstreams s !! k = Some (Upstream.new name url id p ip)) as Hl.
  { rewrite Hs, <- Hk. cbn. by rewrite list_lookup_middle. }
  rewrite Hl.
  rewrite run_link_quiet_eq by (apply connect_quiet; cbn; lia).
  set (s1 := set_upstreams _ s).
  specialize (IH (S k) (pre ++ [fst (Upstream.run_alone
                                     (Upstream.connect wt (Upstream.new name url id p ip)))])
                s1 Hw).
  destruct (connect_all wt nf (length cfgs) (S k) s1) as [s2 e2]. cbn [fst snd] in *.
  unfold at_ws in *. rewrite fmap_app, sockets_opened_app. rewrite IH.
  - cbn [imap omap fst snd]. rewrite Nat.add_0_r.
    assert (omap
              (fun jc : nat * (string * string) =>
                 if wt (jc.2.2 +:+ id) (Some p) then None
                 else Some (ws, jc.1, jc.2.2 +:+ id, Some p, address_headers ip))
              (imap (fun j c => (S k + j, c)) cfgs)
            = omap
              (fun jc : nat * (string * string) =>
                 if wt (jc.2.2 +:+ id) (Some p) then None
                 else Some (ws, jc.1, jc.2.2 +:+ id, Some p, address_headers ip))
              (imap ((fun j c => (k + j, c)) ∘ S) cfgs)) as ->.
    { f_equal. apply imap_ext. intros j c _. cbn. f_equal. lia. }
    unfold Upstream.connect. cbn. rewrite Hp.
    change (Upstream.getUrl _) with (url +:+ id).
    destruct (wt (url +:+ id) (Some p)); [done|].
    cbn. unfold address_headers. destruct ip as [ip|]; [|done].
    by destruct (truthy ip).
  - subst s1. cbn. rewrite Hs. cbn. rewrite <- Hk.
    rewrite insert_app_r_alt by lia. rewrite Nat.sub_diag. cbn.
    by rewrite <- app_assoc.
  - rewrite length_app. cbn. lia.
Qed.

(** X7: for an accepted connection of client id [id], the proxy opens one
    socket per configured upstream, in the order of the configuration,
    except where the WebSocket constructor throws: to the upstream's URL
    followed by [id], with the subprotocol of the client socket (ocpp1.6
    when it has none), and with the client address as X-Forwarded-For and
    X-Real-IP when there is one (the first field of the request's
    X-Forwarded-For, trimmed, or else the address of the peer).  It opens no
    other socket. *)
Theorem accepted_connection_opens_upstreams (wt : string -> option string -> bool)
    (request : Request) (wsProtocol id : string) (this : OcppProxy) :
  path_match (strip_slashes (default "/" (or_else (url request) None))) = Some id ->
  let protocol := if truthy wsProtocol then wsProtocol else "ocpp1.6" in
  sockets_opened (snd (handleClientConnection wt request wsProtocol this)) =
    omap (fun jc : nat * (string * string) =>
            if wt (snd (snd jc) +:+ id) (Some protocol) then None
            else Some (nextWs this, fst jc, snd (snd jc) +:+ id, Some protocol,
                       address_headers (client_address request)))
         (imap pair (config_upstreams this)).
Proof.
  intros Hm protocol. unfold handleClientConnection. cbv zeta.
  cbn [nextWs sessions notifier config_upstreams]. rewrite Hm.
  pose proof (closeExisting_opens_nothing (nextWs this) id (sessions this)) as Hc.
  destruct (closeExisting (nextWs this) id (sessions this)) as [l1 e1].
  cbn [snd] in Hc. fold protocol. fold (client_address request).
  match goal with |- context [connect_all wt ?nf ?n ?k ?s] =>
    pose proof (connect_all_new wt nf (nextWs this) id protocol
                  (client_address request) (config_upstreams this)) as Hn;
    set (s0 := s) end.
  specialize (Hn ltac:(subst protocol; by destruct (truthy wsProtocol) eqn:E) 0 [] s0
                 eq_refl eq_refl eq_refl).
  rewrite length_fmap.
  destruct (connect_all wt (notifier this) (length (config_upstreams this)) 0 s0)
    as [new e2].
  cbn [fst snd] in *. rewrite sockets_opened_app, Hc. cbn [app].
  unfold at_ws in *. rewrite fmap_cons, fmap_app, fmap_cons.
  rewrite sockets_opened_cons, sockets_opened_app, sockets_opened_cons.
  rewrite (sockets_opened_none (_ <$> notify _ _))
    by (unfold notify; destruct (notifier this); by repeat constructor).
  exact Hn.
Qed.

(** ** Tearing a session down *)

Lemma close_effects u e :
  e ∈ snd (Upstream.close u) <->
  (e = Upstream.ClearTimeout /\ is_Some (Upstream.reconnectTimer u)) \/
  (e = Upstream.WsClose /\ Upstream.ws u = true) \/
  e = Upstream.LLog ConnectionClosed.
Proof.
  unfold Upstream.close.
  destruct u as [? ? ? ? ? w ? ? ? ? ? [t|]]; destruct w; cbn;
    rewrite ?elem_of_cons, ?elem_of_nil; split; intros H;
    repeat match goal with
           | H : _ \/ _ |- _ => destruct H
           | H : _ /\ _ |- _ => destruct H
           | H : is_Some None |- _ => by destruct H
           end; subst; try discriminate; try done; eauto 6.
Qed.

Lemma close_all_effects k l j e :
  Up j e ∈ snd (close_all k l) <->
  exists u, k <= j /\ l !! (j - k) = Some u /\ e ∈ snd (Upstream.close u).
Proof.
  revert k. induction l as [|u l IH]; intros k; cbn.
  - rewrite elem_of_nil. split; [done|]. by intros (u & _ & ? & _).
  - specialize (IH (S k)).
    destruct (Upstream.close u) as [u' e0] eqn:Hu.
    destruct (close_all (S k) l) as [l' e']. cbn in *.
    rewrite elem_of_app, IH. unfold ups. rewrite list_elem_of_fmap. split.
    + intros [(e1 & [= <- <-] & Hin)|(v & Hle & Hl & Hin)].
      * exists u. rewrite Nat.sub_diag. cbn. rewrite Hu. by repeat split.
      * exists v. split; [lia|]. split; [|done].
        replace (j - k) with (S (j - S k)) by lia. done.
    + intros (v & Hle & Hl & Hin).
      destruct (decide (j = k)) as [->|Hne].
      * rewrite Nat.sub_diag in Hl. cbn in Hl. simplify_eq. rewrite Hu in Hin.
        left. by exists e.
      * right. exists v. split; [lia|]. split; [|done].
        replace (j - k) with (S (j - S k)) in Hl by lia. done.
Qed.

Lemma cleanup_effects s j e :
  registered s = true ->
  (Up j e ∈ snd (cleanupClientConnection s) <->
   exists u, upstreams s !! j = Some u /\ e ∈ snd (Upstream.close u)).
Proof.
  intros Hr. unfold cleanupClientConnection. rewrite Hr. cbn.
  pose proof (close_all_effects 0 (upstreams s) j e) as H.
  destruct (close_all 0 (upstreams s)) as [l e1]. cbn in *.
  rewrite elem_of_app, H, Nat.sub_0_r. split.
  - intros [(u & _ & ? & ?)|Hin]; [by exists u|].
    rewrite !elem_of_cons, elem_of_nil in Hin. by destruct Hin as [|[|]].
  - intros (u & ? & ?). left. exists u. split; [lia|done].
Qed.

Lemma upstream_writes_none e :
  Forall (effect_ok (fun e' => forall data, e' <> Upstream.WsSend data)) e ->
  upstream_writes e = [].
Proof.
  induction 1 as [|x e Hx He IH]; [done|].
  destruct x as [| k [] | | | |]; cbn in *; try done. by destruct (Hx data).
Qed.

Lemma cleanup_writes_nothing s : upstream_writes (snd (cleanupClientConnection s)) = [].
Proof.
  apply upstream_writes_none.
  eapply proj2, (cleanup_ok (fun _ => True)); [|by apply Forall_true].
  intros u _. split; [done|]. apply Forall_forall. intros e He data ->.
  apply close_effects in He. by destruct He as [[? _]|[[? _]|?]].
Qed.

Lemma notify_effect nf h e : e ∈ notify nf h -> e = Notify h.
Proof.
  unfold notify. destruct nf;
    [rewrite elem_of_cons, elem_of_nil; by intros [|] | by rewrite elem_of_nil].
Qed.

(** X11: when the client socket closes, a registered session is torn down.
    Every link that holds a socket has it closed, every pending reconnection
    timer is cancelled, nothing is written to an upstream or to the client,
    and the session is left unregistered with an empty router and with
    every link closed for good. *)
Theorem client_disconnect_closes_upstreams (nf : Notifier) (s : Session) :
  registered s = true ->
  let r := onClientClose nf s in
  registered (fst r) = false /\ links_ok shut (fst r) /\
  router (fst r) = Router.new /\ readyState (fst r) = CLOSED /\
  (forall k, Up k Upstream.WsClose ∈ snd r <->
             exists u, upstreams s !! k = Some u /\ Upstream.ws u = true) /\
  (forall k, Up k Upstream.ClearTimeout ∈ snd r <->
             exists u, upstreams s !! k = Some u /\
                       is_Some (Upstream.reconnectTimer u)) /\
  upstream_writes (snd r) = [] /\ client_sends (snd r) = [].
Proof.
  intros Hr r. subst r. unfold onClientClose.
  set (s0 := set_readyState CLOSED s).
  assert (registered s0 = true) as Hr0 by done.
  destruct (cleanup_registered s0 Hr0) as (H1 & H2 & _).
  pose proof (cleanup_shut s0 Hr0) as H3.
  pose proof (cleanup_effects s0) as H4.
  pose proof (cleanup_writes_nothing s0) as H5.
  assert (readyState (fst (cleanupClientConnection s0)) = CLOSED) as H6.
  { unfold cleanupClientConnection. rewrite Hr0. cbn.
    by destruct (close_all 0 (upstreams s)). }
  assert (client_sends (snd (cleanupClientConnection s0)) = []) as H7.
  { unfold cleanupClientConnection. rewrite Hr0. cbn.
    destruct (close_all 0 (upstreams s)) as [l e] eqn:Hc. cbn.
    rewrite client_sends_app. cbn. rewrite app_nil_r.
    clear -Hc. revert l e Hc. generalize 0.
    induction (upstreams s) as [|u us IH]; intros k l e Hc; cbn in Hc; [by simplify_eq|].
    destruct (Upstream.close u) as [u' e0].
    destruct (close_all (S k) us) as [l' e'] eqn:Hc'. simplify_eq.
    rewrite client_sends_app, (IH _ _ _ Hc'), app_nil_r.
    unfold ups. by induction e0. }
  destruct (cleanupClientConnection s0) as [s1 e1]. cbn [fst snd] in *.
  repeat split; try done.
  - intros Hin. apply elem_of_cons in Hin as [|Hin]; [done|].
    apply elem_of_app in Hin as [Hin|Hin]; [by apply notify_effect in Hin|].
    apply (H4 k _ Hr0) in Hin as (u & Hk & He).
    apply close_effects in He as [[? _]|[[_ ?]|?]]; try done. by exists u.
  - intros (u & Hk & Hw). apply elem_of_cons. right. apply elem_of_app. right.
    apply (H4 k _ Hr0). exists u. split; [done|]. apply close_effects. auto.
  - intros Hin. apply elem_of_cons in Hin as [|Hin]; [done|].
    apply elem_of_app in Hin as [Hin|Hin]; [by apply notify_effect in Hin|].
    apply (H4 k _ Hr0) in Hin as (u & Hk & He).
    apply close_effects in He as [[_ ?]|[[? _]|?]]; try done. by exists u.
  - intros (u & Hk & Hw). apply elem_of_cons. right. apply elem_of_app. right.
    apply (H4 k _ Hr0). exists u. split; [done|]. apply close_effects. auto.
  - change (upstream_writes (Log ?l :: ?e)) with (upstream_writes e).
    by rewrite upstream_writes_app, upstream_writes_notify, H5.
  - change (client_sends (Log ?l :: ?e)) with (client_sends e).
    rewrite client_sends_app, H7, app_nil_r. by destruct nf.
Qed.

Lemma cleanup_cleaned_up s : cleaned_up s (fst (cleanupClientConnection s)).
Proof.
  unfold cleaned_up. destruct (registered s) eqn:Hr.
  - destruct (cleanup_registered s Hr) as (H1 & H2 & _).
    pose proof (cleanup_shut s Hr) as H3.
    unfold cleanupClientConnection in *. rewrite Hr in *. cbn in *.
    by destruct (close_all 0 (upstreams s)).
  - unfold cleanupClientConnection. by rewrite Hr.
Qed.

Lemma cleanup_closes_no_client s code reason :
  ClientClose code reason ∉ snd (cleanupClientConnection s).
Proof.
  intros Hin. unfold cleanupClientConnection in Hin. destruct (negb (registered s)); [by inversion Hin|].
  destruct (close_all 0 (upstreams s)) as [l e] eqn:Hc. cbn in Hin.
  apply elem_of_app in Hin as [Hin|Hin].
  - clear -Hc Hin. revert l e Hc Hin. generalize 0.
    induction (upstreams s) as [|u us IH]; intros k l e Hc Hin; cbn in Hc.
    + simplify_eq. by inversion Hin.
    + destruct (Upstream.close u) as [u' e0].
      destruct (close_all (S k) us) as [l' e'] eqn:Hc'. simplify_eq.
      apply elem_of_app in Hin as [Hin|Hin]; [|by eapply IH].
      unfold ups in Hin. apply list_elem_of_fmap in Hin as (? & ? & _). done.
  - rewrite !elem_of_cons, elem_of_nil in Hin. by destruct Hin as [|[|]].
Qed.

Lemma cleanup_all_spec l :
  Forall2 cleaned_up l (fst (cleanup_all l)) /\
  (forall ws code reason, At ws (ClientClose code reason) ∉ snd (cleanup_all l)) /\
  sockets_opened (snd (cleanup_all l)) = [].
Proof.
  induction l as [|s l (IH1 & IH2 & IH3)]; cbn.
  - repeat split; [constructor|]. intros ws code reason Hin. by inversion Hin.
  - pose proof (cleanup_cleaned_up s) as H1.
    pose proof (cleanup_closes_no_client s) as H2.
    assert (sockets_opened (at_ws (clientWs s) (snd (cleanupClientConnection s))) = [])
      as H3.
    { apply sockets_opened_none. unfold at_ws. apply Forall_fmap.
      eapply proj2, (cleanup_ok (fun _ => True) opens_nothing); [|by apply Forall_true].
      intros u _. split; [done|]. apply Forall_forall. intros e He.
      apply close_effects in He. by destruct He as [[-> _]|[[-> _]| ->]]. }
    destruct (cleanupClientConnection s) as [s1 e1].
    destruct (cleanup_all l) as [l' e']. cbn [fst snd] in *.
    repeat split.
    + by constructor.
    + intros ws code reason Hin. apply elem_of_app in Hin as [Hin|Hin]; [|by eapply IH2].
      unfold at_ws in Hin. apply list_elem_of_fmap in Hin as (e & [= _ <-] & Hin).
      by eapply H2.
    + by rewrite sockets_opened_app, H3, IH3.
Qed.

Lemma cleanup_all_unregistered l :
  Forall (fun s => registered s = false) l -> cleanup_all l = (l, []).
Proof.
  induction 1 as [|s l Hs Hl IH]; cbn; [done|].
  unfold cleanupClientConnection. rewrite Hs. cbn. by rewrite IH.
Qed.

(** X13: [stop()] tears every registered session down (links closed for
    good, router emptied, entry removed) and then closes the server.  It
    opens no socket and does not itself close any client socket; stopping
    again does nothing but close the server. *)
Theorem stop_tears_every_session_down (this : OcppProxy) :
  let r := stop this in
  Forall (fun s => registered s = false) (sessions (fst r)) /\
  Forall2 cleaned_up (sessions this) (sessions (fst r)) /\
  (forall ws code reason, At ws (ClientClose code reason) ∉ snd r) /\
  sockets_opened (snd r) = [] /\
  last (snd r) = Some ServerClose /\
  stop (fst r) = (fst r, [ServerClose]).
Proof.
  intros r. subst r. unfold stop.
  destruct (cleanup_all_spec (sessions this)) as (H1 & H2 & H3).
  destruct (cleanup_all (sessions this)) as [l e]. cbn [fst snd sessions set_sessions] in *.
  assert (Forall (fun s => registered s = false) l) as Hu.
  { clear -H1. induction H1 as [|s s' l l' Hs Hl IH]; constructor; [|done].
    unfold cleaned_up in Hs. destruct (registered s) eqn:E; [by destruct Hs|by subst]. }
  repeat split; try done.
  - intros ws code reason Hin. apply elem_of_app in Hin as [Hin|Hin]; [by eapply H2|].
    rewrite elem_of_cons, elem_of_nil in Hin. by destruct Hin.
  - by rewrite sockets_opened_app, H3.
  - by rewrite last_snoc.
  - by rewrite (cleanup_all_unregistered l Hu).
Qed.

(** ** A link lost while another one is connected *)

(** X14: when a link that is not closed and has attempts left loses its
    socket while another link of the session is connected, the session
    stays as it is (registered, client socket untouched) and the link
    schedules its next attempt, after [min(5000 * 2^n, 60000)] ms when [n]
    attempts were counted before; [n] is 0 for a link that had opened, so a
    connection lost after it was established is retried after 5000 ms. *)
Theorem lost_link_reconnects (nf : Notifier) (k j : nat)
    (u v : Upstream.UpstreamConnection) (s : Session) :
  registered s = true ->
  upstreams s !! k = Some u -> upstreams s !! j = Some v -> j <> k ->
  Upstream.isConnected v = true ->
  Upstream.closed u = false -> Upstream.reconnectTimer u = None ->
  Upstream.reconnectAttempts u < Upstream.maxReconnectAttempts u ->
  let delay := Z.min (5000 * 2 ^ Z.of_nat (Upstream.reconnectAttempts u)) 60000 in
  let r := on_link nf k Upstream.on_close s in
  fst r = set_upstreams
            (<[k := Upstream.set_reconnectTimer (Some delay)
                      (Upstream.set_reconnectAttempts (S (Upstream.reconnectAttempts u))
                         (Upstream.set_isConnected false u))]> (upstreams s)) s /\
  Up k (Upstream.SetTimeout delay) ∈ snd r /\
  (forall code reason, ClientClose code reason ∉ snd r) /\
  Upstream.reconnectAttempts
    (fst (Upstream.run_alone (Upstream.on_open u))) = 0.
Proof.
  intros Hr Hk Hj Hne Hc Hcl Ht Ha delay r. subst r.
  unfold on_link. rewrite Hk. unfold Upstream.on_close. cbn [run_link callback].
  set (s0 := set_upstreams _ s).
  assert (upstreams s0 !! j = Some v) as Hj0
    by (subst s0; cbn; by rewrite list_lookup_insert_ne).
  assert (upstreams s0 !! k = Some (Upstream.set_isConnected false u)) as Hk0
    by (subst s0; cbn; apply list_lookup_insert_eq; by eapply lookup_lt_Some).
  destruct (checkUpstreamsStatus_alive s0) as [H1 H2].
  { intros Hf. rewrite Forall_lookup in Hf. destruct (Hf j v Hj0) as [Hf' _]. congruence. }
  pose proof (threw_check s0) as Hth.
  destruct (checkUpstreamsStatus s0) as [s1 e1]. cbn [fst snd] in *. subst s1.
  rewrite threw_app, Hth, threw_notify. cbn [orb].
  rewrite Hk0. cbn [Upstream.closed Upstream.set_isConnected]. rewrite Hcl.
  unfold Upstream.scheduleReconnect.
  cbn [Upstream.closed Upstream.set_isConnected Upstream.reconnectTimer
       Upstream.reconnectAttempts Upstream.maxReconnectAttempts].
  rewrite Hcl, Ht. rewrite bool_decide_eq_false_2 by (by intros [? ?]).
  apply Nat.leb_gt in Ha. rewrite Ha. cbn [run_link fst snd].
  replace (Z.of_nat (S (Upstream.reconnectAttempts u)) - 1)%Z
    with (Z.of_nat (Upstream.reconnectAttempts u)) by lia.
  fold delay. repeat split.
  - subst s0. cbn. by rewrite list_insert_insert_eq.
  - apply elem_of_cons. right. apply elem_of_app. right.
    apply elem_of_cons. right. apply elem_of_cons. by left.
  - intros code reason Hin. apply elem_of_cons in Hin as [|Hin]; [done|].
    apply elem_of_app in Hin as [Hin|Hin].
    + apply elem_of_app in Hin as [Hin|Hin]; [by eapply H2|].
      by apply notify_effect in Hin.
    + rewrite !elem_of_cons, elem_of_nil in Hin. by destruct Hin as [|[|]].
Qed.

(** ** The subprotocol offered to a client *)

(** X15: the server answers a client's offer of subprotocols with the first
    one that starts with ocpp; it answers ocpp1.6 when the client offers
    none, and refuses to name one ([false]) when the client offers some but
    none that starts with ocpp.  Whatever it names starts with ocpp. *)
Theorem handleProtocols_first_ocpp (protocols : list string) :
  (forall p, handleProtocols protocols = Some p -> String.prefix "ocpp" p = true) /\
  (forall before p after,
     protocols = before ++ p :: after ->
     Forall (fun q => String.prefix "ocpp" q = false) before ->
     String.prefix "ocpp" p = true ->
     handleProtocols protocols = Some p) /\
  (handleProtocols protocols = None <->
   protocols <> [] /\ Forall (fun q => String.prefix "ocpp" q = false) protocols) /\
  (protocols = [] -> handleProtocols protocols = Some "ocpp1.6").
Proof.
  assert (forall l q, In q (List.filter (String.prefix "ocpp") l) ->
                      String.prefix "ocpp" q = true) as Hfilter
    by (intros l q Hin; by apply filter_In in Hin as [_ Hin]).
  assert (forall l, Forall (fun q => String.prefix "ocpp" q = false) l ->
                    List.filter (String.prefix "ocpp") l = []) as Hnone.
  { induction 1 as [|q l Hq Hl IH]; cbn; [done|]. by rewrite Hq. }
  unfold handleProtocols. split; [|split; [|split; [split|]]].
  - intros p. destruct (List.filter _ protocols) as [|q l] eqn:E.
    + destruct (length protocols =? 0)%nat; [|done]. by intros [= <-].
    + intros [= <-]. apply (Hfilter protocols). rewrite E. by left.
  - intros before p after -> Hb Hp.
    assert (List.filter (String.prefix "ocpp") (before ++ p :: after)
            = p :: List.filter (String.prefix "ocpp") after) as ->; [|done].
    induction Hb as [|q l Hq Hl IH]; cbn; [by rewrite Hp|]. by rewrite Hq.
  - destruct (List.filter _ protocols) as [|q l] eqn:E; [|done].
    destruct protocols as [|p0 l0]; [done|]. intros _. split; [done|].
    apply Forall_forall. intros q Hq. apply list_elem_of_In in Hq.
    destruct (String.prefix "ocpp" q) eqn:Hp; [|done].
    assert (In q (List.filter (String.prefix "ocpp") (p0 :: l0))) as Hin
      by (apply filter_In; by split).
    rewrite E in Hin. by destruct Hin.
  - intros [Hne Hf]. rewrite (Hnone _ Hf). by destruct protocols.
  - by intros ->.
Qed.

(** ** [replaceVars] *)


Lemma strip_prefix_Some sep s rest :
  Notify.strip_prefix sep s = Some rest <-> s = sep +:+ rest.
Proof.
  revert s. induction sep as [|a sep IH]; intros s; cbn.
  - split; [by intros [= ->]|by intros ->].
  - destruct s as [|b s].
    + split; [done|]. intros H. by destruct sep.
    + destruct (Ascii.eqb a b) eqn:E.
      * apply Ascii.eqb_eq in E. subst b. rewrite IH. split; [by intros ->|].
        by intros [= ->].
      * apply Ascii.eqb_neq in E. split; [done|]. intros [= ? _]. by subst.
Qed.

Lemma append_assoc (a b c : string) : (a +:+ b) +:+ c = a +:+ (b +:+ c).
Proof.
  induction a as [|x a IH]; [done|].
  change (String x ((a +:+ b) +:+ c) = String x (a +:+ (b +:+ c))). by f_equal.
Qed.

Lemma append_nil_r (a : string) : a +:+ EmptyString = a.
Proof.
  induction a as [|x a IH]; [done|].
  change (String x (a +:+ EmptyString) = String x a). by f_equal.
Qed.

Lemma length_append (a b : string) :
  String.length (a +:+ b) = String.length a + String.length b.
Proof.
  induction a as [|x a IH]; [done|].
  change (S (String.length (a +:+ b)) = S (String.length a + String.length b)).
  by f_equal.
Qed.

Lemma concat_cons sep x l :
  l <> [] -> String.concat sep (x :: l) = x +:+ sep +:+ String.concat sep l.
Proof. by destruct l. Qed.

Lemma split_go_nonempty fuel sep cur s : Notify.split_go fuel sep cur s <> [].
Proof.
  revert cur s. induction fuel as [|fuel IH]; intros cur [|c s]; cbn [Notify.split_go]; try done.
  destruct (Notify.strip_prefix sep (String c s)); [done|apply IH].
Qed.

Lemma join_split_go fuel sep cur s :
  sep <> EmptyString -> String.length s <= fuel ->
  Notify.join (Notify.split_go fuel sep cur s) sep = cur +:+ s.
Proof.
  intros Hsep. revert cur s. induction fuel as [|fuel IH]; intros cur s Hlen.
  - destruct s; [|cbn in Hlen; lia]. cbn. by rewrite append_nil_r.
  - destruct s as [|c s]; [cbn; by rewrite append_nil_r|]. cbn [Notify.split_go].
    destruct (Notify.strip_prefix sep (String c s)) as [rest|] eqn:E.
    + apply strip_prefix_Some in E. unfold Notify.join.
      rewrite concat_cons by apply split_go_nonempty.
      fold (Notify.join (Notify.split_go fuel sep "" rest) sep). rewrite IH.
      * by rewrite E.
      * assert (String.length (String c s) = String.length sep + String.length rest) as Hl
          by (rewrite E; apply length_append).
        destruct sep; [done|]. cbn in *. lia.
    + rewrite IH by (cbn in Hlen; lia). by rewrite append_assoc.
Qed.

Lemma join_split s sep : Notify.join (Notify.split s sep) sep = s.
Proof.
  destruct sep as [|a sep].
  - unfold Notify.split, Notify.join. induction s as [|c s IH]; [done|].
    cbn [list_ascii_of_string fmap list_fmap]. destruct s as [|c' s]; [done|].
    rewrite concat_cons by done. cbn in *. by rewrite IH.
  - unfold Notify.split. by rewrite join_split_go.
Qed.

Lemma split_go_absent fuel sep cur s :
  sep <> EmptyString -> ~ occurs sep s -> String.length s <= fuel ->
  Notify.split_go fuel sep cur s = [cur +:+ s].
Proof.
  intros Hsep. revert cur s. induction fuel as [|fuel IH]; intros cur s Ho Hlen.
  - destruct s; [|cbn in Hlen; lia]. cbn. by rewrite append_nil_r.
  - destruct s as [|c s]; [cbn; by rewrite append_nil_r|]. cbn [Notify.split_go].
    destruct (Notify.strip_prefix sep (String c s)) as [rest|] eqn:E.
    + apply strip_prefix_Some in E. exfalso. apply Ho. by exists EmptyString, rest.
    + rewrite IH; [by rewrite append_assoc| |cbn in Hlen; lia].
      intros (a & b & ->). apply Ho. by exists (String c a), b.
Qed.

Lemma occursb_false old s : occursb old s = false -> ~ occurs old s.
Proof.
  intros H (a & b & Hs). revert a Hs. induction s as [|c s IH]; intros a Hs.
  - cbn [occursb] in H. destruct (Notify.strip_prefix old EmptyString) eqn:E; [done|].
    destruct a; [|done]. change (EmptyString = old +:+ b) in Hs.
    apply strip_prefix_Some in Hs. congruence.
  - cbn [occursb] in H. destruct (Notify.strip_prefix old (String c s)) eqn:E; [done|].
    destruct a as [|x a].
    + change (String c s = old +:+ b) in Hs.
      apply strip_prefix_Some in Hs. congruence.
    + injection Hs as -> Hs. by apply (IH H a).
Qed.

(** X16: [replaceVars] leaves a string as it is when every key of the
    replacement object either is its own value or does not occur in the
    string (a key that is the empty string occurs in every string): splitting
    a string at a separator and joining the pieces with the same separator
    gives the string back, and a separator that does not occur splits
    nothing. *)
Theorem replaceVars_unchanged (str : string) (replaceto : list (string * string)) :
  Forall (fun entry => fst entry = snd entry \/ ~ occurs (fst entry) str) replaceto ->
  Notify.replaceVars str replaceto = str.
Proof.
  unfold Notify.replaceVars.
  induction 1 as [|[old new] l Hx Hl IH]; cbn [fold_left fst snd]; [done|].
  assert (Notify.join (Notify.split str old) new = str) as ->; [|done].
  cbn [fst snd] in Hx. destruct Hx as [<- | Ho]; [apply join_split|].
  destruct old as [|a old]; [exfalso; apply Ho; by exists EmptyString, str|].
  unfold Notify.split. by rewrite split_go_absent.
Qed.

(** ** The notifier and the calls of the client *)

Lemma notify_not_in_logs h l : Notify h ∉ logs l.
Proof. unfold logs. intros Hin. by apply list_elem_of_fmap in Hin as (? & ? & _). Qed.

Lemma notify_not_in_ups h k l : Notify h ∉ ups k l.
Proof. unfold ups. intros Hin. by apply list_elem_of_fmap in Hin as (? & ? & _). Qed.

Lemma notify_not_in_broadcast h data k l : Notify h ∉ broadcast data k l.
Proof.
  revert k. induction l as [|u l IH]; intros k; cbn; [by intros Hin; inversion Hin|].
  intros Hin. apply elem_of_app in Hin as [Hin|Hin]; [|by eapply IH].
  destruct (Upstream.isConnected u); [by eapply notify_not_in_ups|].
  rewrite elem_of_cons, elem_of_nil in Hin. by destruct Hin.
Qed.

(** X18: the notifier is told of a frame of the client exactly when the frame
    is a CALL that the router registers: for a registered session,
    [callFromClient] is called, with the client id and the frame as
    received, if and only if a notifier is set, the frame parses with type 2
    (as a binary64) and its id converts to a string (the router throws on
    its log line otherwise, before the hook); no other hook is called, and
    none for a reply or for a frame that cannot be routed.  The hook is
    called whether it returns or throws. *)
Theorem notifier_told_of_client_calls (nf : Notifier) (data : string) (s : Session)
    (h : Hook) :
  registered s = true ->
  (Notify h ∈ snd (handleClientMessage nf data s) <->
   is_Some nf /\ h = callFromClient (clientId s) data /\
   exists m, fst (parseMessage (stamps s) data) = Some m /\
             strict_eq_num (type m) 2 = true /\
             key_renders (messageId m) = true).
Proof.
  intros Hr.
  destruct (fst (parseMessage (stamps s) data)) as [m|] eqn:Hp.
  - destruct (strict_eq_num (type m) 2) eqn:H2.
    + destruct (key_renders (messageId m)) eqn:Hk.
      * unfold handleClientMessage.
        pose proof (parseMessage_logs _ _ _ Hp) as Hl.
        destruct (parseMessage (stamps s) data) as [m' l0]. cbn in Hp, Hl. subst m' l0.
        unfold routeClientMessage, registerClientCall, template. rewrite H2, Hk.
        destruct s as [cw rs reg us r cid proto buf st]. cbn in *. subst reg.
        rewrite ?H2, ?Hk. cbn.
        destruct nf as [throws|]; cbn.
        -- assert (forall e, Notify h ∈
                      Log (CallToAllServers (messageId m))
                      :: Log (RegisteredClientCall (messageId m))
                      :: Notify (callFromClient cid data) :: e <->
                    h = callFromClient cid data \/ Notify h ∈ e) as Hin.
           { intros e. rewrite !elem_of_cons. split.
             - intros [|[|[[= ->]|]]]; try done; auto.
             - intros [->|]; auto. }
           destruct (throws cid data); cbn; rewrite Hin; split.
           ++ intros [->|Hx]; [|by rewrite elem_of_cons, elem_of_nil in Hx; destruct Hx].
              repeat split; [done|]. by exists m.
           ++ intros (_ & -> & _). by left.
           ++ intros [->|Hx]; [|by apply notify_not_in_broadcast in Hx].
              repeat split; [done|]. by exists m.
           ++ intros (_ & -> & _). by left.
        -- split; [|by intros ([? [=]] & _)].
           intros Hin. rewrite !elem_of_cons in Hin.
           destruct Hin as [|[|Hin]]; try done.
           by apply notify_not_in_broadcast in Hin.
      * split; [|by intros (_ & _ & m' & [= <-] & _ & Hm'); congruence].
        intros Hin. exfalso. unfold handleClientMessage in Hin.
        pose proof (parseMessage_logs _ _ _ Hp) as Hl.
        destruct (parseMessage (stamps s) data) as [m' l0]. cbn in Hp, Hl. subst m' l0.
        unfold routeClientMessage, template in Hin. rewrite H2, Hk in Hin.
        cbn in Hin. rewrite elem_of_cons, elem_of_nil in Hin. by destruct Hin.
    + split; [|by intros (_ & _ & m' & [= <-] & Hm' & _); congruence].
      intros Hin. exfalso.
      destruct (strict_eq_num (type m) 3 || strict_eq_num (type m) 4) eqn:H34.
      * rewrite (handleClientMessage_reply nf data m s Hp H34) in Hin.
        destruct (key_renders (messageId m));
        destruct (messageIdToServer (router s) !! messageId m) as [target|];
          [destruct (truthy target)| |destruct (truthy target)|]; cbn [snd] in Hin;
          try (rewrite elem_of_cons, elem_of_nil in Hin; by destruct Hin).
        apply elem_of_app in Hin as [Hin|Hin]; [by apply notify_not_in_logs in Hin|].
        destruct (list_find _ (upstreams s)) as [[k u]|];
          [destruct (Upstream.isConnected u)|];
          try (rewrite elem_of_cons, elem_of_nil in Hin; by destruct Hin).
        by apply notify_not_in_ups in Hin.
      * rewrite (handleClientMessage_unknown nf data m s Hp H2 H34) in Hin.
        cbn in Hin. rewrite elem_of_cons, elem_of_nil in Hin.
        destruct (renders (type m)); by destruct Hin.
  - split; [|by intros (_ & _ & m' & [=] & _)].
    intros Hin. exfalso. unfold handleClientMessage in Hin.
    destruct (parseMessage (stamps s) data) as [m' l0]. cbn in Hp. subst m'.
    cbn in Hin. apply elem_of_app in Hin as [Hin|Hin];
      [by apply notify_not_in_logs in Hin|].
    rewrite elem_of_cons, elem_of_nil in Hin. by destruct Hin.
Qed.

(** X20: a CALL of the client handled for a session that is no longer
    registered (its entry was removed by a cleanup, and the client socket
    has not yet closed) fails when a notifier is set: the call id (one that
    converts to a string) is registered in the router, then reading the
    client id of the missing entry raises a TypeError, and the frame is
    written to no upstream. *)
Theorem call_after_cleanup_throws (throws : string -> string -> bool)
    (data : string) (m : Message) (s : Session) :
  registered s = false ->
  fst (parseMessage (stamps s) data) = Some m ->
  strict_eq_num (type m) 2 = true ->
  key_renders (messageId m) = true ->
  onClientMessage (Some throws) data s =
    (set_router {| messageIdToServer := messageIdToServer (router s);
                   clientCallIds := {[messageId m]} ∪ clientCallIds (router s) |}
       (set_stamps (S (stamps s)) s),
     [Log (CallToAllServers (messageId m));
      Log (RegisteredClientCall (messageId m)); ThrowTypeError]).
Proof.
  intros Hr Hp Ht Hk. unfold onClientMessage. rewrite Hr. cbn [andb].
  unfold handleClientMessage.
  pose proof (parseMessage_logs _ _ _ Hp) as Hl.
  destruct (parseMessage (stamps s) data) as [m' l0]. cbn in Hp, Hl. subst m' l0.
  unfold routeClientMessage, registerClientCall, template. rewrite Ht, Hk.
  destruct s as [cw rs reg us r cid proto buf st]. cbn in *. subst reg.
  by rewrite ?Ht, ?Hk.
Qed.

(** ** The address of the client *)

Lemma first_field_no_comma s : ","%char ∉ list_ascii_of_string (first_field s).
Proof.
  induction s as [|c s IH]; cbn; [by intros Hin; inversion Hin|].
  destruct (Ascii.eqb c ",") eqn:E; cbn; [by intros Hin; inversion Hin|].
  apply Ascii.eqb_neq in E. intros Hin. apply elem_of_cons in Hin as [Hin|Hin]; [|done].
  by subst.
Qed.

Lemma trim_start_chars s c :
  c ∈ list_ascii_of_string (trim_start s) -> c ∈ list_ascii_of_string s.
Proof.
  induction s as [|x s IH]; cbn; [done|].
  destruct (is_js_space x); [|done]. intros H. apply elem_of_cons. right. by apply IH.
Qed.

Lemma trim_end_chars s c :
  c ∈ list_ascii_of_string (trim_end s) -> c ∈ list_ascii_of_string s.
Proof.
  induction s as [|x s IH]; cbn; [done|].
  destruct (trim_end s) as [|y t] eqn:E.
  - destruct (is_js_space x); cbn; [by intros Hin; inversion Hin|].
    intros Hin. apply elem_of_cons in Hin as [->|Hin]; [by apply elem_of_cons; left|].
    by inversion Hin.
  - cbn. intros Hin. apply elem_of_cons in Hin as [->|Hin]; apply elem_of_cons;
      [by left|right]. by apply IH.
Qed.

Lemma trim_end_idem s : trim_end (trim_end s) = trim_end s.
Proof.
  induction s as [|x s IH]; [done|]. cbn [trim_end].
  destruct (trim_end s) as [|y t] eqn:E.
  - destruct (is_js_space x) eqn:Hx; [done|]. cbn. by rewrite Hx.
  - change (trim_end (String x (String y t)))
      with (match trim_end (String y t) with
            | EmptyString => if is_js_space x then EmptyString else String x EmptyString
            | u => String x u
            end).
    by rewrite IH.
Qed.

Lemma trim_start_head s :
  trim_start s = EmptyString \/
  exists c t, trim_start s = String c t /\ is_js_space c = false.
Proof.
  induction s as [|x s IH]; cbn; [by left|].
  destruct (is_js_space x) eqn:Hx; [done|]. right. by exists x, s.
Qed.

Lemma trim_end_head c t :
  is_js_space c = false -> exists t', trim_end (String c t) = String c t'.
Proof.
  intros Hc. cbn. destruct (trim_end t); [rewrite Hc|]; eauto.
Qed.

Lemma trim_idem s : trim (trim s) = trim s.
Proof.
  unfold trim. destruct (trim_start_head s) as [->|(c & t & -> & Hc)]; [done|].
  destruct (trim_end_head c t Hc) as [t' Ht]. rewrite Ht.
  cbn [trim_start]. rewrite Hc. rewrite <- Ht. apply trim_end_idem.
Qed.

(** X19: the client address the proxy hands to the upstream links is the
    first comma-separated field of the request's X-Forwarded-For header
    without the white space around it, when that is not empty: it then
    holds no comma and has no white space at either end.  Otherwise (no
    header, or a first field that is empty or blank) it is the address of
    the peer, if there is one. *)
Theorem client_address_first_forwarded (request : Request) :
  let forwarded := default EmptyString (or_else (headers request !! "x-forwarded-for") None) in
  let field := trim (first_field forwarded) in
  (field <> EmptyString ->
   client_address request = Some field /\
   trim field = field /\ ","%char ∉ list_ascii_of_string field) /\
  (field = EmptyString -> client_address request = remoteAddress request) /\
  (headers request !! "x-forwarded-for" = None -> field = EmptyString).
Proof.
  intros forwarded field. unfold client_address. fold forwarded. fold field.
  repeat split.
  - unfold or_else, truthy. destruct (String.eqb field "") eqn:E; [|done].
    by apply String.eqb_eq in E.
  - apply trim_idem.
  - intros Hin. apply trim_end_chars, trim_start_chars in Hin.
    by apply first_field_no_comma in Hin.
  - intros ->. done.
  - intros Hn. subst field forwarded. by rewrite Hn.
Qed.

(** ** The alerts of the notifier *)

Section AlertsFacts.

Import Alerts.

Variable flag : string -> bool.
Variable clientNames : string -> option string.

Lemma status_switch_acts cases prefix notice params acts :
  status_switch flag cases prefix notice params = Returns acts ->
  length acts <= 1 /\
  forall n, n ∈ notices acts ->
    exists label e, n = notice label e /\ label ∈ cases /\ flag (prefix +:+ label) = true.
Proof.
  unfold status_switch.
  destruct (List.find _ cases) as [label|] eqn:Hf.
  - apply find_some in Hf as [Hin _]. apply list_elem_of_In in Hin.
    destruct (flag (prefix +:+ label)) eqn:Hflag.
    + destruct (String.eqb label "Faulted").
      * destruct (rendered _); [|done]. intros [= <-]. split; [cbn; lia|].
        intros n Hn. cbn in Hn. apply elem_of_cons in Hn as [->|Hn]; [|by inversion Hn].
        eauto.
      * intros [= <-]. split; [cbn; lia|].
        intros n Hn. cbn in Hn. apply elem_of_cons in Hn as [->|Hn]; [|by inversion Hn].
        eauto.
    + intros [= <-]. split; [cbn; lia|]. intros n Hn. by inversion Hn.
  - destruct (rendered _); [|done]. intros [= <-]. split; [cbn; lia|].
    intros n Hn. by inversion Hn.
Qed.

Lemma on_connector_true params :
  on_connector params = Returns true ->
  exists p connectorId,
    params = Some p /\ prop p "connectorId" = Some connectorId /\
    positive connectorId = Some true.
Proof.
  unfold on_connector. destruct (truthy_value params); [|done].
  destruct params as [p|]; [|done].
  destruct (prop p "connectorId") as [c|] eqn:Hc; [|done].
  destruct (positive c) as [b|] eqn:Hb; [|done]. intros [= ->]. eauto.
Qed.

Lemma is_zero_not_positive v : is_zero (Some v) = true -> positive v = Some false.
Proof.
  destruct v; cbn; try done. intros ->. by rewrite andb_false_r.
Qed.

Lemma is_string_inj v s1 s2 :
  is_string v s1 = true -> is_string v s2 = true -> units s1 = units s2.
Proof.
  destruct v as [[]|]; cbn; try done. intros H1 H2.
  apply bool_decide_eq_true in H1, H2. congruence.
Qed.

End AlertsFacts.

Section AlertsCalls.

Import Alerts.

Variable flag : string -> bool.
Variable clientNames : string -> option string.

(** X21: a frame of the client raises at most one alert.  Whenever
    [callFromClient] returns, it did at most one thing, a notification sent
    or an unhandled status logged; a notification it sent is a status of the
    charge point or of a connector among those the [switch] has a case for,
    or a transaction, and the configuration key of that alert is set. *)
Theorem call_alerts_once clientId data acts :
  callFromClient flag clientNames clientId data = Returns acts ->
  length acts <= 1 /\
  Forall (fun n => call_notice n /\ flag (flag_of n) = true) (notices acts).
Proof.
  unfold callFromClient.
  destruct (JSON_parse data) as [payload|]; [|done].
  destruct (at_index payload 2 "2") as [action|]; [|done].
  destruct (at_index payload 3 "3") as [params|]; [|done].
  cbv zeta.
  destruct (is_string action "StatusNotification") eqn:Hsn.
  - (* the two blocks of StatusNotification exclude each other *)
    assert (is_string action "StartTransaction" = false) as ->.
    { destruct (is_string action "StartTransaction") eqn:E; [|done].
      by pose proof (is_string_inj _ _ _ Hsn E). }
    assert (is_string action "StopTransaction" = false) as ->.
    { destruct (is_string action "StopTransaction") eqn:E; [|done].
      by pose proof (is_string_inj _ _ _ Hsn E). }
    cbn [andb bind].
    destruct (truthy_value params && is_zero (prop (default JNull params) "connectorId"))
      eqn:Hz.
    + apply andb_true_iff in Hz as [Ht Hz].
      assert (on_connector params = Returns false) as ->.
      { unfold on_connector. rewrite Ht. destruct params as [p|]; [|done]. cbn in Hz |- *.
        destruct (prop p "connectorId") as [c|]; [|done].
        by rewrite (is_zero_not_positive _ Hz). }
      cbn [bind].
      destruct (status_switch _ _ _ _ _) as [acts1| |] eqn:Hs; [|done..].
      cbn [bind]. intros [= <-]. rewrite !app_nil_r.
      apply status_switch_acts in Hs as [Hlen Hn]. split; [done|].
      apply Forall_forall. intros n Hin. destruct (Hn n Hin) as (label & e & -> & Hl & Hf).
      done.
    + cbn [bind].
      destruct (on_connector params) as [[]| |]; [| |done..]; cbn [bind].
      * destruct (status_switch _ _ _ _ _) as [acts2| |] eqn:Hs; [|done..].
        cbn [bind]. intros [= <-]. rewrite !app_nil_r. cbn [app].
        apply status_switch_acts in Hs as [Hlen Hn]. split; [done|].
        apply Forall_forall. intros n Hin. destruct (Hn n Hin) as (label & e & -> & Hl & Hf).
        done.
      * intros [= <-]. split; [cbn; lia|constructor].
  - cbn [andb bind app].
    destruct (is_string action "StartTransaction") eqn:Hst.
    + assert (is_string action "StopTransaction" = false) as ->.
      { destruct (is_string action "StopTransaction") eqn:E; [|done].
        by pose proof (is_string_inj _ _ _ Hst E). }
      destruct (on_connector params) as [b| |]; [|done..]. cbn [bind app].
      intros [= <-]. rewrite app_nil_r.
      destruct b, (flag "conStartTransaction") eqn:Hf; cbn;
        (split; [lia|]); repeat constructor; done.
    + cbn [bind app]. destruct (is_string action "StopTransaction"); cbn [bind].
      * destruct (on_connector params) as [b| |]; [|done..]. cbn [bind app].
        intros [= <-].
        destruct b, (flag "conStopTransaction") eqn:Hf; cbn;
          (split; [lia|]); repeat constructor; done.
      * intros [= <-]. split; [cbn; lia|constructor].
Qed.

End AlertsCalls.

Section AlertsFrames.

Import Alerts.

Variable flag : string -> bool.
Variable clientNames : string -> option string.

(** X22: no alert without a connector id.  For a frame that parses to
    anything but null, if its fourth element carries no own [connectorId]
    (or is no object, or is missing), [callFromClient] returns having sent
    nothing and logged nothing, whatever the action and the configuration:
    so does a StopTransaction framed with [transactionId] and [meterStop]
    only, with [conStopTransaction] set. *)
Theorem call_without_connector_silent clientId data payload action params :
  JSON_parse data = Some payload ->
  at_index payload 2 "2" = Some action ->
  at_index payload 3 "3" = Some params ->
  (forall p, params = Some p -> prop p "connectorId" = None) ->
  callFromClient flag clientNames clientId data = Returns [].
Proof.
  intros Hp Ha Hq Hnone. unfold callFromClient. rewrite Hp, Ha, Hq. cbv zeta.
  assert (is_zero (prop (default JNull params) "connectorId") = false) as ->.
  { destruct params as [p|]; [|done]. cbn. by rewrite (Hnone p eq_refl). }
  assert (on_connector params = Returns false) as ->.
  { unfold on_connector. destruct (truthy_value params); [|done].
    destruct params as [p|]; [|done]. by rewrite (Hnone p eq_refl). }
  rewrite andb_false_r. cbn [bind].
  by destruct (is_string action "StatusNotification"),
       (is_string action "StartTransaction"), (is_string action "StopTransaction").
Qed.



End AlertsFrames.

(** ** The frames the notifier is handed *)

Lemma logs_hook_ok l : Forall hook_ok (logs l).
Proof. unfold logs. apply Forall_fmap. by apply Forall_true. Qed.

Lemma ups_hook_ok k l : Forall hook_ok (ups k l).
Proof. unfold ups. apply Forall_fmap. by apply Forall_true. Qed.

Lemma broadcast_hook_ok data k l : Forall hook_ok (broadcast data k l).
Proof.
  revert k. induction l as [|u l IH]; intros k; cbn; [constructor|].
  apply Forall_app. split; [|apply IH].
  destruct (Upstream.isConnected u); [apply ups_hook_ok|by repeat constructor].
Qed.

Lemma close_all_hook_ok k l : Forall hook_ok (snd (close_all k l)).
Proof.
  revert k. induction l as [|u l IH]; intros k; cbn; [constructor|].
  destruct (Upstream.close u) as [u' e]. specialize (IH (S k)).
  destruct (close_all (S k) l) as [l' e']. cbn in *.
  apply Forall_app. split; [apply ups_hook_ok|done].
Qed.

Lemma cleanupClientConnection_hook_ok s : Forall hook_ok (snd (cleanupClientConnection s)).
Proof.
  unfold cleanupClientConnection. destruct (negb (registered s)); [constructor|].
  pose proof (close_all_hook_ok 0 (upstreams s)) as H.
  destruct (close_all 0 (upstreams s)) as [l e]. destruct (Router.clear (router s)) as [r l2].
  cbn in *. rewrite !Forall_app. repeat split; [done|apply logs_hook_ok|by repeat constructor].
Qed.

Lemma flushMessageBufferIfAllConnected_hook_ok s :
  Forall hook_ok (snd (flushMessageBufferIfAllConnected s)).
Proof.
  unfold flushMessageBufferIfAllConnected.
  destruct (_ || _); [constructor|]. destruct (forallb _ _); by repeat constructor.
Qed.

Lemma checkUpstreamsStatus_hook_ok s : Forall hook_ok (snd (checkUpstreamsStatus s)).
Proof.
  unfold checkUpstreamsStatus. destruct (negb (registered s)); [constructor|].
  destruct (existsb _ _); [by repeat constructor|].
  destruct (forallb _ _); [|constructor].
  unfold close_client.
  pose proof (cleanupClientConnection_hook_ok
                (set_readyState (match readyState s with OPEN => CLOSING | st => st end) s)) as H.
  destruct (cleanupClientConnection _) as [s2 e2]. cbn in *.
  constructor; [done|]. by constructor.
Qed.

Lemma handleUpstreamMessage_hook_ok data serverName s :
  Forall hook_ok (snd (handleUpstreamMessage data serverName s)).
Proof.
  assert (Forall hook_ok
            (if bool_decide (readyState s = OPEN) then [ClientSend data] else [])) as Hr
    by (destruct (bool_decide _); by repeat constructor).
  assert (Forall hook_ok [ThrowTypeError]) as Hthrow by (by repeat constructor).
  unfold handleUpstreamMessage.
  destruct (parseMessage (stamps s) data) as [[m|] l0]; cbn.
  2:{ rewrite ?Forall_app. repeat split; auto using logs_hook_ok. }
  destruct (handleServerMessage (router s) (Some m) serverName) as [[[[]|] r1] l1]; cbn.
  2:{ rewrite ?Forall_app. repeat split; auto using logs_hook_ok. }
  destruct (strict_eq_num (type m) 3 || strict_eq_num (type m) 4); cbn.
  2:{ rewrite ?Forall_app. repeat split; auto using logs_hook_ok. }
  destruct (registered s); [destruct (upstreams s)|]; cbn.
  - rewrite ?Forall_app. repeat split; auto using logs_hook_ok.
  - destruct (shouldRelayResponseToClient _ _ _ _) as [[[]|] l2];
      cbn; rewrite ?Forall_app; repeat split; auto using logs_hook_ok.
  - destruct (shouldRelayResponseToClient _ _ _ _) as [[[]|] l2];
      cbn; rewrite ?Forall_app; repeat split; auto using logs_hook_ok.
Qed.

Lemma parseMessage_call stamp data m l :
  parseMessage stamp data = (Some m, l) -> strict_eq_num (type m) 2 = true ->
  call_frame data.
Proof.
  unfold parseMessage, call_frame.
  destruct (JSON_parse data) as [[| | | |[|t [|i rest]]|]|]; try done.
  intros [= <- <-]. cbn. eauto.
Qed.

Lemma handleClientMessage_hook_ok nf data s :
  Forall hook_ok (snd (handleClientMessage nf data s)).
Proof.
  unfold handleClientMessage.
  destruct (parseMessage (stamps s) data) as [[m|] l0] eqn:Hp; cbn.
  2:{ apply Forall_app. split; [apply logs_hook_ok|by repeat constructor]. }
  destruct (routeClientMessage (router s) (Some m)) as [[[routing|] r1] l1]; cbn.
  2:{ rewrite ?Forall_app; repeat split; auto using logs_hook_ok.
      by repeat constructor. }
  destruct (sendToAll routing).
  - destruct (strict_eq_num (type m) 2) eqn:H2; cbn.
    + assert (hook_ok (Notify (callFromClient (clientId s) data))) as Hcall
        by (cbn; by eapply parseMessage_call).
      destruct (registerClientCall _ _) as [[[[]|] r2] l2]; cbn.
      2:{ rewrite ?Forall_app; repeat split; auto using logs_hook_ok.
          by repeat constructor. }
      destruct nf as [throws|]; cbn.
      2:{ rewrite ?Forall_app; repeat split;
            auto using logs_hook_ok, broadcast_hook_ok. }
      destruct (negb (registered s)); cbn.
      { rewrite ?Forall_app; repeat split; auto using logs_hook_ok.
        by repeat constructor. }
      destruct (throws _ _); cbn;
        rewrite ?Forall_app, ?Forall_cons; repeat split;
        auto using logs_hook_ok, broadcast_hook_ok.
    + rewrite ?Forall_app; repeat split; auto using logs_hook_ok, broadcast_hook_ok.
  - destruct (sendToServer routing) as [target|]; cbn;
      [|rewrite ?Forall_app; repeat split; auto using logs_hook_ok].
    destruct (truthy target); cbn;
      [|rewrite ?Forall_app; repeat split; auto using logs_hook_ok].
    destruct (list_find _ (upstreams s)) as [[k u]|]; cbn.
    + destruct (Upstream.isConnected u); cbn;
        rewrite ?Forall_app; repeat split; auto using logs_hook_ok, ups_hook_ok;
        by repeat constructor.
    + rewrite ?Forall_app; repeat split; auto using logs_hook_ok.
      by repeat constructor.
Qed.

Lemma feed_hook_ok nf messages s : Forall hook_ok (snd (feed nf messages s)).
Proof.
  revert s. induction messages as [|msg messages IH]; intros s; cbn; [constructor|].
  pose proof (handleClientMessage_hook_ok nf msg s) as H.
  destruct (handleClientMessage nf msg s) as [s1 e1]. specialize (IH s1).
  destruct (threw e1); [done|].
  destruct (feed nf messages s1) as [s2 e2]. cbn in *. apply Forall_app. by split.
Qed.

Lemma sendBufferToUpstream_hook_ok nf k s :
  Forall hook_ok (snd (sendBufferToUpstream nf k s)).
Proof.
  unfold sendBufferToUpstream. destruct (_ || _); [constructor|].
  destruct (upstreams s !! k) as [u|]; [|constructor].
  destruct (k =? 0)%nat.
  - pose proof (feed_hook_ok nf (messageBuffer s) s) as H.
    destruct (feed nf (messageBuffer s) s) as [s1 e1]. cbn in *. by constructor.
  - cbn [snd]. constructor; [done|].
    induction (messageBuffer s) as [|msg l IH]; cbn; [constructor|].
    apply Forall_app. split; [apply ups_hook_ok|done].
Qed.

Lemma notify_hook_ok nf h :
  match h with callFromClient _ data => call_frame data | _ => True end ->
  Forall hook_ok (notify nf h).
Proof. intros H. unfold notify. destruct nf; by repeat constructor. Qed.

Lemma callback_hook_ok nf k cb serverName s :
  Forall hook_ok (snd (callback nf k cb serverName s)).
Proof.
  destruct cb as [data| | |]; cbn [callback].
  - apply handleUpstreamMessage_hook_ok.
  - pose proof (sendBufferToUpstream_hook_ok nf k s) as H1.
    destruct (sendBufferToUpstream nf k s) as [s1 e1].
    destruct (threw e1); [done|].
    pose proof (flushMessageBufferIfAllConnected_hook_ok s1) as H2.
    destruct (flushMessageBufferIfAllConnected s1) as [s2 e2]. cbn [fst snd] in *.
    rewrite !Forall_app. repeat split; [done..|by apply notify_hook_ok].
  - pose proof (checkUpstreamsStatus_hook_ok s) as H1.
    destruct (checkUpstreamsStatus s) as [s1 e1]. cbn [fst snd] in *.
    rewrite !Forall_app. split; [done|by apply notify_hook_ok].
  - pose proof (flushMessageBufferIfAllConnected_hook_ok s) as H1.
    destruct (flushMessageBufferIfAllConnected s) as [s1 e1].
    pose proof (checkUpstreamsStatus_hook_ok s1) as H2.
    destruct (checkUpstreamsStatus s1) as [s2 e2]. cbn [fst snd] in *.
    rewrite !Forall_app. by split.
Qed.

Lemma run_link_hook_ok nf k p s : Forall hook_ok (snd (run_link nf k p s)).
Proof.
  revert s. induction p as [u|e p IH|cb u cont IH]; intros s; cbn [run_link].
  - constructor.
  - specialize (IH s). destruct (run_link nf k p s) as [s1 e1]. cbn in *. by constructor.
  - pose proof (callback_hook_ok nf k cb (Upstream.name u)
                  (set_upstreams (<[k := u]> (upstreams s)) s)) as H1.
    destruct (callback nf k cb _ _) as [s1 e1].
    destruct (threw e1); [done|].
    destruct (upstreams s1 !! k) as [u'|]; [|done].
    specialize (IH u' s1). destruct (run_link nf k (cont u') s1) as [s2 e2]. cbn in *.
    apply Forall_app. by split.
Qed.

Lemma on_link_hook_ok nf k m s : Forall hook_ok (snd (on_link nf k m s)).
Proof.
  unfold on_link. destruct (upstreams s !! k); [apply run_link_hook_ok|constructor].
Qed.

Lemma handle_hook_ok wt nf ev s : Forall hook_ok (snd (handle wt nf ev s)).
Proof.
  destruct ev; cbn [handle]; try apply on_link_hook_ok; try by repeat constructor.
  - unfold onClientMessage. destruct (_ && _); [by repeat constructor|].
    apply handleClientMessage_hook_ok.
  - unfold onClientClose.
    pose proof (cleanupClientConnection_hook_ok (set_readyState CLOSED s)) as H.
    destruct (cleanupClientConnection _) as [s1 e1]. cbn in *.
    constructor; [done|]. apply Forall_app. split; [by apply notify_hook_ok|done].
Qed.

Lemma at_ws_hooks_ok ws e : Forall hook_ok e -> Forall hooks_ok (at_ws ws e).
Proof. intros H. unfold at_ws. by apply Forall_fmap. Qed.

Lemma on_session_hooks_ok ws h l :
  (forall s, Forall hook_ok (snd (h s))) -> Forall hooks_ok (snd (on_session ws h l)).
Proof.
  intros Hh. induction l as [|s l IH]; cbn; [constructor|].
  destruct (clientWs s =? ws)%nat.
  - specialize (Hh s). destruct (h s) as [s1 e1]. cbn in *. by apply at_ws_hooks_ok.
  - by destruct (on_session ws h l) as [l' e].
Qed.

Lemma closeExisting_hooks_ok newWs id l : Forall hooks_ok (snd (closeExisting newWs id l)).
Proof.
  induction l as [|s l IH]; cbn; [constructor|].
  destruct (_ && _).
  - pose proof (cleanupClientConnection_hook_ok s) as H.
    destruct (cleanupClientConnection s) as [s1 e1]. cbn in *.
    constructor; [done|]. apply at_ws_hooks_ok. apply Forall_app. split; [done|].
    by repeat constructor.
  - by destruct (closeExisting newWs id l) as [l' e].
Qed.

Lemma connect_all_hook_ok wt nf n k s : Forall hook_ok (snd (connect_all wt nf n k s)).
Proof.
  revert k s. induction n as [|n IH]; intros k s; cbn; [constructor|].
  pose proof (on_link_hook_ok nf k (Upstream.connect wt) s) as H.
  destruct (on_link nf k (Upstream.connect wt) s) as [s1 e1]. specialize (IH (S k) s1).
  destruct (connect_all wt nf n (S k) s1) as [s2 e2]. cbn in *. apply Forall_app. by split.
Qed.

Lemma handleClientConnection_hooks_ok wt request wsProtocol this :
  Forall hooks_ok (snd (handleClientConnection wt request wsProtocol this)).
Proof.
  unfold handleClientConnection. cbv zeta.
  destruct (path_match _) as [id|]; [|by repeat constructor].
  cbn [sessions notifier config_upstreams].
  pose proof (closeExisting_hooks_ok (nextWs this) id (sessions this)) as H1.
  destruct (closeExisting _ _ _) as [l1 e1].
  match goal with
  | |- context [connect_all wt ?nf ?n ?k ?s] =>
      pose proof (connect_all_hook_ok wt nf n k s) as H2;
      destruct (connect_all wt nf n k s) as [s2 e2]
  end.
  cbn [fst snd] in *. apply Forall_app. split; [done|]. apply at_ws_hooks_ok.
  constructor; [done|]. apply Forall_app. split; [by apply notify_hook_ok|].
  by constructor.
Qed.

Lemma cleanup_all_hooks_ok l : Forall hooks_ok (snd (cleanup_all l)).
Proof.
  induction l as [|s l IH]; cbn; [constructor|].
  pose proof (cleanupClientConnection_hook_ok s) as H.
  destruct (cleanupClientConnection s) as [s1 e1]. destruct (cleanup_all l) as [l' e].
  cbn in *. apply Forall_app. split; [by apply at_ws_hooks_ok|done].
Qed.

Lemma step_hooks_ok wt ev this : Forall hooks_ok (snd (step wt ev this)).
Proof.
  destruct ev as [request wsProtocol|ws ev|]; cbn [step].
  - apply handleClientConnection_hooks_ok.
  - pose proof (on_session_hooks_ok ws (handle wt (notifier this) ev) (sessions this)
                  (handle_hook_ok wt (notifier this) ev)) as H.
    by destruct (on_session _ _ _) as [l e].
  - unfold stop. pose proof (cleanup_all_hooks_ok (sessions this)) as H.
    destruct (cleanup_all _) as [l e]. cbn in *. apply Forall_app. split; [done|].
    by repeat constructor.
Qed.

Lemma run_hooks_ok wt evs this : Forall hooks_ok (snd (run wt evs this)).
Proof.
  revert this. induction evs as [|ev evs IH]; intros this; cbn; [constructor|].
  pose proof (step_hooks_ok wt ev this) as H.
  destruct (step wt ev this) as [this1 e1]. specialize (IH this1).
  destruct (run wt evs this1) as [this2 e2]. cbn in *. apply Forall_app. by split.
Qed.

Lemma bind_no_throw {A B : Type} (x : Alerts.Outcome A) (f : A -> Alerts.Outcome B) :
  x <> Alerts.Throws -> (forall a, f a <> Alerts.Throws) ->
  Alerts.bind x f <> Alerts.Throws.
Proof. intros Hx Hf. destruct x; cbn; [apply Hf|done..]. Qed.

Lemma status_switch_no_throw flag cases prefix notice params :
  Alerts.status_switch flag cases prefix notice params <> Alerts.Throws.
Proof.
  unfold Alerts.status_switch.
  destruct (List.find _ _); repeat (match goal with |- context [if ?b then _ else _] => destruct b end); done.
Qed.

Lemma on_connector_no_throw params : Alerts.on_connector params <> Alerts.Throws.
Proof.
  unfold Alerts.on_connector. destruct (Alerts.truthy_value params); [|done].
  destruct params as [p|]; [|done]. destruct (Alerts.prop p "connectorId") as [c|]; [|done].
  by destruct (Alerts.positive c).
Qed.

Lemma callFromClient_no_throw flag clientNames clientId data :
  call_frame data ->
  Alerts.callFromClient flag clientNames clientId data <> Alerts.Throws.
Proof.
  intros (t & messageId & rest & Hp & _). unfold Alerts.callFromClient. rewrite Hp.
  cbn [Alerts.at_index]. cbv zeta.
  repeat (apply bind_no_throw; [|intros ?]);
    repeat (match goal with |- context [if ?b then _ else _] => destruct b end);
    try apply status_switch_no_throw;
    try (apply bind_no_throw; [apply on_connector_no_throw|intros []]);
    try apply status_switch_no_throw; done.
Qed.

(** X24: the notifier parses what the router parsed.  Along every sequence
    of events, from any state of the proxy, each frame handed to
    [callFromClient], directly or from the buffer, parses as an array of at
    least two elements whose first is the number 2; so the hook never throws
    at its own [JSON.parse] nor at the reads of [payload[2]] and
    [payload[3]]. *)
Theorem notifier_parses_its_frames (wt : string -> option string -> bool)
    (evs : list Event) (this : OcppProxy) (flag : string -> bool)
    (clientNames : string -> option string) (ws : nat) (clientId data : string) :
  At ws (Notify (callFromClient clientId data)) ∈ snd (run wt evs this) ->
  call_frame data /\
  Alerts.callFromClient flag clientNames clientId data <> Alerts.Throws.
Proof.
  intros Hin. pose proof (run_hooks_ok wt evs this) as H.
  rewrite Forall_forall in H. specialize (H _ Hin). cbn in H. split; [done|].
  by apply callFromClient_no_throw.
Qed.

(** ** Which hook for which event *)

Lemma hook_calls_app e1 e2 : hook_calls (e1 ++ e2) = hook_calls e1 ++ hook_calls e2.
Proof. unfold hook_calls. apply omap_app. Qed.

Lemma hook_calls_none e :
  Forall (fun e => match e with Notify _ => False | _ => True end) e -> hook_calls e = [].
Proof.
  induction 1 as [|x e Hx _ IH]; [done|]. unfold hook_calls in *. cbn. rewrite IH.
  by destruct x.
Qed.

Lemma hook_calls_log l e : hook_calls (Log l :: e) = hook_calls e.
Proof. done. Qed.

Lemma hook_calls_up k x e : hook_calls (Up k x :: e) = hook_calls e.
Proof. done. Qed.

Lemma hook_calls_logs l : hook_calls (logs l) = [].
Proof. apply hook_calls_none. unfold logs. apply Forall_fmap. by apply Forall_true. Qed.

Lemma hook_calls_ups k l : hook_calls (ups k l) = [].
Proof. apply hook_calls_none. unfold ups. apply Forall_fmap. by apply Forall_true. Qed.

Lemma hook_calls_notify nf h :
  hook_calls (notify nf h) = match nf with Some _ => [h] | None => [] end.
Proof. by destruct nf. Qed.

Lemma hook_calls_broadcast data k l : hook_calls (broadcast data k l) = [].
Proof.
  revert k. induction l as [|u l IH]; intros k; cbn [broadcast]; [done|].
  rewrite hook_calls_app, IH. destruct (Upstream.isConnected u); [|done].
  by rewrite hook_calls_ups.
Qed.

Lemma hook_calls_close_all k l : hook_calls (snd (close_all k l)) = [].
Proof.
  revert k. induction l as [|u l IH]; intros k; cbn [close_all]; [done|].
  destruct (Upstream.close u) as [u' e]. specialize (IH (S k)).
  destruct (close_all (S k) l) as [l' e']. cbn [fst snd] in *.
  by rewrite hook_calls_app, hook_calls_ups, IH.
Qed.

Lemma hook_calls_cleanup s : hook_calls (snd (cleanupClientConnection s)) = [].
Proof.
  unfold cleanupClientConnection. destruct (negb (registered s)); [done|].
  pose proof (hook_calls_close_all 0 (upstreams s)) as H.
  destruct (close_all 0 (upstreams s)) as [l e]. destruct (Router.clear (router s)) as [r l2].
  cbn [fst snd] in *. by rewrite !hook_calls_app, H, hook_calls_logs.
Qed.

Lemma hook_calls_flush s : hook_calls (snd (flushMessageBufferIfAllConnected s)) = [].
Proof.
  unfold flushMessageBufferIfAllConnected.
  destruct (_ || _); [done|]. by destruct (forallb _ _).
Qed.

Lemma hook_calls_check s : hook_calls (snd (checkUpstreamsStatus s)) = [].
Proof.
  unfold checkUpstreamsStatus. destruct (negb (registered s)); [done|].
  destruct (existsb _ _); [done|]. destruct (forallb _ _); [|done].
  unfold close_client.
  pose proof (hook_calls_cleanup
                (set_readyState (match readyState s with OPEN => CLOSING | st => st end) s)) as H.
  destruct (cleanupClientConnection _) as [s2 e2]. cbn [fst snd] in *.
  by rewrite hook_calls_log.
Qed.

Lemma hook_calls_upstream_message data serverName s :
  hook_calls (snd (handleUpstreamMessage data serverName s)) = [].
Proof.
  apply hook_calls_none.
  eapply Forall_impl; [apply (handleUpstreamMessage_effects data serverName s)|].
  by intros [].
Qed.

Lemma hook_calls_client_message nf data s :
  Forall is_call (hook_calls (snd (handleClientMessage nf data s))).
Proof.
  pose proof (handleClientMessage_effects nf data s) as H.
  induction H as [|x e Hx _ IH]; [constructor|].
  destruct x as [| | | |h|]; try exact IH.
  change (Forall is_call (h :: hook_calls e)). constructor; [|exact IH].
  cbn in Hx. by subst h.
Qed.

Lemma hook_calls_feed nf messages s :
  Forall is_call (hook_calls (snd (feed nf messages s))).
Proof.
  revert s. induction messages as [|msg messages IH]; intros s; cbn [feed]; [constructor|].
  pose proof (hook_calls_client_message nf msg s) as H.
  destruct (handleClientMessage nf msg s) as [s1 e1]. specialize (IH s1).
  destruct (threw e1); [done|].
  destruct (feed nf messages s1) as [s2 e2]. cbn [fst snd] in *.
  rewrite hook_calls_app. apply Forall_app. by split.
Qed.

Lemma hook_calls_sendBuffer nf k s :
  Forall is_call (hook_calls (snd (sendBufferToUpstream nf k s))).
Proof.
  unfold sendBufferToUpstream. destruct (_ || _); [constructor|].
  destruct (upstreams s !! k) as [u|]; [|constructor].
  destruct (k =? 0)%nat.
  - pose proof (hook_calls_feed nf (messageBuffer s) s) as H.
    by destruct (feed nf (messageBuffer s) s) as [s1 e1].
  - cbn [snd]. change (Forall is_call (hook_calls (flat_map
      (fun msg => ups k (snd (Upstream.send u msg))) (messageBuffer s)))).
    induction (messageBuffer s) as [|msg l IH]; cbn [flat_map]; [constructor|].
    by rewrite hook_calls_app, hook_calls_ups.
Qed.

Lemma callback_gave_up nf k serverName s :
  hook_calls (snd (callback nf k Upstream.OnGaveUp serverName s)) = [].
Proof.
  cbn [callback].
  pose proof (hook_calls_flush s) as H1.
  destruct (flushMessageBufferIfAllConnected s) as [s1 e1].
  pose proof (hook_calls_check s1) as H2.
  destruct (checkUpstreamsStatus s1) as [s2 e2]. cbn [fst snd] in *.
  by rewrite hook_calls_app, H1, H2.
Qed.

Lemma callback_gave_up_returns nf k serverName s :
  threw (snd (callback nf k Upstream.OnGaveUp serverName s)) = false.
Proof.
  cbn [callback].
  pose proof (threw_flush s) as H1.
  destruct (flushMessageBufferIfAllConnected s) as [s1 e1].
  pose proof (threw_check s1) as H2.
  destruct (checkUpstreamsStatus s1) as [s2 e2]. cbn [fst snd] in *.
  by rewrite threw_app, H1, H2.
Qed.

Lemma run_link_unannounced nf k p s :
  unannounced p -> hook_calls (snd (run_link nf k p s)) = [].
Proof.
  intros Hp. revert s. induction Hp as [u|e p Hp IH|u cont Hc IH]; intros s; cbn [run_link].
  - done.
  - specialize (IH s). by destruct (run_link nf k p s) as [s1 e1].
  - pose proof (callback_gave_up nf k (Upstream.name u)
                  (set_upstreams (<[k := u]> (upstreams s)) s)) as H1.
    pose proof (callback_gave_up_returns nf k (Upstream.name u)
                  (set_upstreams (<[k := u]> (upstreams s)) s)) as H0.
    destruct (callback nf k Upstream.OnGaveUp _ _) as [s1 e1]. cbn [fst snd] in *.
    rewrite H0.
    destruct (upstreams s1 !! k) as [u'|]; [|done].
    specialize (IH u' s1). destruct (run_link nf k (cont u') s1) as [s2 e2].
    cbn [fst snd] in *. by rewrite hook_calls_app, H1, IH.
Qed.

Lemma scheduleReconnect_unannounced u : unannounced (Upstream.scheduleReconnect u).
Proof.
  unfold Upstream.scheduleReconnect.
  destruct (Upstream.closed u); [constructor|].
  destruct (bool_decide _); [constructor|].
  destruct (_ <=? _)%nat; repeat constructor.
Qed.

Lemma connect_unannounced wt u : unannounced (Upstream.connect wt u).
Proof.
  unfold Upstream.connect. destruct (_ && _); [by repeat constructor|].
  constructor. destruct (wt _ _); [|by repeat constructor].
  constructor. apply scheduleReconnect_unannounced.
Qed.

(** X25: which hook for which event.  With a notifier, the [close] of the
    client socket calls [disconnectedFromProxy] once and no other hook; the
    [close] of the socket of a link calls [disconnectedFromUpstream] once,
    with the name of that link, and nothing else, whether or not it tears the
    session down, schedules a reconnection or gives up; the [open] of a link
    calls [connectedToUpstream] once, after the [callFromClient] calls of the
    buffered frames it routes, unless the handler throws on one of these
    frames: the exception ends the open handler, and [connectedToUpstream]
    is not called; a frame of the client calls [callFromClient] only; a
    frame or an error of an upstream, an error or the closing of the client
    and a reconnection timer call no hook.  Without a notifier none of the
    connection hooks is called. *)
Theorem alerts_follow_events (wt : string -> option string -> bool) (nf : Notifier)
    (s : Session) :
  let told h := match nf with Some _ => [h] | None => [] end in
  let hooks ev := hook_calls (snd (handle wt nf ev s)) in
  hooks client_close = told (disconnectedFromProxy (clientId s)) /\
  (forall k u, upstreams s !! k = Some u ->
     hooks (upstream_close k)
       = told (disconnectedFromUpstream (clientId s) (Upstream.name u)) /\
     exists calls,
       hooks (upstream_open k)
         = calls ++ (if threw (snd (handle wt nf (upstream_open k) s)) then []
                     else told (connectedToUpstream (clientId s) (Upstream.name u))) /\
       Forall is_call calls) /\
  (forall data, Forall is_call (hooks (client_message data))) /\
  (forall ev,
     match ev with
     | client_closing | client_error | upstream_message _ _ | upstream_error _
     | reconnect_timer _ => True
     | _ => False
     end -> hooks ev = []).
Proof.
  intros told hooks. subst told hooks. cbv beta. repeat split.
  - cbn [handle]. unfold onClientClose.
    pose proof (hook_calls_cleanup (set_readyState CLOSED s)) as H.
    destruct (cleanupClientConnection _) as [s1 e1]. cbn [fst snd] in *.
    by rewrite hook_calls_log, hook_calls_app, H, hook_calls_notify, app_nil_r.
  - cbn [handle]. unfold on_link. rewrite H. unfold Upstream.on_close.
    cbn [run_link callback].
    pose proof (hook_calls_check
                  (set_upstreams (<[k := Upstream.set_isConnected false u]> (upstreams s)) s))
      as H1.
    pose proof (threw_check
                  (set_upstreams (<[k := Upstream.set_isConnected false u]> (upstreams s)) s))
      as H0.
    destruct (checkUpstreamsStatus _) as [s1 e1]. cbn [fst snd] in *.
    rewrite threw_app, H0, threw_notify. cbn [orb].
    assert (forall u' s', hook_calls (snd (run_link nf k
              (if Upstream.closed u' then Upstream.Ret u' else Upstream.scheduleReconnect u')
              s')) = []) as Hc.
    { intros u' s'. apply run_link_unannounced.
      destruct (Upstream.closed u'); [constructor|apply scheduleReconnect_unannounced]. }
    destruct (upstreams s1 !! k) as [u'|].
    + specialize (Hc u' s1). destruct (run_link _ _ _ _) as [s2 e2]. cbn [fst snd] in *.
      by rewrite hook_calls_up, !hook_calls_app, H1, Hc, hook_calls_notify, app_nil_r.
    + cbn [snd]. by rewrite hook_calls_up, !hook_calls_app, H1, hook_calls_notify.
  - cbn [handle]. unfold on_link. rewrite H. unfold Upstream.on_open.
    cbn [run_link callback].
    match goal with
    | |- context [sendBufferToUpstream nf k ?s0] =>
        pose proof (hook_calls_sendBuffer nf k s0) as H1;
        destruct (sendBufferToUpstream nf k s0) as [s1 e1]
    end.
    pose proof (hook_calls_flush s1) as H2.
    pose proof (threw_flush s1) as H3.
    exists (hook_calls e1). split; [|done].
    destruct (threw e1) eqn:Hth.
    + rewrite Hth. cbn [snd].
      change (threw (Up k ?x :: e1)) with (threw e1). rewrite Hth.
      by rewrite hook_calls_up, app_nil_r.
    + destruct (flushMessageBufferIfAllConnected s1) as [s2 e2]. cbn [fst snd] in *.
      rewrite !threw_app, Hth, H3, threw_notify. cbn [orb].
      destruct (upstreams s2 !! k) as [u'|]; cbn [run_link snd];
        change (threw (Up k ?x :: ?e)) with (threw e);
        rewrite ?app_nil_r, !threw_app, Hth, H3, threw_notify; cbn [orb];
        rewrite hook_calls_up, !hook_calls_app, H2, hook_calls_notify; done.
  - intros data. cbn [handle]. unfold onClientMessage.
    destruct (_ && _); [constructor|]. apply hook_calls_client_message.
  - intros [] Hev; try done; cbn [handle].
    + unfold on_link. destruct (upstreams s !! k) as [u|]; [|done].
      unfold Upstream.on_message. cbn [run_link callback].
      pose proof (hook_calls_upstream_message data (Upstream.name u)
                    (set_upstreams (<[k := u]> (upstreams s)) s)) as H1.
      destruct (handleUpstreamMessage _ _ _) as [s1 e1]. cbn [fst snd] in *.
      destruct (threw e1); [done|].
      destruct (upstreams s1 !! k); cbn [run_link snd]; by rewrite ?app_nil_r.
    + unfold on_link. by destruct (upstreams s !! k).
    + unfold on_link. destruct (upstreams s !! k) as [u|]; [|done].
      apply run_link_unannounced. apply connect_unannounced.
Qed.

Lemma hooks_at_app o1 o2 : hooks_at (o1 ++ o2) = hooks_at o1 ++ hooks_at o2.
Proof. unfold hooks_at. apply omap_app. Qed.

Lemma hooks_at_ws ws e : hooks_at (at_ws ws e) = (fun h => (ws, h)) <$> hook_calls e.
Proof.
  unfold hooks_at, at_ws, hook_calls. induction e as [|x e IH]; [done|].
  cbn. rewrite IH. by destruct x.
Qed.

Lemma hooks_at_closeExisting newWs id l : hooks_at (snd (closeExisting newWs id l)) = [].
Proof.
  induction l as [|s l IH]; cbn [closeExisting]; [done|].
  destruct (_ && _).
  - pose proof (hook_calls_cleanup s) as H.
    destruct (cleanupClientConnection s) as [s1 e1]. cbn [fst snd close_client] in *.
    change (hooks_at (at_ws (clientWs s) (e1 ++ [ClientClose 1001 "Replaced by a new connection"])) = []).
    by rewrite hooks_at_ws, hook_calls_app, H.
  - by destruct (closeExisting newWs id l) as [l' e].
Qed.

Lemma hook_calls_connect_all wt nf n k s : hook_calls (snd (connect_all wt nf n k s)) = [].
Proof.
  revert k s. induction n as [|n IH]; intros k s; cbn [connect_all]; [done|].
  assert (hook_calls (snd (on_link nf k (Upstream.connect wt) s)) = []) as H.
  { unfold on_link. destruct (upstreams s !! k); [|done].
    apply run_link_unannounced, connect_unannounced. }
  destruct (on_link nf k (Upstream.connect wt) s) as [s1 e1]. specialize (IH (S k) s1).
  destruct (connect_all wt nf n (S k) s1) as [s2 e2]. cbn [fst snd] in *.
  by rewrite hook_calls_app, H, IH.
Qed.

Lemma hooks_at_cleanup_all l : hooks_at (snd (cleanup_all l)) = [].
Proof.
  induction l as [|s l IH]; cbn [cleanup_all]; [done|].
  pose proof (hook_calls_cleanup s) as H.
  destruct (cleanupClientConnection s) as [s1 e1]. destruct (cleanup_all l) as [l' e].
  cbn [fst snd] in *. by rewrite hooks_at_app, hooks_at_ws, H, IH.
Qed.

(** X26: a connection is announced once.  [handleClientConnection] calls
    [connectedToProxy] exactly once, for the new socket and with the id of
    its path, when the path is accepted and a notifier is set, and calls no
    other hook: none for a rejected path, none for the session the new
    connection replaces, none while the upstream links are created.
    [stop()] calls no hook. *)
Theorem connection_announced_once (wt : string -> option string -> bool)
    (request : Request) (wsProtocol : string) (this : OcppProxy) :
  hooks_at (snd (handleClientConnection wt request wsProtocol this))
    = match path_match (strip_slashes (default "/" (or_else (url request) None))) with
      | Some id => match notifier this with
                 | Some _ => [(nextWs this, connectedToProxy id)]
                 | None => []
                 end
      | None => []
      end /\
  hooks_at (snd (stop this)) = [].
Proof.
  split.
  - unfold handleClientConnection. cbv zeta.
    destruct (path_match _) as [id|]; [|done].
    cbn [sessions notifier config_upstreams].
    pose proof (hooks_at_closeExisting (nextWs this) id (sessions this)) as H1.
    destruct (closeExisting _ _ _) as [l1 e1].
    match goal with
    | |- context [connect_all wt ?nf ?n ?k ?s] =>
        pose proof (hook_calls_connect_all wt nf n k s) as H2;
        destruct (connect_all wt nf n k s) as [s2 e2]
    end.
    cbn [fst snd] in *.
    rewrite hooks_at_app, H1, hooks_at_ws, hook_calls_log, hook_calls_app, hook_calls_notify,
      hook_calls_log, H2, app_nil_r.
    by destruct (notifier this).
  - unfold stop. pose proof (hooks_at_cleanup_all (sessions this)) as H.
    destruct (cleanup_all _) as [l e]. cbn [fst snd] in *.
    by rewrite hooks_at_app, H.
Qed.

(** ** The properties at work *)

(** The scenario sessions are states the proxy reaches. *)
Lemma live_reached :
  sessions (fst (run accepts
    [connection station_request "ocpp1.6"; of_session 0 (upstream_open 0);
     of_session 0 (upstream_open 1)] station_proxy)) = [live].
Proof. vm_compute. reflexivity. Qed.

Lemma waiting_reached :
  sessions (fst (run accepts [connection station_request "ocpp1.6"] station_proxy))
  = [waiting].
Proof. vm_compute. reflexivity. Qed.

(** Numbers at work: literals are rounded to the nearest binary64, ties to
    even, down to the subnormals and up to infinity. *)
Lemma binary64_rounds :
  binary64 20000000000000000001 (-19) = binary64 2 0 /\
  binary64 9007199254740993 0 = binary64 9007199254740992 0 /\
  binary64 9007199254740995 0 = binary64 9007199254740996 0 /\
  binary64 1 (-1) = Finite 3602879701896397 (-55) /\
  binary64 5 (-324) = Finite 1 (-1074) /\
  binary64 2 (-324) = Finite 0 0 /\
  binary64 17976931348623157 292 = Finite 9007199254740991 971 /\
  binary64 1 309 = Infinite false /\
  binary64 (-25) (-1) = Finite (-5) (-1).
Proof. vm_compute. repeat split; reflexivity. Qed.

(** A type that rounds to 2 makes a CALL, written to both upstreams; an id
    that rounds to the id of a pending call of the client is that id: the
    secondary's reply is dropped, the primary's relayed. *)
Lemma rounded_numbers_routed :
  upstream_writes (snd (handleClientMessage station_notifier rounded_call live))
    = [(0, rounded_call); (1, rounded_call)] /\
  let s1 := fst (handleClientMessage station_notifier wide_call live) in
  client_sends (snd (on_link station_notifier 1 (Upstream.on_message wide_reply) s1)) = [] /\
  client_sends (snd (on_link station_notifier 0 (Upstream.on_message wide_reply) s1))
    = [wide_reply].
Proof. vm_compute. repeat split; reflexivity. Qed.

(** C10 at work: text that is no JSON, sent by the secondary, reaches the
    client as it came. *)
Lemma unparseable_upstream_frame_witness :
  handleUpstreamMessage "hello" "SEC" live =
    (set_stamps 1 live, [Log FailedToParse; ClientSend "hello"]).
Proof.
  apply (unparseable_upstream_frame_relayed "hello" "SEC" live).
  vm_compute. reflexivity.
Defined.

(** C6 at work: the secondary reports its disconnect when the primary is
    already lost, and the session is destroyed. *)
Lemma session_survival_witness :
  registered (fst (callback station_notifier 1 Upstream.OnDisconnected "SEC" lost)) = false /\
  ClientClose 1001 "All upstream servers unavailable"
    ∈ snd (callback station_notifier 1 Upstream.OnDisconnected "SEC" lost).
Proof.
  apply (proj1 (session_survival station_notifier 1 Upstream.OnDisconnected "SEC" lost
                  eq_refl (or_introl eq_refl))).
  repeat constructor.
Defined.








(** The jammed session is a state the proxy reaches. *)
Lemma jammed_reached : sessions (fst (run accepts jam station_proxy)) = [jammed].
Proof. vm_compute. reflexivity. Qed.


(** C7 at work: the first reconnection of a new link is set 5000 ms ahead. *)
Lemma reconnect_backoff_witness :
  snd (Upstream.run_alone
         (Upstream.scheduleReconnect
            (Upstream.new "PRI" "ws://pri/" "STATION01" "ocpp1.6" None)))
  = [Upstream.Did (Upstream.LLog (ReconnectingIn 5000 1 10));
     Upstream.Did (Upstream.SetTimeout 5000)].
Proof.
  rewrite (proj1 (reconnect_backoff accepts "PRI" "ws://pri/" "STATION01" "ocpp1.6" None 0)
             (Upstream.new "PRI" "ws://pri/" "STATION01" "ocpp1.6" None)
             eq_refl eq_refl).
  reflexivity.
Defined.

(** C9 at work: the station connects a second time; its first session is
    torn down and its socket closed before the second session is
    registered. *)
Lemma one_session_per_client_id_witness :
  let torn_down :=
    fst (close_client 1001 "Replaced by a new connection"
           (fst (cleanupClientConnection waiting))) in
  registered torn_down = false /\
  closeExisting 1 "STATION01" (sessions station_connected) =
    ([torn_down],
     At 1 (Log ClientIdInUse)
     :: at_ws 0 (snd (cleanupClientConnection waiting)
                 ++ [ClientClose 1001 "Replaced by a new connection"])).
Proof.
  destruct (one_session_per_client_id accepts) as [Hu Hc].
  destruct (Hc station_connected station_request "ocpp1.6" 0 waiting)
    as (H1 & H2 & _).
  - apply (Hu "ws://pri/" (Some "ws://sec/") station_notifier
             [connection station_request "ocpp1.6"]).
  - vm_compute. reflexivity.
  - reflexivity.
  - vm_compute. reflexivity.
  - split; [exact H2|exact H1].
Defined.

(** C8, the code at a request that carries both headers: the sockets to the
    two upstreams are opened with X-Forwarded-For and X-Real-IP alone; the
    Authorization and User-Agent values the handler collected reach no
    socket, the constructor of the link having no parameter for them. *)
Lemma authorization_header_not_forwarded :
  headers station_request !! "authorization" = Some "Basic abc" /\
  headers station_request !! "user-agent" = Some "cp/1.0" /\
  opened_sockets
    (snd (handleClientConnection accepts station_request "ocpp1.6" station_proxy))
  = [("ws://pri/STATION01",
      [("X-Forwarded-For", "10.0.0.7"); ("X-Real-IP", "10.0.0.7")]);
     ("ws://sec/STATION01",
      [("X-Forwarded-For", "10.0.0.7"); ("X-Real-IP", "10.0.0.7")])].
Proof. vm_compute. repeat split; reflexivity. Qed.

(** X1 at work: the station answers the secondary's CALL twice; the second
    answer finds no entry. *)
Lemma client_reply_routed_once_witness :
  snd (handleClientMessage station_notifier remote_start_reply
         (fst (handleClientMessage station_notifier remote_start_reply asked)))
  = [Log (NoServerMapping (KStr (units "s9")))].
Proof.
  rewrite (proj2 (client_reply_routed_once station_notifier remote_start_reply remote_start_reply
                    (message_of remote_start_reply 3 "s9" [JObject []])
                    (message_of remote_start_reply 3 "s9" [JObject []]) "SEC" asked
                    ltac:(vm_compute; reflexivity) eq_refl
                    ltac:(vm_compute; reflexivity) eq_refl
                    ltac:(vm_compute; reflexivity) eq_refl eq_refl)).
  reflexivity.
Defined.

(** X2 at work: text that is no JSON, and a frame of type 5. *)
Lemma unroutable_client_frame_dropped_witness :
  handleClientMessage station_notifier "hello" live =
    (set_stamps 1 live, [Log FailedToParse; Log InvalidClientMessage]) /\
  handleClientMessage station_notifier odd_frame live =
    (set_stamps 1 live, [Log (UnknownMessageType (JNumber 5 0))]).
Proof.
  split.
  - apply (proj1 (unroutable_client_frame_dropped station_notifier "hello" live)).
    vm_compute. reflexivity.
  - exact (proj1 (proj2 (unroutable_client_frame_dropped station_notifier odd_frame live))
             {| raw := odd_frame; type := JNumber 5 0; messageId := KNum 7 0;
                parsed := [JNumber 5 0; JNumber 7 0] |}
             ltac:(vm_compute; reflexivity) ltac:(vm_compute; reflexivity)
             ltac:(vm_compute; reflexivity)).
Defined.

(** X5 at work: the secondary's CALL reaches the station although the
    station has a call of its own pending. *)
Lemma upstream_call_reaches_client_witness :
  client_sends (snd (on_link station_notifier 1 (Upstream.on_message remote_start_call) called))
  = [remote_start_call].
Proof.
  exact (proj1 (upstream_call_reaches_client station_notifier 1 sec_link remote_start_call
                  (message_of remote_start_call 2 "s9"
                     [JString (units "RemoteStartTransaction"); JObject []])
                  called eq_refl ltac:(vm_compute; reflexivity) eq_refl)).
Defined.

(** X6 at work: a path of two levels is refused, the station's is accepted. *)
Lemma client_path_validation_witness :
  sessions (fst (handleClientConnection accepts nested_request "ocpp1.6" station_proxy))
    = [] /\
  exists new,
    last (sessions (fst (handleClientConnection accepts station_request "ocpp1.6"
                           station_proxy))) = Some new /\
    clientId new = "STATION01".
Proof.
  split.
  - apply (proj1 (client_path_validation accepts nested_request "ocpp1.6" station_proxy)).
    intros id H. apply path_match_single_level in H. vm_compute in H. discriminate.
  - destruct (proj2 (client_path_validation accepts station_request "ocpp1.6"
                       station_proxy) "STATION01") as (new & H1 & H2 & _).
    + apply path_match_single_level. vm_compute. reflexivity.
    + by exists new.
Defined.

(** X7 at work: the station's connection opens a socket to each of the two
    upstreams, with the peer's address. *)
Lemma accepted_connection_opens_upstreams_witness :
  sockets_opened (snd (handleClientConnection accepts station_request "" station_proxy))
  = [(0, 0, "ws://pri/STATION01", Some "ocpp1.6",
      [("X-Forwarded-For", "10.0.0.7"); ("X-Real-IP", "10.0.0.7")]);
     (0, 1, "ws://sec/STATION01", Some "ocpp1.6",
      [("X-Forwarded-For", "10.0.0.7"); ("X-Real-IP", "10.0.0.7")])].
Proof.
  rewrite (accepted_connection_opens_upstreams accepts station_request "" "STATION01"
             station_proxy ltac:(vm_compute; reflexivity)).
  vm_compute. reflexivity.
Defined.

(** X11 at work: the station disconnects; both upstream sockets are closed. *)
Lemma client_disconnect_closes_upstreams_witness :
  registered (fst (onClientClose station_notifier live)) = false /\
  Up 0 Upstream.WsClose ∈ snd (onClientClose station_notifier live) /\
  Up 1 Upstream.WsClose ∈ snd (onClientClose station_notifier live).
Proof.
  destruct (client_disconnect_closes_upstreams station_notifier live eq_refl)
    as (H1 & _ & _ & _ & H5 & _).
  split; [exact H1|].
  split; apply H5; [by exists pri_link|by exists sec_link].
Defined.

(** X12 at work: frames, an error and a close still arrive for the station's
    session after it was cleaned up. *)
Lemma torn_down_session_stays_down_witness :
  let r := session_run accepts station_notifier
             [upstream_message 0 heartbeat_result; upstream_error 1;
              upstream_close 0; client_message remote_start_reply]
             (fst (cleanupClientConnection live)) in
  registered (fst r) = false /\ Forall (effect_ok only_logs) (snd r).
Proof.
  destruct (torn_down_session_stays_down accepts station_notifier
              [upstream_message 0 heartbeat_result; upstream_error 1;
               upstream_close 0; client_message remote_start_reply]
              live eq_refl) as (H1 & _ & H3).
  - cbn. repeat split.
  - split; [exact H1|exact H3].
Defined.

(** X14 at work: the primary is lost while the secondary is connected. *)
Lemma lost_link_reconnects_witness :
  Up 0 (Upstream.SetTimeout 5000) ∈ snd (on_link station_notifier 0 Upstream.on_close live).
Proof.
  destruct (lost_link_reconnects station_notifier 0 1 pri_link sec_link live) as (_ & H & _);
    try reflexivity; try done; try (cbn; lia).
Defined.

(** X15 at work: the first ocpp subprotocol of the offer is taken. *)
Lemma handleProtocols_first_ocpp_witness :
  handleProtocols ["mqtt"; "ocpp2.0.1"; "ocpp1.6"] = Some "ocpp2.0.1".
Proof.
  apply (proj1 (proj2 (handleProtocols_first_ocpp ["mqtt"; "ocpp2.0.1"; "ocpp1.6"]))
           ["mqtt"] "ocpp2.0.1" ["ocpp1.6"]); [reflexivity| |reflexivity].
  by repeat constructor.
Defined.

(** X16 at work: a key that is its own value and a key that does not occur. *)
Lemma replaceVars_unchanged_witness :
  Notify.replaceVars "Hello {name}" [("{name}", "{name}"); ("{id}", "7")]
  = "Hello {name}".
Proof.
  apply replaceVars_unchanged.
  constructor; [by left|]. constructor; [|constructor].
  right. cbn [fst]. apply occursb_false. vm_compute. reflexivity.
Defined.

(** X17 at work: the primary opens after the secondary; the buffered
    Heartbeat goes to both. *)
Lemma buffered_calls_fan_out_witness :
  upstream_writes (snd (on_link station_notifier 0 Upstream.on_open secondary_open))
  = [(0, heartbeat_call); (1, heartbeat_call)].
Proof.
  rewrite (buffered_calls_fan_out_at_primary_open station_notifier
             (Upstream.set_wasEverConnected false (Upstream.set_isConnected false pri_link))
             secondary_open eq_refl eq_refl eq_refl).
  - reflexivity.
  - repeat constructor.
  - discriminate.
  - repeat constructor.
    exists (JNumber 2 0), (JString (units "m1")), [JString (units "Heartbeat"); JObject []].
    repeat split; try (vm_compute; reflexivity).
    intros throws [= <-]. vm_compute. reflexivity.
Defined.

(** X18 at work: the notifier is told of the station's Heartbeat. *)
Lemma notifier_told_of_client_calls_witness :
  Notify (callFromClient "STATION01" heartbeat_call)
    ∈ snd (handleClientMessage station_notifier heartbeat_call live).
Proof.
  apply (notifier_told_of_client_calls station_notifier heartbeat_call live _ eq_refl).
  split; [by eexists|]. split; [reflexivity|].
  exists (message_of heartbeat_call 2 "m1" [JString (units "Heartbeat"); JObject []]).
  repeat split; vm_compute; reflexivity.
Defined.

(** X19 at work: the address a reverse proxy forwarded is taken, not the
    reverse proxy's own. *)
Lemma client_address_first_forwarded_witness :
  client_address relayed_request = Some "203.0.113.9".
Proof.
  apply (proj1 (client_address_first_forwarded relayed_request)). discriminate.
Defined.

(** X20 at work: the station sends a Heartbeat after its session was cleaned
    up. *)
Lemma call_after_cleanup_throws_witness :
  snd (onClientMessage station_notifier heartbeat_call abandoned)
  = [Log (CallToAllServers (KStr (units "m1")));
     Log (RegisteredClientCall (KStr (units "m1"))); ThrowTypeError].
Proof.
  exact (f_equal snd
           (call_after_cleanup_throws (Alerts.throws every_alert station_names)
              heartbeat_call
              (message_of heartbeat_call 2 "m1" [JString (units "Heartbeat"); JObject []])
              abandoned eq_refl ltac:(vm_compute; reflexivity) eq_refl eq_refl)).
Defined.

Lemma call_alerts_once_witness :
  Alerts.callFromClient every_alert station_names "STATION01" charging_notification
    = Alerts.Returns
        [Alerts.Send (Alerts.ConnectorStatus "Charging" (Alerts.Mapped "North Parking")
                        (JNumber 1 0) None)] /\
  (length [Alerts.Send (Alerts.ConnectorStatus "Charging" (Alerts.Mapped "North Parking")
                          (JNumber 1 0) None)] <= 1 /\
   Forall (fun n => Alerts.call_notice n /\ every_alert (Alerts.flag_of n) = true)
     (Alerts.notices
        [Alerts.Send (Alerts.ConnectorStatus "Charging" (Alerts.Mapped "North Parking")
                        (JNumber 1 0) None)])).
Proof.
  split; [vm_compute; reflexivity|].
  apply (call_alerts_once every_alert station_names "STATION01" charging_notification).
  vm_compute. reflexivity.
Defined.

Lemma call_without_connector_silent_witness :
  Alerts.callFromClient every_alert station_names "STATION01" stop_transaction
    = Alerts.Returns [].
Proof.
  apply (call_without_connector_silent every_alert station_names "STATION01"
           stop_transaction
           (JArray [JNumber 2 0; JString (units "m3"); JString (units "StopTransaction");
                    JObject [(units "meterStop", JNumber 2 1);
                             (units "transactionId", JNumber 5 0)]])
           (Some (JString (units "StopTransaction")))
           (Some (JObject [(units "meterStop", JNumber 2 1);
                           (units "transactionId", JNumber 5 0)])));
    [vm_compute; reflexivity..|].
  intros p [= <-]. vm_compute. reflexivity.
Defined.


Lemma notifier_parses_its_frames_witness :
  call_frame charging_notification /\
  Alerts.callFromClient every_alert station_names "STATION01" charging_notification
    <> Alerts.Throws.
Proof.
  apply (notifier_parses_its_frames accepts charging_report station_proxy every_alert
           station_names 0).
  apply list_elem_of_In. vm_compute.
  repeat first [left; reflexivity | right].
Defined.

Lemma alerts_follow_events_witness :
  hook_calls (snd (handle accepts station_notifier (upstream_close 1) live))
    = [disconnectedFromUpstream "STATION01" "SEC"] /\
  hook_calls (snd (handle accepts station_notifier client_close live))
    = [disconnectedFromProxy "STATION01"].
Proof.
  split.
  - exact (proj1 (proj1 (proj2 (alerts_follow_events accepts station_notifier live)) 1 sec_link eq_refl)).
  - exact (proj1 (alerts_follow_events accepts station_notifier live)).
Defined.
